(** * TS-tools: the transition-state validity engine and its batch drivers

    A shallow embedding of
      - [src/reaction_profile_generator/confirm_imag_modes.py]
        (module [ConfirmImagModes]),
      - [src/reaction_profile_generator/irc_search.py] (modules [IrcSearch]
        and [IrcFiles]),
      - [src/reaction_profile_generator/utils.py] (module [Utils]),
      - [run_scripts/dft_validation.py] (module [DftValidation]),
      - [run_scripts/run_ts_searcher_dft.py] (modules [RunTsSearcherDft]
        and [SearchBatch]),
    followed by the properties of the specification that concern them and
    by further properties of the code.

    Conventions of the embedding.
      - A Python float is an exact rational ([Q]); [<], [abs], [+], [-] and
        [*] are the rational ones.  Not-a-number and infinities have no
        counterpart.
      - A call that may raise returns a [result]; the exceptions are the
        instances of Python's [Exception] class.
      - A Python [set] of bonds is a [gset bond], a [dict] keyed by bonds a
        [gmap bond Q]; the order in which a set is iterated is a parameter
        ([set_iter]) constrained only to enumerate the set once.
      - A two-dimensional numpy array is a list of rows.
      - Text is [string]; a file is the list of its lines as [readlines]
        returns them. *)

From Stdlib Require Import QArith Qabs ZArith Lia String Ascii Sorted.
From stdpp Require Import gmap strings list pretty.

(* ===================================================================== *)
(** * Part I: the embedding                                               *)
(* ===================================================================== *)

(** ** Exceptions and results *)

(** The classes of [Exception] the modelled code raises or catches. *)
Inductive exn : Type :=
  | IndexError
  | ValueError
  | KeyError
  | TypeError
  | UnboundLocalError
  | FileNotFoundError
  | OSError
  | RuntimeError (msg : string).

Inductive result (A : Type) : Type :=
  | Ok (a : A)
  | Raise (e : exn).
Arguments Ok {A} a.
Arguments Raise {A} e.

#[global] Instance result_ret : MRet result := fun A a => Ok a.
#[global] Instance result_bind : MBind result := fun A B f m =>
  match m with
  | Ok a => f a
  | Raise e => Raise e
  end.

#[global] Instance result_fmap : FMap result := fun A B f m =>
  match m with
  | Ok a => Ok (f a)
  | Raise e => Raise e
  end.

Definition is_Ok {A} (r : result A) : Prop := exists a, r = Ok a.

(** [try: m except Exception as e: h e] *)
Definition try_except {A} (m : result A) (h : exn -> result A) : result A :=
  match m with
  | Ok a => Ok a
  | Raise e => h e
  end.

(** ** Numbers *)

(** Python's [x < y] on floats. *)
Definition Qltb (x y : Q) : bool := negb (Qle_bool y x).

(** ** Bonds, matrices, geometries *)

(** A bond is the tuple of two atom indices that a graph edge is. *)
Abbreviation bond := (nat * nat)%type (only parsing).

(** A row of three Cartesian components. *)
Abbreviation vec3 := (Q * Q * Q)%type (only parsing).

(** An N x 3 array of coordinates, or a normal mode ([[]] is the array
    [np.array([])] of shape (0,)). *)
Abbreviation rows3 := (list (Q * Q * Q)) (only parsing).

(** An N x M array. *)
Abbreviation matrix := (list (list Q)) (only parsing).

(** [m[i, j]]: an index past the end raises [IndexError]. *)
Definition mat_get (m : matrix) (b : bond) : result Q :=
  match m !! (fst b) with
  | Some row =>
      match row !! (snd b) with
      | Some x => Ok x
      | None => Raise IndexError
      end
  | None => Raise IndexError
  end.

(** An autode [Species] as the modules use it: the name, the element symbols
    of the atoms, their coordinates, charge and multiplicity, and the edges
    of the molecular graph. *)
Record Species : Type := {
  name : string;
  atoms : list string;
  coordinates : rows3;
  charge : Z;
  mult : Z;
  graph_edges : list bond;
}.

(** [set(mol.graph.edges)] *)
Definition edge_set (mol : Species) : gset bond := list_to_set (graph_edges mol).

(** A value a worker hands back to the pool: [None], [True]/[False], or a
    reaction identifier. *)
Inductive pyval : Type :=
  | PyNone
  | PyBool (b : bool)
  | PyStr (s : string).

#[global] Instance pyval_eq_dec : EqDecision pyval.
Proof. solve_decision. Defined.

(** ** Text *)

Definition chars (s : string) : list ascii := list_ascii_of_string s.

(** [str.isspace] on the ASCII range, which is also the class [\s]. *)
Definition is_space (c : ascii) : bool :=
  let n := nat_of_ascii c in
  ((9 <=? n) && (n <=? 13)) || ((28 <=? n) && (n <=? 32)).

(** The class [\d], on the ASCII range. *)
Definition is_digit (c : ascii) : bool :=
  let n := nat_of_ascii c in (48 <=? n) && (n <=? 57).

Definition is_char (a c : ascii) : bool := bool_decide (a = c).

Fixpoint is_prefix (p s : list ascii) : bool :=
  match p, s with
  | [], _ => true
  | a :: p', c :: s' => is_char a c && is_prefix p' s'
  | _ :: _, [] => false
  end.

(** [needle in hay] *)
Fixpoint contains_chars (needle hay : list ascii) : bool :=
  is_prefix needle hay ||
  match hay with
  | [] => false
  | _ :: hay' => contains_chars needle hay'
  end.

Definition str_contains (needle hay : string) : bool :=
  contains_chars (chars needle) (chars hay).

(** [s.endswith(suffix)] *)
Definition str_endswith (s suffix : string) : bool :=
  is_prefix (rev (chars suffix)) (rev (chars s)).

(** [s.split(sep)] for a non-empty [sep]: [skip] counts the characters of
    a separator just recognised that are still to be passed over, [cur] is
    the piece being read, reversed. *)
Fixpoint split_chars (sep s : list ascii) (skip : nat) (cur : list ascii)
    : list (list ascii) :=
  match s with
  | [] => [rev cur]
  | c :: s' =>
      match skip with
      | S k => split_chars sep s' k cur
      | O =>
          if is_prefix sep s
          then rev cur :: split_chars sep s' (length sep - 1) []
          else split_chars sep s' 0 (c :: cur)
      end
  end.

Definition str_split (s sep : string) : list (list ascii) :=
  split_chars (chars sep) (chars s) 0 [].

(** [s.split()]: the maximal runs of non-blank characters. *)
Fixpoint split_blank (s : list ascii) (cur : list ascii) : list (list ascii) :=
  match s with
  | [] => match cur with [] => [] | _ => [rev cur] end
  | c :: s' =>
      if is_space c
      then match cur with
           | [] => split_blank s' []
           | _ => rev cur :: split_blank s' []
           end
      else split_blank s' (c :: cur)
  end.

(** [l[i]] on a Python list, for [i >= 0]. *)
Definition list_get {A} (l : list A) (i : nat) : result A :=
  match l !! i with
  | Some x => Ok x
  | None => Raise IndexError
  end.

(** [l.index(x)] *)
Fixpoint list_index (x : string) (l : list string) : result nat :=
  match l with
  | [] => Raise ValueError
  | y :: l' => if bool_decide (y = x) then Ok 0 else S <$> list_index x l'
  end.

(** *** [float(...)] of a token *)

Fixpoint span_digits (s : list ascii) : list ascii * list ascii :=
  match s with
  | c :: s' =>
      if is_digit c
      then let '(ds, r) := span_digits s' in (c :: ds, r)
      else ([], s)
  | [] => ([], [])
  end.

Definition digits_value (ds : list ascii) : Z :=
  fold_left (fun acc c => (10 * acc + Z.of_nat (nat_of_ascii c - 48))%Z) ds 0%Z.

Definition take_sign (s : list ascii) : bool * list ascii :=
  match s with
  | c :: r =>
      if is_char "-" c then (true, r)
      else if is_char "+" c then (false, r)
      else (false, s)
  | [] => (false, [])
  end.

(** The exponent part: absent, or [e]/[E], an optional sign and digits. *)
Definition float_exponent (s : list ascii) : result Z :=
  match s with
  | [] => Ok 0%Z
  | c :: r =>
      if is_char "e" c || is_char "E" c then
        let '(neg, r1) := take_sign r in
        let '(ds, r2) := span_digits r1 in
        match ds, r2 with
        | _ :: _, [] => Ok (if neg then (- digits_value ds)%Z else digits_value ds)
        | _, _ => Raise ValueError
        end
      else Raise ValueError
  end.

(** [float(s)] for a decimal literal without blanks: a sign, digits with
    an optional point, an optional exponent.  Any other text raises
    [ValueError] here; of the texts Python accepts, this leaves out the
    digits grouped by underscores and the spellings of infinity and
    not-a-number. *)
Definition py_float (s : list ascii) : result Q :=
  let '(neg, s1) := take_sign s in
  let '(ip, s2) := span_digits s1 in
  let '(fp, s3) :=
    match s2 with
    | c :: r => if is_char "." c then span_digits r else ([], s2)
    | [] => ([], [])
    end in
  match ip ++ fp with
  | [] => Raise ValueError
  | ds =>
      e ← float_exponent s3;
      let m := Qmake (digits_value ds) (Z.to_pos (10 ^ Z.of_nat (length fp))) in
      let v := (m * Qpower (inject_Z 10) e)%Q in
      Ok (if neg then (- v)%Q else v)
  end.

(** *** Regular expressions

    The fragment of [re] the source uses: classes, greedy [+] and [?] of a
    class, sequence and numbered groups, matched by backtracking in the
    order [re] tries the alternatives. *)

Inductive regex : Type :=
  | RClass (p : ascii -> bool)
  | RPlus (p : ascii -> bool)
  | ROpt (p : ascii -> bool)
  | RSeq (r1 r2 : regex)
  | RGroup (n : nat) (r : regex).

(** The text of the groups matched so far, the latest binding first. *)
Definition captures : Type := list (nat * list ascii).

Fixpoint plus_class {X} (p : ascii -> bool) (s : list ascii)
    (k : list ascii -> option X) : option X :=
  match s with
  | c :: s' =>
      if p c
      then match plus_class p s' k with
           | Some r => Some r
           | None => k s'
           end
      else None
  | [] => None
  end.

Fixpoint rmatch (r : regex) (s : list ascii) (cs : captures)
    (k : list ascii -> captures -> option captures) : option captures :=
  match r with
  | RClass p =>
      match s with
      | c :: s' => if p c then k s' cs else None
      | [] => None
      end
  | RPlus p => plus_class p s (fun s' => k s' cs)
  | ROpt p =>
      match s with
      | c :: s' =>
          if p c
          then match k s' cs with
               | Some r => Some r
               | None => k s cs
               end
          else k s cs
      | [] => k s cs
      end
  | RSeq r1 r2 => rmatch r1 s cs (fun s' cs' => rmatch r2 s' cs' k)
  | RGroup n r =>
      rmatch r s cs
        (fun s' cs' => k s' ((n, take (length s - length s') s) :: cs'))
  end.

(** [re.search(r, s)]: the leftmost position at which [r] matches. *)
Fixpoint re_search_chars (r : regex) (s : list ascii) : option captures :=
  match rmatch r s [] (fun _ cs => Some cs) with
  | Some cs => Some cs
  | None =>
      match s with
      | [] => None
      | _ :: s' => re_search_chars r s'
      end
  end.

Definition re_search (r : regex) (s : string) : option captures :=
  re_search_chars r (chars s).

(** [match.group(n)] of a group that took part in the match. *)
Definition group (cs : captures) (n : nat) : list ascii :=
  match list_find (fun e => bool_decide (fst e = n)) cs with
  | Some (_, (_, txt)) => txt
  | None => []
  end.

(** What the interpreter and the numerical libraries supply: the order in
    which a set of bonds is iterated, and the Euclidean norm of a row
    (numpy's [linalg.norm], which scipy's [distance_matrix] also computes). *)
Class Runtime : Type := {
  set_iter : gset bond -> list bond;
  vec_norm : vec3 -> Q;
}.

(** Iterating a set visits each of its elements exactly once. *)
Class RuntimeSpec (RT : Runtime) : Prop := {
  set_iter_perm : forall s : gset bond, set_iter s ≡ₚ elements s;
}.

Module ConfirmImagModes.

(** *** [check_same_sign] (lines 148-172) *)

(** Lines 162-165: [sign = 1 if num > 0 else -1]. *)
Definition sign_of (num : Q) : Z := if Qltb 0 num then 1%Z else (-1)%Z.

(** The [for] loop of lines 161-170, [first_sign] threaded through. *)
Fixpoint check_same_sign_from (first_sign : Z) (mode_list : list Q) : bool :=
  match mode_list with
  | [] => true
  | num :: rest =>
      let sign := sign_of num in
      if (first_sign =? 0)%Z then check_same_sign_from sign rest
      else if negb (sign =? 0)%Z && negb (sign =? first_sign)%Z then false
      else check_same_sign_from first_sign rest
  end.

Definition check_same_sign (mode_list : list Q) : bool :=
  check_same_sign_from 0%Z mode_list.

(** *** [check_if_bond_lengths_intermediate] (lines 115-145) *)

(** One of the two loops (lines 131-136, 138-143): [Ok false] is the
    [return False], [Ok true] the loop running to its end. *)
Fixpoint bonds_all_activated (ts_distances target_distances : matrix)
    (factor : Q) (bonds : list bond) : result bool :=
  match bonds with
  | [] => Ok true
  | active_bond :: rest =>
      t ← mat_get ts_distances active_bond;
      d ← mat_get target_distances active_bond;
      if Qltb t (d * factor) then Ok false
      else bonds_all_activated ts_distances target_distances factor rest
  end.

Definition check_if_bond_lengths_intermediate
    (ts_distances reac_distances prod_distances : matrix)
    (active_bonds_forming active_bonds_breaking : list bond)
    (factor : Q) : result bool :=
  formed ← bonds_all_activated ts_distances prod_distances factor active_bonds_forming;
  if (formed : bool)
  then bonds_all_activated ts_distances reac_distances factor active_bonds_breaking
  else Ok false.

(** *** The loops of [determine_unactivated_bonds] (lines 102-112) *)

Fixpoint collect_unactivated (ts_distances target_distances : matrix)
    (factor : Q) (bonds : list bond) (unactivated_bonds : list bond)
    : result (list bond) :=
  match bonds with
  | [] => Ok unactivated_bonds
  | active_bond :: rest =>
      t ← mat_get ts_distances active_bond;
      d ← mat_get target_distances active_bond;
      collect_unactivated ts_distances target_distances factor rest
        (if Qltb t (d * factor)
         then unactivated_bonds ++ [active_bond]
         else unactivated_bonds)
  end.

Definition unactivated_bonds_of
    (ts_distances reac_distances prod_distances : matrix)
    (active_bonds_forming active_bonds_breaking : list bond)
    (factor : Q) : result (list bond) :=
  unactivated_bonds ←
    collect_unactivated ts_distances prod_distances factor active_bonds_forming [];
  collect_unactivated ts_distances reac_distances factor active_bonds_breaking
    unactivated_bonds.

(** *** The files and molecules the module reads *)

(** What the module finds outside itself: the entries of the current
    directory ([os.listdir()]), the lines of a text file
    ([open(f).readlines()]), the molecule autode builds from an xyz file and
    a charge ([ade.Molecule(f, charge=c)]), and whether [shutil.copy] and
    [os.rename] raise (the files they write are not read back here). *)
Record World : Type := {
  listdir_cwd : list string;
  getcwd : string;
  readlines : string -> result (list string);
  ade_Molecule : string -> Z -> result Species;
  shutil_copy : string -> string -> result unit;
  os_rename : string -> string -> result unit;
}.

(** [os.path.join(a, b)] *)
Definition path_join (a b : string) : string :=
  if is_prefix (chars "/") (chars b) then b
  else if bool_decide (a = "") || str_endswith a "/" then a +:+ b
  else a +:+ "/" +:+ b.

(** *** [get_xyzs] (lines 416-431) and [get_ade_molecules] (lines 395-413) *)

Definition get_xyzs (w : World) (path : string) : result (string * string) :=
  reactant_file ←
    list_get (filter (fun f => f = "conformer_reactant_init_optimised_xtb.xyz")
                (listdir_cwd w)) 0;
  product_file ←
    list_get (filter (fun f => f = "conformer_product_init_optimised_xtb.xyz")
                (listdir_cwd w)) 0;
  Ok (path_join path reactant_file, path_join path product_file).

Definition get_ade_molecules (w : World)
    (reactant_file product_file ts_guess_file : string) (charge : Z)
    : result (Species * Species * Species) :=
  reactant ← ade_Molecule w reactant_file charge;
  product ← ade_Molecule w product_file charge;
  ts ← ade_Molecule w ts_guess_file charge;
  Ok (reactant, product, ts).

(** *** [truncate_line_list_log_file] (lines 273-288)

    [None] is Python's [None], returned when the loop ends. *)
Fixpoint truncate_from (lines : list string) (ts_found : option nat) (idx : nat)
    : option (list string) :=
  match lines with
  | [] => None
  | line :: rest =>
      let ts_found :=
        if str_contains "-- Stationary point found." line then Some idx
        else ts_found in
      if bool_decide (ts_found ≠ None)
         && str_contains "Harmonic frequencies (cm**-1)" line
      then Some lines
      else truncate_from rest ts_found (S idx)
  end.

Definition truncate_line_list_log_file (lines : list string)
    : option (list string) :=
  truncate_from lines None 0.

(** *** [read_first_normal_mode] (lines 291-336) *)

Definition number_re : regex :=
  RSeq (ROpt (fun c => is_char "-" c || is_char "+" c))
    (RSeq (RPlus is_digit) (RSeq (RClass (is_char ".")) (RPlus is_digit))).

(** [\s+(\d+)\s+\d+\s+([-+]?\d+\.\d+)\s+([-+]?\d+\.\d+)\s+([-+]?\d+\.\d+)] *)
Definition pattern : regex :=
  RSeq (RPlus is_space) (RSeq (RGroup 1 (RPlus is_digit))
  (RSeq (RPlus is_space) (RSeq (RPlus is_digit)
  (RSeq (RPlus is_space) (RSeq (RGroup 2 number_re)
  (RSeq (RPlus is_space) (RSeq (RGroup 3 number_re)
  (RSeq (RPlus is_space) (RGroup 4 number_re))))))))).

(** Line 317: [float(line.split('--')[1].split()[0])] *)
Definition parse_frequency (line : string) : result Q :=
  after ← list_get (str_split line "--") 1;
  token ← list_get (split_blank after []) 0;
  py_float token.

(** Lines 324-333: the rows below the frequency line, up to the first line
    the pattern does not match. *)
Fixpoint read_mode_rows (sub_lines : list string) : result rows3 :=
  match sub_lines with
  | [] => Ok []
  | sub_line :: rest =>
      match re_search pattern sub_line with
      | Some m =>
          x ← py_float (group m 2);
          y ← py_float (group m 3);
          z ← py_float (group m 4);
          below ← read_mode_rows rest;
          Ok ((x, y, z) :: below)
      | None => Ok []
      end
  end.

(** Lines 313-336: [todo] is what the outer loop has still to visit,
    [lines] the whole list.  Reaching the end leaves [frequency] unbound,
    and the [return] raises. *)
Fixpoint scan_for_frequencies (todo lines : list string) (log_file : bool)
    : result (rows3 * Q) :=
  match todo with
  | [] => Raise UnboundLocalError
  | line :: rest =>
      if str_contains "Frequencies" line then
        frequency ← parse_frequency line;
        let offset := if log_file then 5 else 7 in
        start ← list_index line lines;
        normal_mode ← read_mode_rows (drop (start + offset) lines);
        Ok (normal_mode, frequency)
      else scan_for_frequencies rest lines log_file
  end.

Definition read_first_normal_mode (w : World) (filename : string)
    (log_file : bool) : result (rows3 * Q) :=
  lines ← readlines w filename;
  if log_file then
    match truncate_line_list_log_file lines with
    | Some lines => scan_for_frequencies lines lines log_file
    | None => Raise TypeError
    end
  else scan_for_frequencies lines lines log_file.

(** *** Array arithmetic (numpy) *)

Definition vec_map2 (f : Q -> Q -> Q) (u v : vec3) : vec3 :=
  let '(ux, uy, uz) := u in
  let '(vx, vy, vz) := v in
  (f ux vx, f uy vy, f uz vz).

Definition vec_scale (a : Q) (v : vec3) : vec3 :=
  let '(x, y, z) := v in ((a * x)%Q, (a * y)%Q, (a * z)%Q).

Fixpoint zip_result {A B C} (f : A -> B -> result C) (xs : list A) (ys : list B)
    : result (list C) :=
  match xs, ys with
  | x :: xs', y :: ys' =>
      c ← f x y; cs ← zip_result f xs' ys'; Ok (c :: cs)
  | _, _ => Ok []
  end.

(** Broadcasting along one axis: equal lengths pair up, a length of one is
    stretched, anything else raises [ValueError]. *)
Definition broadcast {A B C} (f : A -> B -> result C) (xs : list A) (ys : list B)
    : result (list C) :=
  if bool_decide (length xs = length ys) then zip_result f xs ys
  else match xs, ys with
       | [x], _ => mapM (f x) ys
       | _, [y] => mapM (fun x => f x y) xs
       | _, _ => Raise ValueError
       end.

(** [a op b] for two arrays of rows of three. *)
Definition rows_op (f : Q -> Q -> Q) (a b : rows3) : result rows3 :=
  broadcast (fun u v => Ok (vec_map2 f u v)) a b.

(** [a op mode] for an N x 3 array [a] and a normal mode as
    [read_first_normal_mode] returns it: the mode without rows is
    [np.array([])], of shape (0,), which no N x 3 array broadcasts with. *)
Definition mode_op (f : Q -> Q -> Q) (a mode : rows3) : result rows3 :=
  match mode with
  | [] => Raise ValueError
  | _ => rows_op f a mode
  end.

(** [a -= mode]: as [a - mode], and the result must have the shape of
    [a]. *)
Definition mode_isub (a mode : rows3) : result rows3 :=
  r ← mode_op Qminus a mode;
  if bool_decide (length r = length a) then Ok r else Raise ValueError.

(** [a - b] for two-dimensional arrays. *)
Definition mat_sub (a b : matrix) : result matrix :=
  broadcast (broadcast (fun x y => Ok (x - y)%Q)) a b.

(** [np.max] of a one-dimensional array. *)
Definition np_max (l : list Q) : result Q :=
  match l with
  | [] => Raise ValueError
  | x :: r => Ok (fold_left (fun a b => if Qltb a b then b else a) r x)
  end.

Section with_runtime.
Context {RT : Runtime}.

(** [scipy.spatial.distance_matrix(x, y)] for two N x 3 arrays. *)
Definition distance_matrix (x y : rows3) : matrix :=
  (fun u => (fun v => vec_norm (vec_map2 Qminus u v)) <$> y) <$> x.

(** *** [displaced_species_along_mode] (lines 339-392)

    The new [Species] takes the coordinates as they are computed (autode's
    setter is a plain store here). *)

(** The loop of lines 373-381, [fuel] counting what is left of
    [range(20)]. *)
Fixpoint shrink_displacement (fuel : nat) (coords normal_mode : rows3)
    (disp_factor max_atom_disp : Q) (disp_coords : rows3) : result rows3 :=
  match fuel with
  | O => Ok disp_coords
  | S fuel' =>
      diff ← rows_op Qminus coords disp_coords;
      largest ← np_max (map vec_norm diff);
      if Qltb largest max_atom_disp then Ok disp_coords
      else
        disp_coords ←
          mode_isub disp_coords (map (vec_scale (disp_factor / 20)) normal_mode);
        shrink_displacement fuel' coords normal_mode disp_factor max_atom_disp
          disp_coords
  end.

Definition displaced_species_along_mode (species : Species)
    (normal_mode : rows3) (disp_factor max_atom_disp : Q) : result Species :=
  let coords := coordinates species in
  disp_coords ← mode_op Qplus coords (map (vec_scale disp_factor) normal_mode);
  disp_coords ←
    shrink_displacement 20 coords normal_mode disp_factor max_atom_disp disp_coords;
  Ok {| name := name species +:+ "_disp";
        atoms := atoms species;
        coordinates := disp_coords;
        charge := charge species;
        mult := mult species;
        graph_edges := [] |}.

(** *** [extract_info_ts_file] (lines 195-270) *)

(** The tuple the function returns. *)
Record TsInfo : Type := {
  freq : Q;
  active_bonds_involved_in_mode : gmap bond Q;
  extra_bonds_involved_in_mode : gmap bond Q;
  active_bonds_forming : gset bond;
  active_bonds_breaking : gset bond;
  reac_distances : matrix;
  prod_distances : matrix;
  ts_distances : matrix;
}.

(** Lines 229-242: the displaced geometries, their distance matrices and
    [delta_mode]. *)
Definition compute_delta_mode (reactant ts_mol : Species) (normal_mode : rows3)
    : result matrix :=
  f_displaced_species ← displaced_species_along_mode ts_mol normal_mode 1 99.9;
  b_displaced_species ← displaced_species_along_mode reactant normal_mode (-1) 99.9;
  let f_distances :=
    distance_matrix (coordinates f_displaced_species)
      (coordinates f_displaced_species) in
  let b_distances :=
    distance_matrix (coordinates b_displaced_species)
      (coordinates b_displaced_species) in
  mat_sub f_distances b_distances.

(** Lines 257-267: the loop over [all_bonds], the two dictionaries threaded
    through. *)
Fixpoint assign_involvement (bonds : list bond) (active_bonds : gset bond)
    (delta_mode : matrix) (cut_off : Q) (active extra : gmap bond Q)
    : result (gmap bond Q * gmap bond Q) :=
  match bonds with
  | [] => Ok (active, extra)
  | bond :: rest =>
      d ← mat_get delta_mode bond;
      if bool_decide (bond ∈ active_bonds) then
        if Qltb (Qabs d) (2 * cut_off)
        then assign_involvement rest active_bonds delta_mode cut_off active extra
        else assign_involvement rest active_bonds delta_mode cut_off
               (<[bond := d]> active) extra
      else
        if Qltb (Qabs d) cut_off
        then assign_involvement rest active_bonds delta_mode cut_off active extra
        else assign_involvement rest active_bonds delta_mode cut_off
               active (<[bond := d]> extra)
  end.

Definition extract_info_ts_file (w : World) (ts_file path : string)
    (charge : Z) (cut_off : Q) : result TsInfo :=
  '(reactant_file, product_file) ← get_xyzs w path;
  '(reactant, product, ts_mol) ←
    get_ade_molecules w reactant_file product_file ts_file charge;
  '(normal_mode, freq) ← read_first_normal_mode w (path_join path "g98.out") false;
  delta_mode ← compute_delta_mode reactant ts_mol normal_mode;
  let reac_distances := distance_matrix (coordinates reactant) (coordinates reactant) in
  let prod_distances := distance_matrix (coordinates product) (coordinates product) in
  let ts_distances := distance_matrix (coordinates ts_mol) (coordinates ts_mol) in
  let all_bonds := edge_set product ∪ edge_set reactant in
  let active_bonds_forming := edge_set product ∖ edge_set reactant in
  let active_bonds_breaking := edge_set reactant ∖ edge_set product in
  let active_bonds := active_bonds_forming ∪ active_bonds_breaking in
  '(active, extra) ←
    assign_involvement (set_iter all_bonds) active_bonds delta_mode cut_off ∅ ∅;
  Ok {| freq := freq;
        active_bonds_involved_in_mode := active;
        extra_bonds_involved_in_mode := extra;
        active_bonds_forming := active_bonds_forming;
        active_bonds_breaking := active_bonds_breaking;
        reac_distances := reac_distances;
        prod_distances := prod_distances;
        ts_distances := ts_distances |}.

(** *** [move_final_guess_xyz] (lines 175-192) *)

Definition str_join (sep : string) (parts : list (list ascii)) : string :=
  match parts with
  | [] => ""
  | p :: ps =>
      fold_left (fun acc q => acc +:+ sep +:+ string_of_list_ascii q) ps
        (string_of_list_ascii p)
  end.

(** [l[-1]] of the list a [split] returned, which is never empty. *)
Definition last_piece (parts : list (list ascii)) : string :=
  string_of_list_ascii (List.last parts []).

Definition move_final_guess_xyz (w : World) (ts_guess_file : string)
    : result unit :=
  let path_name := str_join "/" (removelast (str_split (getcwd w) "/")) in
  let reaction_name := last_piece (str_split (getcwd w) "/") in
  let final_dir := path_join path_name "final_ts_guesses" in
  _ ← shutil_copy w ts_guess_file final_dir;
  os_rename w
    (path_join final_dir (last_piece (str_split ts_guess_file "/")))
    (path_join final_dir (reaction_name +:+ "_final_ts_guess.xyz")).

(** *** [validate_ts_guess] (lines 14-71) *)

(** [[d[bond] for bond in bonds]] *)
Definition values_at (d : gmap bond Q) (bonds : list bond) : result (list Q) :=
  mapM (fun bond => match d !! bond with
                    | Some v => Ok v
                    | None => Raise KeyError
                    end) bonds.

Definition validate_ts_guess (w : World) (ts_file path : string)
    (factor disp_cut_off freq_cut_off : Q) (charge : Z) (final : bool)
    : result bool :=
  info ← extract_info_ts_file w ts_file path charge disp_cut_off;
  let active := active_bonds_involved_in_mode info in
  let extra := extra_bonds_involved_in_mode info in
  active_formed_bonds_involved_in_mode ←
    values_at active (set_iter (dom active ∩ active_bonds_forming info));
  active_broken_bonds_involved_in_mode ←
    values_at active (set_iter (dom active ∩ active_bonds_breaking info));
  bond_lengths_intermediate ←
    check_if_bond_lengths_intermediate (ts_distances info) (reac_distances info)
      (prod_distances info) (set_iter (active_bonds_forming info))
      (set_iter (active_bonds_breaking info)) factor;
  if bool_decide (size extra = 0) && negb (bool_decide (size active = 0))
     && check_same_sign active_formed_bonds_involved_in_mode
     && check_same_sign active_broken_bonds_involved_in_mode
     && bond_lengths_intermediate && Qltb (freq info) (- freq_cut_off)
  then
    _ ← (if final then move_final_guess_xyz w ts_file else Ok ());
    Ok true
  else Ok false.

(** *** [determine_unactivated_bonds] (lines 74-112) *)

Definition determine_unactivated_bonds (w : World) (ts_file path : string)
    (factor disp_cut_off : Q) (charge : Z) : result (list bond) :=
  info ← extract_info_ts_file w ts_file path charge disp_cut_off;
  unactivated_bonds_of (ts_distances info) (reac_distances info)
    (prod_distances info) (set_iter (active_bonds_forming info))
    (set_iter (active_bonds_breaking info)) factor.

End with_runtime.

End ConfirmImagModes.

(** ** [irc_search.py]: the reconciliation of the IRC end points *)
Module IrcSearch.

(** What [compare_molecules_irc] calls outside itself: the re-optimisation
    of an end point ([optimize_final_point_irc], an [xtb] run that writes
    the [_opt.xyz] file), autode's [Molecule(file, name=..., charge=...)],
    and the edges [make_graph(mol, rel_tolerance=...)] stores in [mol]. *)
Record World : Type := {
  optimize_final_point_irc : string -> Z -> Z -> option string -> result unit;
  ade_Molecule : string -> string -> Z -> result Species;
  make_graph : Q -> Species -> list bond;
}.

(** The four molecules the sweep keeps and regraphs. *)
Record Molecules : Type := {
  forward_mol : Species;
  reverse_mol : Species;
  reactant_mol : Species;
  product_mol : Species;
}.

Definition regraph (w : World) (rel_tolerance : Q) (mol : Species) : Species :=
  {| name := name mol; atoms := atoms mol; coordinates := coordinates mol;
     charge := charge mol; mult := mult mol;
     graph_edges := make_graph w rel_tolerance mol |}.

(** Lines 166-170. *)
Definition update_molecular_graphs (w : World) (rel_tolerance : Q)
    (mols : Molecules) : Molecules :=
  {| forward_mol := regraph w rel_tolerance (forward_mol mols);
     reverse_mol := regraph w rel_tolerance (reverse_mol mols);
     reactant_mol := regraph w rel_tolerance (reactant_mol mols);
     product_mol := regraph w rel_tolerance (product_mol mols) |}.

(** The two tests of lines 185 and 187. *)
Definition matches_as_given (mols : Molecules) : bool :=
  bool_decide (edge_set (forward_mol mols) = edge_set (reactant_mol mols))
  && bool_decide (edge_set (reverse_mol mols) = edge_set (product_mol mols)).

Definition matches_swapped (mols : Molecules) : bool :=
  bool_decide (edge_set (forward_mol mols) = edge_set (product_mol mols))
  && bool_decide (edge_set (reverse_mol mols) = edge_set (reactant_mol mols)).

(** Line 183. *)
Definition tolerances : list Q := [0.3; 0.25; 0.20; 0.15; 0.10]%Q.

(** The loop of lines 183-192: the verdict, and the molecules as the loop
    leaves them. *)
Fixpoint sweep (w : World) (tols : list Q) (mols : Molecules)
    : bool * Molecules :=
  match tols with
  | [] => (false, mols)
  | rel_tolerance :: rest =>
      let mols := update_molecular_graphs w rel_tolerance mols in
      if matches_as_given mols then (true, mols)
      else if matches_swapped mols then (true, mols)
      else sweep w rest mols
  end.

(** [s[:-4]] *)
Definition drop_last4 (s : string) : string :=
  string_of_list_ascii (take (length (chars s) - 4) (chars s)).

Definition compare_molecules_irc (w : World)
    (forward_xyz reverse_xyz reactant_xyz product_xyz : string)
    (charge multiplicity : Z) (solvent : option string) : result bool :=
  _ ← optimize_final_point_irc w forward_xyz charge multiplicity solvent;
  _ ← optimize_final_point_irc w reverse_xyz charge multiplicity solvent;
  forward_mol ← ade_Molecule w (drop_last4 forward_xyz +:+ "_opt.xyz") "forward" charge;
  reverse_mol ← ade_Molecule w (drop_last4 reverse_xyz +:+ "_opt.xyz") "reverse" charge;
  reactant_mol ← ade_Molecule w reactant_xyz "reactant" charge;
  product_mol ← ade_Molecule w product_xyz "product" charge;
  Ok (fst (sweep w tolerances
             {| forward_mol := forward_mol; reverse_mol := reverse_mol;
                reactant_mol := reactant_mol; product_mol := product_mol |})).

End IrcSearch.

(** ** [dft_validation.py]: the validation of ready TS guesses *)
Module DftValidation.

(** The attributes of a [TSOptimizer] the script reads and writes. *)
Record TSOptimizer : Type := {
  rxn_id : string;
  reaction_dir : string;
  rp_geometries_dir : string;
  path_dir : string;
  final_guess_dir : string;
  ts_guess_list : list string;
}.

(** What the script calls outside itself: the file system, the number of
    processors ([multiprocessing.cpu_count()]), and the constructor and the
    two methods of [TSOptimizer] it uses. *)
Record World : Type := {
  getcwd : string;
  cpu_count : nat;
  os_chdir : string -> result unit;
  os_listdir : string -> result (list string);
  shutil_copy : string -> string -> result unit;
  new_TSOptimizer : string -> string -> option string -> result TSOptimizer;
  modify_ts_guess_list : list string -> TSOptimizer -> result TSOptimizer;
  determine_ts : TSOptimizer -> result bool;
}.

(** The loop of lines 47-53 over the entries [files]: the value of
    [ts_guess_file] when the loop stops, and how it stopped. *)
Fixpoint scan_guess_dir (w : World) (ts_optimizer : TSOptimizer)
    (guess_dir_path : string) (files : list string)
    (ts_guess_file : option string) : option string * result unit :=
  match files with
  | [] => (ts_guess_file, Ok ())
  | file :: rest =>
      if str_contains "ts_guess" file && str_endswith file ".xyz" then
        scan_guess_dir w ts_optimizer guess_dir_path rest
          (Some (ConfirmImagModes.path_join guess_dir_path file))
      else if bool_decide (file = "reactants_geometry.xyz") then
        match shutil_copy w (ConfirmImagModes.path_join guess_dir_path file)
                (rp_geometries_dir ts_optimizer) with
        | Ok _ => scan_guess_dir w ts_optimizer guess_dir_path rest ts_guess_file
        | Raise e => (ts_guess_file, Raise e)
        end
      else if bool_decide (file = "products_geometry.xyz") then
        match shutil_copy w (ConfirmImagModes.path_join guess_dir_path file)
                (rp_geometries_dir ts_optimizer) with
        | Ok _ => scan_guess_dir w ts_optimizer guess_dir_path rest ts_guess_file
        | Raise e => (ts_guess_file, Raise e)
        end
      else scan_guess_dir w ts_optimizer guess_dir_path rest ts_guess_file
  end.

(** Lines 39-72.  The argument is the pair [validation_args]. *)
Definition validate_individual_ts (w : World)
    (validation_args : TSOptimizer * string) : result pyval :=
  let '(ts_optimizer, input_dir_path) := validation_args in
  let guess_dir_path :=
    ConfirmImagModes.path_join input_dir_path
      ("final_outputs_reaction_" +:+ rxn_id ts_optimizer) in
  let ts_optimizer :=
    {| rxn_id := rxn_id ts_optimizer;
       reaction_dir := reaction_dir ts_optimizer;
       rp_geometries_dir := rp_geometries_dir ts_optimizer;
       path_dir := guess_dir_path;
       final_guess_dir := reaction_dir ts_optimizer;
       ts_guess_list := ts_guess_list ts_optimizer |} in
  (* try: ... except Exception as e: print(e) *)
  let ts_guess_file :=
    match os_listdir w guess_dir_path with
    | Ok files => fst (scan_guess_dir w ts_optimizer guess_dir_path files None)
    | Raise e => None
    end in
  '(ts_optimizer, ts_validated) ←
    match ts_guess_file with
    | Some file =>
        ts_optimizer ← modify_ts_guess_list w [file] ts_optimizer;
        (* try: ... except Exception as e: print(e) *)
        ts_validated ←
          try_except (determine_ts w ts_optimizer) (fun e => Ok false);
        Ok (ts_optimizer, ts_validated)
    | None => Ok (ts_optimizer, false)
    end;
  if (ts_validated : bool) then Ok (PyStr (rxn_id ts_optimizer))
  else Ok (PyBool false).

(** Lines 88-113.  A pool of [int(cpu_count / 2)] workers cannot be made
    of no worker; its [map] hands back the workers' values in the order of
    the list, and raises the first exception a worker raised. *)
Definition validate_ts_guesses (w : World) (input_dir output_dir : string)
    (reaction_list : list (string * string)) (solvent : option string)
    : result (list pyval) :=
  let home_dir := getcwd w in
  let input_dir_path := ConfirmImagModes.path_join (getcwd w) input_dir in
  _ ← os_chdir w output_dir;
  ts_optimizer_list ←
    mapM (fun '(rxn_idx, rxn_smiles) =>
            ts_optimizer ← new_TSOptimizer w rxn_idx rxn_smiles solvent;
            Ok (ts_optimizer, input_dir_path)) reaction_list;
  _ ← os_chdir w home_dir;
  let num_processes := cpu_count w in
  _ ← (if bool_decide (num_processes / 2 = 0) then Raise ValueError else Ok ());
  results ← mapM (validate_individual_ts w) ts_optimizer_list;
  let validated_reactions := filter (fun r => r ≠ PyNone) results in
  _ ← os_chdir w home_dir;
  Ok validated_reactions.

End DftValidation.

(** ** [run_ts_searcher_dft.py]: the search for a TS, reaction by reaction *)
Module RunTsSearcherDft.

Section worker.
(** The state a worker process changes: its [TSOptimizer] and its files. *)
Context {S : Type}.

(** A call that can change the state and can raise. *)
Definition M (A : Type) : Type := S -> result A * S.

Definition ret {A} (a : A) : M A := fun s => (Ok a, s).

Definition bind {A B} (m : M A) (f : A -> M B) : M B :=
  fun s => match m s with
           | (Ok a, s') => f a s'
           | (Raise e, s') => (Raise e, s')
           end.

(** [try: m except Exception as e: h e] *)
Definition catch {A} (m : M A) (h : exn -> M A) : M A :=
  fun s => match m s with
           | (Ok a, s') => (Ok a, s')
           | (Raise e, s') => h e s'
           end.

(** What the worker calls outside itself: the attributes and methods of its
    [TSOptimizer], and [remove_files_in_directory(os.getcwd())]. *)
Record World : Type := {
  rxn_id : S -> string;
  reaction_is_intramolecular : M bool;
  reactive_complex_factor_values_intra : S -> list Q;
  reactive_complex_factor_values_inter : S -> list Q;
  set_ts_guess_list : Q -> M unit;
  determine_ts : M bool;
  remove_files_in_directory : M unit;
}.

Context (w : World).

(** Lines 58-60: the calls of one attempt, up to the test of [ts_found]. *)
Definition attempt (reactive_complex_factor : Q) : M bool :=
  bind (set_ts_guess_list w reactive_complex_factor) (fun _ =>
  bind (determine_ts w) (fun ts_found =>
  bind (remove_files_in_directory w) (fun _ =>
  ret ts_found))).

(** The loop [for _ in range(3)] of lines 56-67, [left] counting the
    attempts to come: [Some v] is [return v], [None] the loop ending. *)
Fixpoint attempts (left : nat) (reactive_complex_factor : Q) : M (option pyval) :=
  match left with
  | O => ret None
  | Datatypes.S left' =>
      bind
        (catch
           (bind (attempt reactive_complex_factor) (fun ts_found =>
              if (ts_found : bool)
              then fun s => (Ok (Some (PyStr (rxn_id w s))), s)
              else ret None))
           (fun e => ret None))
        (fun returned =>
           match returned with
           | Some v => ret (Some v)
           | None => attempts left' reactive_complex_factor
           end)
  end.

(** The loop of lines 55-67 over the factor values. *)
Fixpoint search (reactive_complex_factor_values : list Q) : M pyval :=
  match reactive_complex_factor_values with
  | [] => ret PyNone
  | reactive_complex_factor :: rest =>
      bind (attempts 3 reactive_complex_factor) (fun returned =>
        match returned with
        | Some v => ret v
        | None => search rest
        end)
  end.

(** Lines 49-72.  The classification of line 49 is a method call outside
    the [try]. *)
Definition optimize_individual_ts : M pyval :=
  bind (reaction_is_intramolecular w) (fun intramolecular ts_optimizer =>
    let reactive_complex_factor_values :=
      if (intramolecular : bool)
      then reactive_complex_factor_values_intra w ts_optimizer
      else reactive_complex_factor_values_inter w ts_optimizer in
    search reactive_complex_factor_values ts_optimizer).

End worker.
Arguments World S : clear implicits.

End RunTsSearcherDft.

(** ** A worked reaction: A-B + C -> A + B-C on a line

    Three atoms on the x axis; the reactant has the bond (0,1), the product
    the bond (1,2), and the candidate TS holds atom 1 half way.  The file
    of normal modes moves atom 1 along x. *)
Module Example.
Import ConfirmImagModes.

(** The square root of a rational, rounded down on the grid of its reduced
    denominator: exact on the square of a rational. *)
Definition Qsqrt_down (q : Q) : Q :=
  let r := Qred q in
  Qmake (Z.sqrt (Qnum r * Zpos (Qden r))) (Qden r).

Definition euclid (v : vec3) : Q :=
  let '(x, y, z) := v in Qsqrt_down (x * x + y * y + z * z).

(** Sets iterated in the order of [elements], norms by [euclid]. *)
Definition runtime : Runtime :=
  {| set_iter := elements; vec_norm := euclid |}.

Definition on_x_axis (xs : list Q) : rows3 := map (fun x => (x, 0%Q, 0%Q)) xs.

Definition molecule (nm : string) (xs : list Q) (es : list bond) : Species :=
  {| name := nm; atoms := ["H"; "H"; "H"]; coordinates := on_x_axis xs;
     charge := 0; mult := 1; graph_edges := es |}.

Definition reactant : Species := molecule "reactant" [0; 1; 3]%Q [(0, 1)].
Definition product : Species := molecule "product" [0; 2; 3]%Q [(1, 2)].
Definition ts_mol : Species := molecule "ts" [0; 1.5; 3]%Q [(0, 1); (1, 2)].

(** The lines of the normal-mode file (their line ends left out), with the
    x displacement of atom 1 as given. *)
Definition g98_lines (dx : string) : list string :=
  [ " Harmonic frequencies (cm**-1), IR intensities (km*mol^-1),";
    "                     1                      2";
    " Frequencies --  -500.0000               120.5000";
    " Red. masses --     1.0000                 1.0000";
    " Frc consts  --     0.1000                 0.1000";
    " IR Inten    --     0.0000                 0.0000";
    " Raman Activ --     0.0000                 0.0000";
    " Depolar     --     0.0000                 0.0000";
    " Atom AN      X      Y      Z        X      Y      Z";
    "   1   1     0.00   0.00   0.00     0.00   0.10   0.00";
    "   2   1     " +:+ dx +:+ "   0.00   0.00     0.00  -0.20   0.00";
    "   3   1     0.00   0.00   0.00     0.00   0.10   0.00";
    "                     3" ].

Definition world (dx : string) : World :=
  {| listdir_cwd :=
       [ "conformer_product_init_optimised_xtb.xyz";
         "conformer_reactant_init_optimised_xtb.xyz";
         "g98.out"; "ts_guess_0.xyz" ];
     getcwd := "/work/reaction_R1";
     readlines := fun f =>
       if bool_decide (f = "/work/reaction_R1/g98.out")
       then Ok (g98_lines dx) else Raise FileNotFoundError;
     ade_Molecule := fun f _ =>
       if bool_decide (f = "/work/reaction_R1/conformer_reactant_init_optimised_xtb.xyz")
       then Ok reactant
       else if bool_decide (f = "/work/reaction_R1/conformer_product_init_optimised_xtb.xyz")
       then Ok product
       else if bool_decide (f = "ts_guess_0.xyz") then Ok ts_mol
       else Raise FileNotFoundError;
     shutil_copy := fun _ _ => Ok ();
     os_rename := fun _ _ => Ok () |}.

(** The mode the file gives for [dx = 0.40]. *)
Definition mode_040 : rows3 :=
  [(0.00, 0.00, 0.00); (0.40, 0.00, 0.00); (0.00, 0.00, 0.00)]%Q.

(** The entries of a matrix in lowest terms. *)
Definition reduced (m : matrix) : matrix := map (map Qred) m.

(** *** End points of an IRC for the worked reaction *)

(** A graph inference for atoms in a row: two atoms are bonded when their
    distance is at most the reference length 1 stretched by the relative
    tolerance. *)
Definition bonded (rel_tolerance : Q) (xyz : rows3) (b : bond) : bool :=
  match xyz !! fst b, xyz !! snd b with
  | Some u, Some v =>
      negb (Qltb (1 + rel_tolerance) (euclid (vec_map2 Qminus u v)))
  | _, _ => false
  end.

Definition row_graph (rel_tolerance : Q) (mol : Species) : list bond :=
  List.filter (bonded rel_tolerance (coordinates mol)) [(0, 1); (0, 2); (1, 2)].

(** The forward end point relaxes to [forward]; the other files hold the
    reverse end point, the reactant and the product. *)
Definition irc_world (forward : list Q) : IrcSearch.World :=
  {| IrcSearch.optimize_final_point_irc := fun _ _ _ _ => Ok ();
     IrcSearch.ade_Molecule := fun f nm _ =>
       if bool_decide (f = "irc_forward_opt.xyz") then Ok (molecule nm forward [])
       else if bool_decide (f = "irc_reverse_opt.xyz")
       then Ok (molecule nm [0; 2; 3]%Q [])
       else if bool_decide (f = "reactants_geometry.xyz")
       then Ok (molecule nm [0; 1; 3]%Q [])
       else if bool_decide (f = "products_geometry.xyz")
       then Ok (molecule nm [0; 2; 3]%Q [])
       else Raise FileNotFoundError;
     IrcSearch.make_graph := row_graph |}.

(** *** A batch to validate: the directory of guesses of R1 is absent, the
    validation of R2 raises, the guess of R3 is rejected and that of R4
    validated *)
Definition optimizer (id : string) : DftValidation.TSOptimizer :=
  {| DftValidation.rxn_id := id;
     DftValidation.reaction_dir := "/out/reaction_" +:+ id;
     DftValidation.rp_geometries_dir := "/out/reaction_" +:+ id +:+ "/rp_geometries";
     DftValidation.path_dir := "";
     DftValidation.final_guess_dir := "";
     DftValidation.ts_guess_list := [] |}.

Definition validation_world : DftValidation.World :=
  {| DftValidation.getcwd := "/home";
     DftValidation.cpu_count := 8;
     DftValidation.os_chdir := fun _ => Ok ();
     DftValidation.os_listdir := fun d =>
       if bool_decide (d = "/home/final_test/final_outputs_reaction_R1")
       then Raise FileNotFoundError
       else Ok ["products_geometry.xyz"; "reactants_geometry.xyz";
                "ts_guess_0.xyz"];
     DftValidation.shutil_copy := fun _ _ => Ok ();
     DftValidation.new_TSOptimizer := fun id _ _ => Ok (optimizer id);
     DftValidation.modify_ts_guess_list := fun fs o =>
       Ok {| DftValidation.rxn_id := DftValidation.rxn_id o;
             DftValidation.reaction_dir := DftValidation.reaction_dir o;
             DftValidation.rp_geometries_dir := DftValidation.rp_geometries_dir o;
             DftValidation.path_dir := DftValidation.path_dir o;
             DftValidation.final_guess_dir := DftValidation.final_guess_dir o;
             DftValidation.ts_guess_list := fs |};
     DftValidation.determine_ts := fun o =>
       if bool_decide (DftValidation.rxn_id o = "R2")
       then Raise (RuntimeError "g16")
       else Ok (bool_decide (DftValidation.rxn_id o = "R4")) |}.

Definition batch : list (string * string) :=
  [ ("R1", "CC=O.CC=O>>CC(O)CC=O"); ("R2", "C=C.C=CC=C>>C1CCC=CC1");
    ("R3", "CCl.[OH-]>>CO.[Cl-]"); ("R4", "C=CC=C.C=C>>C1=CCCCC1") ].

(** *** A search: the state counts the calls of [determine_ts]; the guess
    of the fifth call is the first accepted, and every second call raises *)
Definition search_world : RunTsSearcherDft.World nat :=
  {| RunTsSearcherDft.rxn_id := fun _ => "R1";
     RunTsSearcherDft.reaction_is_intramolecular := fun n => (Ok true, n);
     RunTsSearcherDft.reactive_complex_factor_values_intra := fun _ => [1.2; 1.3; 1.8]%Q;
     RunTsSearcherDft.reactive_complex_factor_values_inter :=
       fun _ => [2.5; 1.8; 2.8; 1.3]%Q;
     RunTsSearcherDft.set_ts_guess_list := fun _ n => (Ok (), n);
     RunTsSearcherDft.determine_ts := fun n =>
       (if Nat.even n then Ok (bool_decide (n = 4)) else Raise (RuntimeError "xtb"),
        Datatypes.S n);
     RunTsSearcherDft.remove_files_in_directory := fun n => (Ok (), n) |}.

End Example.

(** ** The vocabulary of the specification *)
Module Spec.
Import ConfirmImagModes.

(** A bond is activated against a target geometry: its TS distance is at
    least [factor] times its distance in the target (section 4.3, step 5). *)
Definition activated (ts_distances target_distances : matrix) (factor : Q)
    (b : bond) : Prop :=
  exists t d, mat_get ts_distances b = Ok t
              /\ mat_get target_distances b = Ok d
              /\ (factor * d <= t)%Q.

(** A bond violates the intermediacy check against a target geometry. *)
Definition violating (ts_distances target_distances : matrix) (factor : Q)
    (b : bond) : Prop :=
  exists t d, mat_get ts_distances b = Ok t
              /\ mat_get target_distances b = Ok d
              /\ (t < factor * d)%Q.

(** Both distances of a bond can be read. *)
Definition readable (ts_distances target_distances : matrix) (b : bond) : Prop :=
  is_Ok (mat_get ts_distances b) /\ is_Ok (mat_get target_distances b).






Section with_runtime.
Context {RT : Runtime}.

(** The reactant, the product, the candidate TS and the first normal mode
    with its frequency, as [extract_info_ts_file] loads them. *)
Definition loaded (w : World) (ts_file path : string) (charge : Z)
    (reactant product ts_mol : Species) (normal_mode : rows3) (frequency : Q)
    : Prop :=
  exists reactant_file product_file,
    get_xyzs w path = Ok (reactant_file, product_file)
    /\ get_ade_molecules w reactant_file product_file ts_file charge
       = Ok (reactant, product, ts_mol)
    /\ read_first_normal_mode w (path_join path "g98.out") false
       = Ok (normal_mode, frequency).

(** The bond classification of section 4.2: every bond of [all_bonds] has a
    delta-mode entry [d]; a bond of [active_bonds] is recorded in [active]
    iff [|d| >= 2 * cut_off] and never in [extra]; any other bond is
    recorded in [extra] iff [|d| >= cut_off] and never in [active]; what is
    recorded is [d]. *)
Definition classified (all_bonds active_bonds : gset bond) (delta_mode : matrix)
    (cut_off : Q) (active extra : gmap bond Q) : Prop :=
  forall b, b ∈ all_bonds ->
    exists d, mat_get delta_mode b = Ok d
    /\ (b ∈ active_bonds ->
          ((2 * cut_off <= Qabs d)%Q -> active !! b = Some d)
          /\ ((Qabs d < 2 * cut_off)%Q -> active !! b = None)
          /\ extra !! b = None)
    /\ (b ∉ active_bonds ->
          ((cut_off <= Qabs d)%Q -> extra !! b = Some d)
          /\ ((Qabs d < cut_off)%Q -> extra !! b = None)
          /\ active !! b = None).

(** The invariant of the data model (section 3): the three geometries have
    the same number of atoms, and the bonds are pairs of indices of these
    atoms. *)
Definition consistent_atoms (reactant product ts_mol : Species) : Prop :=
  length (coordinates reactant) = length (coordinates ts_mol)
  /\ length (coordinates product) = length (coordinates ts_mol)
  /\ forall b, b ∈ edge_set reactant ∪ edge_set product ->
       fst b < length (coordinates ts_mol)
       /\ snd b < length (coordinates ts_mol).

(** The delta-mode matrix as the specification words it: the candidate TS
    displaced by [+1] and by [-1] along the mode. *)
Definition delta_mode_of_ts (ts_mol : Species) (normal_mode : rows3)
    : result matrix :=
  f_displaced_species ← displaced_species_along_mode ts_mol normal_mode 1 99.9;
  b_displaced_species ← displaced_species_along_mode ts_mol normal_mode (-1) 99.9;
  mat_sub
    (distance_matrix (coordinates f_displaced_species)
       (coordinates f_displaced_species))
    (distance_matrix (coordinates b_displaced_species)
       (coordinates b_displaced_species)).

(** The displacements recorded for the active bonds of one kind, in the
    order the set of those bonds is iterated. *)
Definition displacements (active : gmap bond Q) (kind : gset bond) : list Q :=
  omap (fun b => active !! b) (set_iter (dom active ∩ kind)).

(** The six conditions of section 4.3, step 6. *)
Definition accepted (info : TsInfo) (factor freq_cut_off : Q) : Prop :=
  extra_bonds_involved_in_mode info = ∅
  /\ active_bonds_involved_in_mode info ≠ ∅
  /\ check_same_sign
       (displacements (active_bonds_involved_in_mode info)
          (active_bonds_forming info)) = true
  /\ check_same_sign
       (displacements (active_bonds_involved_in_mode info)
          (active_bonds_breaking info)) = true
  /\ check_if_bond_lengths_intermediate (ts_distances info)
       (reac_distances info) (prod_distances info)
       (set_iter (active_bonds_forming info))
       (set_iter (active_bonds_breaking info)) factor = Ok true
  /\ (freq info < - freq_cut_off)%Q.

(** The intermediacy check of [info] returns. *)
Definition intermediacy_decided (info : TsInfo) (factor : Q) : Prop :=
  is_Ok (check_if_bond_lengths_intermediate (ts_distances info)
           (reac_distances info) (prod_distances info)
           (set_iter (active_bonds_forming info))
           (set_iter (active_bonds_breaking info)) factor).

End with_runtime.

(** *** The tolerance sweep (section 4.5, step 4) *)

(** The four molecules after being regraphed at each tolerance of [tols] in
    turn. *)
Definition graphs_after (w : IrcSearch.World) (tols : list Q)
    (mols : IrcSearch.Molecules) : IrcSearch.Molecules :=
  fold_left (fun m tol => IrcSearch.update_molecular_graphs w tol m) tols mols.

(** Either orientation matches, as equality of edge sets. *)
Definition orientation_matches (mols : IrcSearch.Molecules) : Prop :=
  (edge_set (IrcSearch.forward_mol mols) = edge_set (IrcSearch.reactant_mol mols)
   /\ edge_set (IrcSearch.reverse_mol mols) = edge_set (IrcSearch.product_mol mols))
  \/ (edge_set (IrcSearch.forward_mol mols) = edge_set (IrcSearch.product_mol mols)
      /\ edge_set (IrcSearch.reverse_mol mols) = edge_set (IrcSearch.reactant_mol mols)).

(** *** The search of one reaction (section 4.6) *)
Section schedule.
Context {S : Type} (w : RunTsSearcherDft.World S).

(** The attempts in the order of the specification: each factor value in
    its given order, three times. *)
Definition schedule (factors : list Q) : list Q :=
  flat_map (fun f => [f; f; f]) factors.

(** The state machine of the specification: take the next attempt of the
    schedule; an accepted guess stops the search with the reaction
    identifier, a rejected guess or an exception moves on; the schedule
    exhausted, the reaction has failed. *)
Fixpoint run_schedule (sched : list Q) : RunTsSearcherDft.M (S := S) pyval :=
  match sched with
  | [] => RunTsSearcherDft.ret PyNone
  | f :: rest => fun s =>
      match RunTsSearcherDft.attempt w f s with
      | (Ok true, s') => (Ok (PyStr (RunTsSearcherDft.rxn_id w s')), s')
      | (_, s') => run_schedule rest s'
      end
  end.

(** The attempts made and how each ended, up to the first accepted one. *)
Fixpoint attempts_made (sched : list Q) (s : S) : list (Q * result bool) :=
  match sched with
  | [] => []
  | f :: rest =>
      match RunTsSearcherDft.attempt w f s with
      | (Ok true, _) => [(f, Ok true)]
      | (r, s') => (f, r) :: attempts_made rest s'
      end
  end.

(** The factor values the worker selects: those of its kind of reaction. *)
Definition selected_factors (intramolecular : bool) (s : S) : list Q :=
  if intramolecular
  then RunTsSearcherDft.reactive_complex_factor_values_intra w s
  else RunTsSearcherDft.reactive_complex_factor_values_inter w s.

(** An attempt that did not end with an accepted guess. *)
Definition failed_attempt (o : Q * result bool) : Prop := snd o <> Ok true.

End schedule.

End Spec.

(** ** Further vocabulary and further code of the repository *)
Module More.

(** The list from its first element that satisfies [p] on. *)
Fixpoint drop_until {A} (p : A -> bool) (l : list A) : list A :=
  match l with
  | [] => []
  | x :: l' => if p x then l else drop_until p l'
  end.

(** [None] for the empty list, as a Python function that falls off its end
    returns. *)
Definition non_empty {A} (l : list A) : option (list A) :=
  match l with
  | [] => None
  | _ => Some l
  end.


(** *** The directory of guesses of a reaction ([dft_validation.py]) *)

(** The test of line 48. *)
Definition is_guess (file : string) : bool :=
  str_contains "ts_guess" file && str_endswith file ".xyz".

(** An entry whose copy (lines 50-53) raises. *)
Definition copy_raises (w : DftValidation.World)
    (ts_optimizer : DftValidation.TSOptimizer) (guess_dir_path file : string)
    : bool :=
  negb (is_guess file)
  && (bool_decide (file = "reactants_geometry.xyz")
      || bool_decide (file = "products_geometry.xyz"))
  && match DftValidation.shutil_copy w
             (ConfirmImagModes.path_join guess_dir_path file)
             (DftValidation.rp_geometries_dir ts_optimizer) with
     | Ok _ => false
     | Raise _ => true
     end.

(** The list up to its first element that satisfies [p]. *)
Fixpoint take_until {A} (p : A -> bool) (l : list A) : list A :=
  match l with
  | [] => []
  | x :: l' => if p x then [] else x :: take_until p l'
  end.

(** The directory of guesses of a reaction (line 42). *)
Definition guess_dir (ts_optimizer : DftValidation.TSOptimizer)
    (input_dir_path : string) : string :=
  ConfirmImagModes.path_join input_dir_path
    ("final_outputs_reaction_" +:+ DftValidation.rxn_id ts_optimizer).

(** The optimizer after the assignments of lines 43-44. *)
Definition prepared (ts_optimizer : DftValidation.TSOptimizer)
    (input_dir_path : string) : DftValidation.TSOptimizer :=
  {| DftValidation.rxn_id := DftValidation.rxn_id ts_optimizer;
     DftValidation.reaction_dir := DftValidation.reaction_dir ts_optimizer;
     DftValidation.rp_geometries_dir := DftValidation.rp_geometries_dir ts_optimizer;
     DftValidation.path_dir := guess_dir ts_optimizer input_dir_path;
     DftValidation.final_guess_dir := DftValidation.reaction_dir ts_optimizer;
     DftValidation.ts_guess_list := DftValidation.ts_guess_list ts_optimizer |}.

(** The guess file the worker ends up with: none when the directory cannot
    be listed. *)
Definition guess_found (w : DftValidation.World)
    (ts_optimizer : DftValidation.TSOptimizer) (input_dir_path : string)
    : option string :=
  match DftValidation.os_listdir w (guess_dir ts_optimizer input_dir_path) with
  | Ok files =>
      fst (DftValidation.scan_guess_dir w (prepared ts_optimizer input_dir_path)
             (guess_dir ts_optimizer input_dir_path) files None)
  | Raise _ => None
  end.

(** *** The sweep with the roles exchanged ([irc_search.py]) *)

(** The end points exchanged. *)
Definition swap_ends (mols : IrcSearch.Molecules) : IrcSearch.Molecules :=
  {| IrcSearch.forward_mol := IrcSearch.reverse_mol mols;
     IrcSearch.reverse_mol := IrcSearch.forward_mol mols;
     IrcSearch.reactant_mol := IrcSearch.reactant_mol mols;
     IrcSearch.product_mol := IrcSearch.product_mol mols |}.

(** The reactant and the product exchanged. *)
Definition swap_sides (mols : IrcSearch.Molecules) : IrcSearch.Molecules :=
  {| IrcSearch.forward_mol := IrcSearch.forward_mol mols;
     IrcSearch.reverse_mol := IrcSearch.reverse_mol mols;
     IrcSearch.reactant_mol := IrcSearch.product_mol mols;
     IrcSearch.product_mol := IrcSearch.reactant_mol mols |}.

(** A reaction identifier. *)
Definition is_id (v : pyval) : Prop := exists id, v = PyStr id.

End More.

(** ** [run_ts_searcher_dft.py]: the batch of searches *)
Module SearchBatch.

Section batch.
Context {S : Type}.

(** What [obtain_transition_states] calls outside itself and the workers:
    the file system, the number of processors, the constructor of
    [TSOptimizer] (its result is the state the worker of the reaction starts
    from) and [copy_final_outputs]. *)
Record World : Type := {
  getcwd : string;
  cpu_count : nat;
  os_chdir : string -> result unit;
  new_TSOptimizer :
    string -> string -> string -> option string -> list Q -> list Q -> Z ->
    string -> Z -> result S;
  copy_final_outputs : string -> string -> result unit;
}.

(** Lines 95-118.  A pool cannot be made of no worker; its [map] hands back
    the workers' values in the order of the list, and raises the first
    exception a worker raised.  Each worker runs its reaction from the state
    the constructor built. *)
Definition obtain_transition_states (workers : RunTsSearcherDft.World S)
    (w : World) (target_dir : string) (reaction_list : list (string * string))
    (xtb_external_path : string) (solvent : option string)
    (reactive_complex_factor_list_intermolecular
     reactive_complex_factor_list_intramolecular : list Q)
    (freq_cut_off : Z) (mem : string) (proc : Z) : result (list pyval) :=
  let home_dir := getcwd w in
  _ ← os_chdir w target_dir;
  ts_optimizer_list ←
    mapM (fun '(rxn_idx, rxn_smiles) =>
            new_TSOptimizer w rxn_idx rxn_smiles xtb_external_path solvent
              reactive_complex_factor_list_intermolecular
              reactive_complex_factor_list_intramolecular freq_cut_off
              mem proc) reaction_list;
  let num_processes := cpu_count w in
  _ ← (if bool_decide (num_processes = 0) then Raise ValueError else Ok ());
  results ←
    mapM (fun ts_optimizer =>
            fst (RunTsSearcherDft.optimize_individual_ts workers ts_optimizer))
      ts_optimizer_list;
  let successful_reactions := filter (fun r => r ≠ PyNone) results in
  _ ← os_chdir w home_dir;
  _ ← copy_final_outputs w target_dir ("final_" +:+ target_dir);
  Ok successful_reactions.

End batch.
Arguments World S : clear implicits.

End SearchBatch.

(** ** [utils.py]: the Gaussian input of a guess *)
Module Utils.

(** The end of a line. *)
Definition nl : string := String "010"%char "".

(** What [xyz_to_gaussian_input] finds outside itself: the lines of a text
    file ([open(f).readlines()]) and whether a file can be opened for
    writing. *)
Record World : Type := {
  readlines : string -> result (list string);
  open_w : string -> result unit;
}.

(** [l[0]] of the list a [split] returned, which is never empty. *)
Definition first_piece (parts : list (list ascii)) : string :=
  string_of_list_ascii (List.hd [] parts).

(** Lines 57 and 64-73: what is written before the atoms. *)
Definition header (xyz_file method basis_set extra_commands : string) : string :=
  let filename :=
    first_piece
      (str_split (ConfirmImagModes.last_piece (str_split xyz_file "/")) ".xyz") in
  (if str_contains "external" method
   then "%Chk=" +:+ filename +:+ ".chk" +:+ nl +:+ "# " +:+ method +:+ " "
        +:+ extra_commands
   else "%Chk=" +:+ filename +:+ ".chk" +:+ nl +:+ "%nproc=8" +:+ nl
        +:+ "%Mem=16GB" +:+ nl +:+ "# " +:+ method +:+ "/" +:+ basis_set
        +:+ " " +:+ extra_commands)
  +:+ (nl +:+ nl +:+ "Title" +:+ nl +:+ nl)
  +:+ ("0 1" +:+ nl).

(** Lines 76-80: the loop over the atom lines, [written] being the text
    written so far; the text written and how the loop ended. *)
Fixpoint write_atoms (atom_lines : list string) (written : string)
    : string * result unit :=
  match atom_lines with
  | [] => (written, Ok ())
  | line :: rest =>
      let atom_info := split_blank (chars line) [] in
      match atom_info with
      | [] => (written, Raise IndexError)
      | element :: _ =>
          match take 3 (drop 1 atom_info) with
          | [x; y; z] =>
              write_atoms rest
                (written
                 +:+ (string_of_list_ascii element +:+ " "
                      +:+ string_of_list_ascii x +:+ " "
                      +:+ string_of_list_ascii y +:+ " "
                      +:+ string_of_list_ascii z +:+ nl))
          | _ => (written, Raise ValueError)
          end
      end
  end.

(** Lines 57-83.  The first component is the text of the output file, [None]
    when the file was not opened; the [print] of line 85 is left out. *)
Definition xyz_to_gaussian_input (w : World)
    (xyz_file output_file method basis_set extra_commands : string)
    : option string * result unit :=
  match readlines w xyz_file with
  | Raise e => (None, Raise e)
  | Ok lines =>
      let atom_lines := drop 2 lines in
      match open_w w output_file with
      | Raise e => (None, Raise e)
      | Ok _ =>
          let written := header xyz_file method basis_set extra_commands in
          match write_atoms atom_lines written with
          | (written, Ok _) => (Some (written +:+ nl), Ok ())
          | (written, Raise e) => (Some written, Raise e)
          end
      end
  end.

End Utils.

(** ** [irc_search.py]: the files of an IRC calculation *)
Module IrcFiles.
Import Utils.

(** What the functions find outside themselves: the lines of a text file,
    the writing of a text to a file ([open(f, 'w').write(text)]),
    [write_coordinates_to_xyz], and the run of a command with its standard
    output sent to a file ([subprocess.Popen(argv, stdout=out).wait()]). *)
Record World : Type := {
  readlines : string -> result (list string);
  write_text : string -> string -> result unit;
  write_coordinates_to_xyz : list (string * Q * Q * Q) -> string -> result unit;
  run : list (list ascii) -> string -> result unit;
}.

(** [os.path.dirname(p)]: [p] up to its last separator, the separators at
    the end of that taken off unless it consists of separators. *)
Definition dirname (p : string) : string :=
  let head := rev (More.drop_until (is_char "/") (rev (chars p))) in
  if forallb (is_char "/") head then string_of_list_ascii head
  else string_of_list_ascii
         (rev (More.drop_until (fun c => negb (is_char "/" c)) (rev head))).

(** [c.lower()], on the ASCII range. *)
Definition lower (c : ascii) : ascii :=
  let n := nat_of_ascii c in
  if (65 <=? n) && (n <=? 90) then ascii_of_nat (n + 32) else c.

(** Line 116: ['final structure' in line.lower()]. *)
Definition is_marker (line : string) : bool :=
  contains_chars (chars "final structure") (map lower (chars line)).

(** Line 120: [line.strip() == '']. *)
Definition is_blank (line : string) : bool := forallb is_space (chars line).

(** The loop of lines 115-127. *)
Fixpoint scan_coordinates (lines : list string) (found_coordinates : bool)
    (coordinates : list (string * Q * Q * Q))
    : result (list (string * Q * Q * Q)) :=
  match lines with
  | [] => Ok coordinates
  | line :: rest =>
      if is_marker line then scan_coordinates rest true coordinates
      else if found_coordinates && is_blank line then Ok coordinates
      else if found_coordinates then
        match split_blank (chars line) [] with
        | [element; x; y; z] =>
            x ← py_float x;
            y ← py_float y;
            z ← py_float z;
            scan_coordinates rest found_coordinates
              (coordinates ++ [(string_of_list_ascii element, x, y, z)])
        | _ => scan_coordinates rest found_coordinates coordinates
        end
      else scan_coordinates rest found_coordinates coordinates
  end.

(** Lines 109-129. *)
Definition extract_coordinates (w : World) (file_path : string) : result unit :=
  lines ← readlines w file_path;
  coordinates ← scan_coordinates lines false [];
  write_coordinates_to_xyz w coordinates
    (IrcSearch.drop_last4 file_path +:+ "_opt.xyz").

(** Lines 132-144. *)
Definition write_xtb_input_file (w : World) (xyz_path : string) : result string :=
  let file_path := ConfirmImagModes.path_join (dirname xyz_path) "xtb.inp" in
  let input_block :=
    nl +:+ "    $wall" +:+ nl +:+ "    potential=logfermi" +:+ nl
    +:+ "    sphere: auto, all" +:+ nl +:+ "    $end" +:+ nl +:+ "    " in
  _ ← write_text w file_path input_block;
  Ok file_path.

(** Lines 147-163.  [str(charge)] is the decimal text of the integer. *)
Definition optimize_final_point_irc (w : World) (xyz_file : string)
    (charge multiplicity : Z) (solvent : option string) : result unit :=
  inp_path ← write_xtb_input_file w xyz_file;
  let cmd := "xtb --input " +:+ inp_path +:+ " " +:+ xyz_file
             +:+ " --opt --cma --charge " +:+ pretty charge +:+ " " in
  let cmd :=
    if bool_decide (multiplicity = 1%Z) then cmd
    else if bool_decide (multiplicity = 2%Z) then cmd +:+ "--uhf 1 "
    else cmd in
  let cmd :=
    match solvent with
    | Some solvent => cmd +:+ ("--alpb " +:+ solvent +:+ " ")
    | None => cmd
    end in
  _ ← run w (split_blank (chars cmd) [])
        (IrcSearch.drop_last4 xyz_file +:+ ".out");
  extract_coordinates w (IrcSearch.drop_last4 xyz_file +:+ ".out").

(** Lines 195-238.  [str(proc)], [str(charge)] and [str(multiplicity)] are
    the decimal texts of the integers. *)
Definition generate_gaussian_irc_input (w : World)
    (xyz_file output_prefix method mem : string) (proc : Z)
    (solvent : option string) (charge multiplicity : Z)
    : result (string * string) :=
  lines ← readlines w xyz_file;
  let atom_coords := drop 2 lines in
  let stem :=
    IrcSearch.drop_last4 (ConfirmImagModes.last_piece (str_split xyz_file "/")) in
  let coords := foldr String.append "" atom_coords in
  let '(input_content_f, input_content_r) :=
    if negb (str_contains "external" method) then
      match solvent with
      | Some solvent =>
          ("%Chk=" +:+ stem +:+ ".chk" +:+ nl +:+ "%NProc=" +:+ pretty proc
           +:+ nl +:+ "%Mem=" +:+ mem +:+ nl
           +:+ "#p IRC(calcfc, maxpoint=50, stepsize=15, Forward) " +:+ method
           +:+ " SCRF=(Solvent=" +:+ solvent +:+ ")"
           +:+ nl +:+ nl +:+ "IRC Calculation" +:+ nl +:+ nl +:+ "0 1" +:+ nl
           +:+ coords +:+ nl +:+ nl,
           "%Chk=" +:+ stem +:+ ".chk" +:+ nl +:+ "%NProc=" +:+ pretty proc
           +:+ nl +:+ "%Mem=" +:+ mem +:+ nl
           +:+ "#p IRC(calcfc, maxpoint=50, stepsize=15, Reverse) " +:+ method
           +:+ " SCRF=(Solvent=" +:+ solvent +:+ ")"
           +:+ nl +:+ nl +:+ "IRC Calculation" +:+ nl +:+ nl
           +:+ pretty charge +:+ " " +:+ pretty multiplicity +:+ nl
           +:+ coords +:+ nl +:+ nl)
      | None =>
          ("%Chk=" +:+ stem +:+ ".chk" +:+ nl +:+ "%NProc=" +:+ pretty proc
           +:+ nl +:+ "%Mem=" +:+ mem +:+ nl
           +:+ "#p IRC(calcfc, maxpoint=50, stepsize=15, Forward) " +:+ method
           +:+ nl +:+ nl +:+ "IRC Calculation" +:+ nl +:+ nl
           +:+ pretty charge +:+ " " +:+ pretty multiplicity +:+ nl
           +:+ coords +:+ nl +:+ nl,
           "%Chk=" +:+ stem +:+ ".chk" +:+ nl +:+ "%NProc=" +:+ pretty proc
           +:+ nl +:+ "%Mem=" +:+ mem +:+ nl
           +:+ "#p IRC(calcfc, maxpoint=50, stepsize=15, Reverse) " +:+ method
           +:+ nl +:+ nl +:+ "IRC Calculation" +:+ nl +:+ nl
           +:+ pretty charge +:+ " " +:+ pretty multiplicity +:+ nl
           +:+ coords +:+ nl +:+ nl)
      end
    else
      match solvent with
      | Some solvent =>
          ("%Chk=" +:+ stem +:+ ".chk" +:+ nl
           +:+ "#p IRC(calcfc, maxpoint=50, stepsize=15, Forward) " +:+ method
           +:+ " SCRF=(Solvent=" +:+ solvent +:+ ")" +:+ nl +:+ nl
           +:+ "IRC Calculation" +:+ nl +:+ nl
           +:+ pretty charge +:+ " " +:+ pretty multiplicity +:+ nl
           +:+ coords +:+ nl +:+ nl,
           "%Chk=" +:+ stem +:+ ".chk" +:+ nl
           +:+ "#p IRC(calcfc, maxpoint=50, stepsize=15, Reverse) " +:+ method
           +:+ " SCRF=(Solvent=" +:+ solvent +:+ ")" +:+ nl +:+ nl
           +:+ "IRC Calculation" +:+ nl +:+ nl
           +:+ pretty charge +:+ " " +:+ pretty multiplicity +:+ nl
           +:+ coords +:+ nl +:+ nl)
      | None =>
          ("%Chk=" +:+ stem +:+ ".chk" +:+ nl
           +:+ "#p IRC(calcfc, maxpoint=50, stepsize=15, Forward) " +:+ method
           +:+ nl +:+ nl +:+ "IRC Calculation" +:+ nl +:+ nl
           +:+ pretty charge +:+ " " +:+ pretty multiplicity +:+ nl
           +:+ coords +:+ nl +:+ nl,
           "%Chk=" +:+ stem +:+ ".chk" +:+ nl
           +:+ "#p IRC(calcfc, maxpoint=50, stepsize=15, Reverse) " +:+ method
           +:+ nl +:+ nl +:+ "IRC Calculation" +:+ nl +:+ nl
           +:+ pretty charge +:+ " " +:+ pretty multiplicity +:+ nl
           +:+ coords +:+ nl +:+ nl)
      end in
  let input_filename_f :=
    ConfirmImagModes.path_join (dirname xyz_file)
      (output_prefix +:+ "_forward.com") in
  _ ← write_text w input_filename_f input_content_f;
  let input_filename_r :=
    ConfirmImagModes.path_join (dirname xyz_file)
      (output_prefix +:+ "_reverse.com") in
  _ ← write_text w input_filename_r input_content_r;
  Ok (input_filename_f, input_filename_r).

End IrcFiles.

(** ** Vocabulary for the files written *)
Module Text.

(** The fields of a line, as [line.split()] gives them. *)
Definition fields (line : string) : list (list ascii) :=
  split_blank (chars line) [].

(** A field: not empty, without a blank character. *)
Definition token (t : list ascii) : Prop :=
  t <> [] /\ Forall (fun c => is_space c = false) t.

(** The line of the Gaussian input for an atom line: its first four fields,
    one space between them. *)
Definition atom_text (line : string) : string :=
  ConfirmImagModes.str_join " " (take 4 (fields line)) +:+ Utils.nl.

(** The text of a list of lines. *)
Definition text_of (lines : list string) : string :=
  foldr String.append "" lines.

(** The input of an IRC calculation in the given direction: the file of
    check points, the resources unless the method is an external one, the
    route with the solvent if there is one, the title, the charge and the
    multiplicity, and the coordinates. *)
Definition irc_input (direction stem : string) (external : bool)
    (proc mem method : string) (solvent : option string)
    (charge multiplicity coords : string) : string :=
  ("%Chk=" +:+ stem +:+ ".chk" +:+ Utils.nl)
  +:+ (if external then ""
       else "%NProc=" +:+ proc +:+ Utils.nl +:+ "%Mem=" +:+ mem +:+ Utils.nl)
  +:+ ("#p IRC(calcfc, maxpoint=50, stepsize=15, " +:+ direction +:+ ") "
       +:+ method)
  +:+ match solvent with
      | Some solvent => " SCRF=(Solvent=" +:+ solvent +:+ ")"
      | None => ""
      end
  +:+ (Utils.nl +:+ Utils.nl +:+ "IRC Calculation" +:+ Utils.nl +:+ Utils.nl)
  +:+ (charge +:+ " " +:+ multiplicity +:+ Utils.nl)
  +:+ (coords +:+ Utils.nl +:+ Utils.nl).

(** A row of coordinates of the output of [xtb]: a line of four fields
    that does not announce the final structure. *)
Definition is_row (line : string) : bool :=
  negb (IrcFiles.is_marker line) && bool_decide (length (fields line) = 4).

(** The coordinates of a row: the element and three numbers. *)
Definition parse_row (line : string) : result (string * Q * Q * Q) :=
  match fields line with
  | [element; x; y; z] =>
      x ← py_float x;
      y ← py_float y;
      z ← py_float z;
      Ok (string_of_list_ascii element, x, y, z)
  | _ => Raise ValueError
  end.

End Text.

(** ** Further worked cases *)
Module Cases.

(** *** A reaction whose two graphs are the same *)

(** The product of the worked reaction with the graph of the reactant. *)
Definition unchanged_product : Species :=
  Example.molecule "product" [0; 2; 3]%Q [(0, 1)].

Definition unchanged_world : ConfirmImagModes.World :=
  {| ConfirmImagModes.listdir_cwd := ConfirmImagModes.listdir_cwd (Example.world "0.50");
     ConfirmImagModes.getcwd := ConfirmImagModes.getcwd (Example.world "0.50");
     ConfirmImagModes.readlines := ConfirmImagModes.readlines (Example.world "0.50");
     ConfirmImagModes.ade_Molecule := fun f c =>
       if bool_decide
            (f = "/work/reaction_R1/conformer_product_init_optimised_xtb.xyz")
       then Ok unchanged_product
       else ConfirmImagModes.ade_Molecule (Example.world "0.50") f c;
     ConfirmImagModes.shutil_copy := fun _ _ => Ok ();
     ConfirmImagModes.os_rename := fun _ _ => Ok () |}.

(** Sets iterated against the order of [elements]. *)
Definition backwards (s : gset bond) : list bond := reverse (elements s).

(** *** A host with one processor *)
Definition single_processor : DftValidation.World :=
  {| DftValidation.getcwd := "/home";
     DftValidation.cpu_count := 1;
     DftValidation.os_chdir := fun _ => Ok ();
     DftValidation.os_listdir := DftValidation.os_listdir Example.validation_world;
     DftValidation.shutil_copy := fun _ _ => Ok ();
     DftValidation.new_TSOptimizer := fun id _ _ => Ok (Example.optimizer id);
     DftValidation.modify_ts_guess_list :=
       DftValidation.modify_ts_guess_list Example.validation_world;
     DftValidation.determine_ts :=
       DftValidation.determine_ts Example.validation_world |}.

(** *** A batch of searches: the search of R1 starts with the call counter
    at 0 and finds its guess at the fifth call, the others start past it *)
Definition search_batch : SearchBatch.World nat :=
  {| SearchBatch.getcwd := "/home";
     SearchBatch.cpu_count := 4;
     SearchBatch.os_chdir := fun _ => Ok ();
     SearchBatch.new_TSOptimizer := fun id _ _ _ _ _ _ _ _ =>
       Ok (if bool_decide (id = "R1") then 0 else 5);
     SearchBatch.copy_final_outputs := fun _ _ => Ok () |}.

(** *** A search whose clean-up raises: every guess is accepted, the
    working directory cannot be emptied *)
Definition stuck_cleanup : RunTsSearcherDft.World nat :=
  {| RunTsSearcherDft.rxn_id := fun _ => "R1";
     RunTsSearcherDft.reaction_is_intramolecular := fun n => (Ok true, n);
     RunTsSearcherDft.reactive_complex_factor_values_intra :=
       fun _ => [1.2; 1.3; 1.8]%Q;
     RunTsSearcherDft.reactive_complex_factor_values_inter :=
       fun _ => [2.5; 1.8; 2.8; 1.3]%Q;
     RunTsSearcherDft.set_ts_guess_list := fun _ n => (Ok (), n);
     RunTsSearcherDft.determine_ts := fun n => (Ok true, Datatypes.S n);
     RunTsSearcherDft.remove_files_in_directory := fun n => (Raise OSError, n) |}.

(** *** A search whose reaction cannot be classified: the call of line 49
    raises *)
Definition unclassified : RunTsSearcherDft.World nat :=
  {| RunTsSearcherDft.rxn_id := fun _ => "R1";
     RunTsSearcherDft.reaction_is_intramolecular :=
       fun n => (Raise (RuntimeError "SMILES"), n);
     RunTsSearcherDft.reactive_complex_factor_values_intra :=
       fun _ => [1.2; 1.3; 1.8]%Q;
     RunTsSearcherDft.reactive_complex_factor_values_inter :=
       fun _ => [2.5; 1.8; 2.8; 1.3]%Q;
     RunTsSearcherDft.set_ts_guess_list := fun _ n => (Ok (), n);
     RunTsSearcherDft.determine_ts := fun n => (Ok true, Datatypes.S n);
     RunTsSearcherDft.remove_files_in_directory := fun n => (Ok (), n) |}.

(** *** Two xyz files: a guess of two atoms, and the same with a blank
    line at its end *)
Definition guess_xyz : list string :=
  [ "2" +:+ Utils.nl; "guess" +:+ Utils.nl;
    "H   0.000  0.000   0.000" +:+ Utils.nl;
    "Cl  0.000  0.000   1.275  frozen" +:+ Utils.nl ].

Definition xyz_files : Utils.World :=
  {| Utils.readlines := fun f =>
       if bool_decide (f = "guesses/ts_guess_0.xyz") then Ok guess_xyz
       else if bool_decide (f = "guesses/ts_guess_1.xyz")
       then Ok (guess_xyz ++ [Utils.nl])
       else Raise FileNotFoundError;
     Utils.open_w := fun _ => Ok () |}.

(** *** Two outputs of [xtb]: one with its final structure, one without *)
Definition xtb_out : list string :=
  [ "   *** GEOMETRY OPTIMIZATION CONVERGED AFTER 12 ITERATIONS ***" +:+ Utils.nl;
    "H  9.9 9.9 9.9" +:+ Utils.nl;
    "================" +:+ Utils.nl;
    " final structure:" +:+ Utils.nl;
    "================" +:+ Utils.nl;
    "2" +:+ Utils.nl;
    " xtb: 6.6.1" +:+ Utils.nl;
    "H   0.000  0.000   0.010" +:+ Utils.nl;
    "Cl  0.000  0.000   1.285" +:+ Utils.nl;
    Utils.nl;
    "H  7.7 7.7 7.7" +:+ Utils.nl ].

Definition xtb_files : IrcFiles.World :=
  {| IrcFiles.readlines := fun f =>
       if bool_decide (f = "irc_forward.out") then Ok xtb_out
       else if bool_decide (f = "irc_reverse.out") then Ok (take 3 xtb_out)
       else Raise FileNotFoundError;
     IrcFiles.write_text := fun _ _ => Ok ();
     IrcFiles.write_coordinates_to_xyz := fun _ _ => Ok ();
     IrcFiles.run := fun _ _ => Ok () |}.

End Cases.

(* ===================================================================== *)
(** * Part II: properties                                                 *)
(* ===================================================================== *)

(** ** Comparisons and results *)

Lemma Qltb_lt (x y : Q) : Qltb x y = true <-> (x < y)%Q.
Proof.
  unfold Qltb. rewrite negb_true_iff, <- not_true_iff_false, Qle_bool_iff.
  split; [apply Qnot_le_lt | apply Qlt_not_le].
Qed.

Lemma Qltb_ge (x y : Q) : Qltb x y = false <-> (y <= x)%Q.
Proof.
  unfold Qltb. rewrite negb_false_iff. apply Qle_bool_iff.
Qed.

Lemma bind_Ok {A B} (m : result A) (f : A -> result B) (b : B) :
  m ≫= f = Ok b <-> exists a, m = Ok a /\ f a = Ok b.
Proof.
  destruct m as [a|e]; simpl; split.
  - intros H. exists a. auto.
  - intros (a' & Ha & Hf). congruence.
  - discriminate.
  - intros (a' & Ha & _). discriminate.
Qed.

(** A tactic for goals and hypotheses about a bind that returned. *)
Ltac inv_bind H :=
  let a := fresh "a" in
  let Ha := fresh "Ha" in
  apply bind_Ok in H; destruct H as (a & Ha & H).

Section same_sign.
Import ConfirmImagModes.

Lemma sign_of_pos (x : Q) : (0 < x)%Q -> sign_of x = 1%Z.
Proof. intros H. unfold sign_of. apply Qltb_lt in H. by rewrite H. Qed.

Lemma sign_of_nonpos (x : Q) : (x <= 0)%Q -> sign_of x = (-1)%Z.
Proof. intros H. unfold sign_of. apply Qltb_ge in H. by rewrite H. Qed.

Lemma sign_of_cases (x : Q) :
  ((0 < x)%Q /\ sign_of x = 1%Z) \/ ((x <= 0)%Q /\ sign_of x = (-1)%Z).
Proof.
  destruct (Qlt_le_dec 0 x) as [H|H].
  - left. split; [done | by apply sign_of_pos].
  - right. split; [done | by apply sign_of_nonpos].
Qed.

(** Once the reference sign is [1], the rest passes iff it is positive. *)
Lemma check_same_sign_from_pos (l : list Q) :
  check_same_sign_from 1 l = true <-> Forall (fun x => (0 < x)%Q) l.
Proof.
  induction l as [|x l IH]; simpl.
  - split; [constructor | done].
  - destruct (sign_of_cases x) as [[Hx ->]|[Hx ->]]; simpl.
    + rewrite IH. split.
      * intros H. by constructor.
      * by inversion 1.
    + split; [done |]. inversion 1; subst.
      exfalso. eapply Qlt_not_le; eauto.
Qed.

(** Once the reference sign is [-1], the rest passes iff nothing in it is
    positive: a zero counts with the negative numbers. *)
Lemma check_same_sign_from_neg (l : list Q) :
  check_same_sign_from (-1) l = true <-> Forall (fun x => (x <= 0)%Q) l.
Proof.
  induction l as [|x l IH]; simpl.
  - split; [constructor | done].
  - destruct (sign_of_cases x) as [[Hx ->]|[Hx ->]]; simpl.
    + split; [done |]. inversion 1; subst.
      exfalso. eapply Qlt_not_le; eauto.
    + rewrite IH. split.
      * intros H. by constructor.
      * by inversion 1.
Qed.

Lemma check_same_sign_spec (l : list Q) :
  check_same_sign l = true <->
  Forall (fun x => (0 < x)%Q) l \/ Forall (fun x => (x <= 0)%Q) l.
Proof.
  unfold check_same_sign. destruct l as [|x l]; simpl.
  - split; [left; constructor | done].
  - destruct (sign_of_cases x) as [[Hx ->]|[Hx ->]].
    + rewrite check_same_sign_from_pos. split.
      * intros H. left. by constructor.
      * intros [H|H]; inversion H; subst; [done |].
        exfalso. eapply Qlt_not_le; eauto.
    + rewrite check_same_sign_from_neg. split.
      * intros H. right. by constructor.
      * intros [H|H]; inversion H; subst; [| done].
        exfalso. eapply Qlt_not_le; eauto.
Qed.

(** The empty list passes. *)
Lemma check_same_sign_nil : check_same_sign [] = true.
Proof. reflexivity. Qed.

(** A list with a positive and a negative entry fails. *)
Lemma check_same_sign_mixed (l : list Q) (p n : Q) :
  p ∈ l -> n ∈ l -> (0 < p)%Q -> (n < 0)%Q -> check_same_sign l = false.
Proof.
  intros Hp Hn Hp0 Hn0. apply not_true_iff_false.
  rewrite check_same_sign_spec. rewrite !Forall_forall.
  intros [H|H].
  - specialize (H n Hn). exact (Qlt_irrefl 0 (Qlt_trans _ _ _ H Hn0)).
  - specialize (H p Hp). exact (Qlt_not_le _ _ Hp0 H).
Qed.

(** C3 (the code against the claim): the same-sign rule is claimed to treat
    a zero entry as sign-neutral, so that a list of positive and zero values
    passes.  [check_same_sign] gives a zero the sign [-1] (line 165), and the
    test [sign != 0] of line 169 never fails: the list [[1.0, 0.0]] is
    rejected, and so is [[0.0, 1.0]]; in general a list passes exactly when
    all its entries are positive or none is. *)
Theorem check_same_sign_zero_is_negative :
  check_same_sign [1; 0]%Q = false
  /\ check_same_sign [0; 1]%Q = false
  /\ (forall x : Q, sign_of x <> 0%Z)
  /\ (forall l : list Q,
        check_same_sign l = true <->
        Forall (fun x => (0 < x)%Q) l \/ Forall (fun x => (x <= 0)%Q) l).
Proof.
  split; [reflexivity |]. split; [reflexivity |]. split.
  - intros x. destruct (sign_of_cases x) as [[_ ->]|[_ ->]]; done.
  - apply check_same_sign_spec.
Qed.

End same_sign.

(** ** Bond-length intermediacy *)
Section intermediacy.
Import ConfirmImagModes Spec.

Variables ts_distances reac_distances prod_distances : matrix.
Variable factor : Q.

Lemma bonds_all_activated_true (target : matrix) (bonds : list bond) :
  bonds_all_activated ts_distances target factor bonds = Ok true <->
  Forall (activated ts_distances target factor) bonds.
Proof.
  induction bonds as [|b bonds IH]; simpl.
  - split; [constructor | done].
  - split.
    + intros H. inv_bind H. inv_bind H.
      destruct (Qltb a (a0 * factor)) eqn:Hlt; [done |].
      constructor; [| by apply IH].
      exists a, a0. repeat split; try done.
      apply Qltb_ge in Hlt. by rewrite Qmult_comm.
    + inversion 1 as [|? ? (t & d & Ht & Hd & Hle) Hrest]; subst.
      rewrite Ht, Hd. simpl.
      rewrite Qmult_comm in Hle. apply Qltb_ge in Hle. rewrite Hle.
      by apply IH.
Qed.

Lemma bonds_all_activated_false (target : matrix) (bonds : list bond) :
  Forall (readable ts_distances target) bonds ->
  Exists (violating ts_distances target factor) bonds ->
  bonds_all_activated ts_distances target factor bonds = Ok false.
Proof.
  induction 1 as [|b bonds [[t Ht] [d Hd]] Hrest IH]; intros Hex.
  - inversion Hex.
  - simpl. rewrite Ht, Hd. simpl.
    destruct (Qltb t (d * factor)) eqn:Hlt; [done |].
    apply IH. inversion Hex as [? ? (t' & d' & Ht' & Hd' & Hv)|]; subst; [| done].
    exfalso. rewrite Ht in Ht'. rewrite Hd in Hd'.
    injection Ht' as <-. injection Hd' as <-.
    apply Qltb_ge in Hlt. rewrite Qmult_comm in Hlt.
    exact (Qlt_not_le _ _ Hv Hlt).
Qed.

Lemma bonds_all_activated_total (target : matrix) (bonds : list bond) :
  Forall (readable ts_distances target) bonds ->
  is_Ok (bonds_all_activated ts_distances target factor bonds).
Proof.
  induction 1 as [|b bonds [[t Ht] [d Hd]] Hrest IH]; simpl.
  - by eexists.
  - rewrite Ht, Hd. simpl. destruct (Qltb t (d * factor)); [by eexists | done].
Qed.

Lemma check_if_bond_lengths_intermediate_true (forming breaking : list bond) :
  check_if_bond_lengths_intermediate ts_distances reac_distances prod_distances
    forming breaking factor = Ok true <->
  Forall (activated ts_distances prod_distances factor) forming
  /\ Forall (activated ts_distances reac_distances factor) breaking.
Proof.
  unfold check_if_bond_lengths_intermediate.
  rewrite <- !bonds_all_activated_true.
  destruct (bonds_all_activated ts_distances prod_distances factor forming)
    as [[|]|e]; simpl; split; try done; intros [? ?]; done.
Qed.

(** C5: [check_if_bond_lengths_intermediate] returns [True] iff every
    forming bond's TS distance is at least [factor] times its product
    distance and every breaking bond's TS distance is at least [factor]
    times its reactant distance; when the distances of all the bonds can be
    read, one violating bond of either kind makes it return [False]. *)
Theorem check_if_bond_lengths_intermediate_spec (forming breaking : list bond) :
  (check_if_bond_lengths_intermediate ts_distances reac_distances prod_distances
     forming breaking factor = Ok true <->
   (forall b, b ∈ forming -> activated ts_distances prod_distances factor b)
   /\ (forall b, b ∈ breaking -> activated ts_distances reac_distances factor b))
  /\ ((forall b, b ∈ forming -> readable ts_distances prod_distances b) ->
      (forall b, b ∈ breaking -> readable ts_distances reac_distances b) ->
      (exists b, b ∈ forming /\ violating ts_distances prod_distances factor b)
      \/ (exists b, b ∈ breaking /\ violating ts_distances reac_distances factor b) ->
      check_if_bond_lengths_intermediate ts_distances reac_distances
        prod_distances forming breaking factor = Ok false).
Proof.
  split.
  - rewrite check_if_bond_lengths_intermediate_true, !Forall_forall. done.
  - intros Hf Hb Hv. apply Forall_forall in Hf, Hb.
    unfold check_if_bond_lengths_intermediate.
    destruct (bonds_all_activated_total prod_distances forming Hf) as [ok Hok].
    rewrite Hok. simpl. destruct ok; [| done].
    destruct Hv as [Hv|Hv].
    + apply Exists_exists in Hv.
      rewrite (bonds_all_activated_false prod_distances forming Hf Hv) in Hok.
      done.
    + apply Exists_exists in Hv.
      by apply bonds_all_activated_false.
Qed.

(** The list [determine_unactivated_bonds] builds is empty iff it started
    empty and every bond is activated. *)
Lemma collect_unactivated_nil (target : matrix) (bonds acc : list bond) :
  collect_unactivated ts_distances target factor bonds acc = Ok [] <->
  acc = [] /\ bonds_all_activated ts_distances target factor bonds = Ok true.
Proof.
  revert acc. induction bonds as [|b bonds IH]; intros acc; simpl.
  - split; [intros [= ->]; done | intros [-> _]; done].
  - destruct (mat_get ts_distances b) as [t|e]; simpl; [| split; [done | intros [_ ?]; done]].
    destruct (mat_get target b) as [d|e]; simpl; [| split; [done | intros [_ ?]; done]].
    rewrite IH. destruct (Qltb t (d * factor)).
    + split; [intros [H _] | intros [_ ?]; done].
      by destruct acc.
    + done.
Qed.

Lemma unactivated_bonds_of_nil (forming breaking : list bond) :
  unactivated_bonds_of ts_distances reac_distances prod_distances
    forming breaking factor = Ok [] <->
  check_if_bond_lengths_intermediate ts_distances reac_distances prod_distances
    forming breaking factor = Ok true.
Proof.
  unfold unactivated_bonds_of, check_if_bond_lengths_intermediate.
  rewrite !bind_Ok. split.
  - intros (acc & Hacc & H). apply collect_unactivated_nil in H as [-> H].
    apply collect_unactivated_nil in Hacc as [_ Hacc].
    exists true. done.
  - intros (ok & Hok & H). destruct ok; [| done].
    exists []. split; apply collect_unactivated_nil; done.
Qed.

End intermediacy.

(** An instance of C5 (section 8): a forming bond 2.00 long in the TS and
    1.50 long in the product passes at factor 1.05, since
    2.00 >= 1.05 * 1.50 = 1.575. *)
Lemma check_if_bond_lengths_intermediate_spec_witness :
  ConfirmImagModes.check_if_bond_lengths_intermediate
    [[0; 2.00]; [2.00; 0]]%Q [[0; 3]; [3; 0]]%Q [[0; 1.50]; [1.50; 0]]%Q
    [(0, 1)] [] 1.05 = Ok true.
Proof.
  apply (proj1 (check_if_bond_lengths_intermediate_spec
                  [[0; 2.00]; [2.00; 0]]%Q [[0; 3]; [3; 0]]%Q
                  [[0; 1.50]; [1.50; 0]]%Q 1.05 [(0, 1)] [])).
  split.
  - intros b ->%list_elem_of_singleton. exists 2.00%Q, 1.50%Q.
    repeat split; vm_compute; congruence.
  - intros b Hb. by apply elem_of_nil in Hb.
Defined.

(** ** The extraction and the verdict *)
Section extraction.
Import ConfirmImagModes Spec.
Context {RT : Runtime}.

(** C10: [check_if_bond_lengths_intermediate] returns [True] iff the loops
    of [determine_unactivated_bonds], run on the same distance matrices,
    bonds and factor, return the empty list; and
    [determine_unactivated_bonds] returns the empty list iff the extraction
    succeeds and the intermediacy check on what it extracted returns
    [True]. *)
Theorem intermediate_iff_none_unactivated :
  (forall (ts_distances reac_distances prod_distances : matrix)
          (forming breaking : list bond) (factor : Q),
      check_if_bond_lengths_intermediate ts_distances reac_distances
        prod_distances forming breaking factor = Ok true <->
      unactivated_bonds_of ts_distances reac_distances prod_distances
        forming breaking factor = Ok [])
  /\ (forall (w : World) (ts_file path : string) (factor disp_cut_off : Q)
             (charge : Z),
        determine_unactivated_bonds w ts_file path factor disp_cut_off charge
        = Ok [] <->
        exists info,
          extract_info_ts_file w ts_file path charge disp_cut_off = Ok info
          /\ check_if_bond_lengths_intermediate (ts_distances info)
               (reac_distances info) (prod_distances info)
               (set_iter (active_bonds_forming info))
               (set_iter (active_bonds_breaking info)) factor = Ok true).
Proof.
  split.
  - intros. symmetry. apply unactivated_bonds_of_nil.
  - intros. unfold determine_unactivated_bonds. rewrite bind_Ok.
    split; intros (info & Hinfo & H); exists info; split; try done;
      by apply unactivated_bonds_of_nil.
Qed.

(** What the loop over [all_bonds] leaves in the two dictionaries. *)
Lemma assign_involvement_lookup (bonds : list bond) (active_bonds : gset bond)
    (delta_mode : matrix) (cut_off : Q) (active extra active' extra' : gmap bond Q) :
  assign_involvement bonds active_bonds delta_mode cut_off active extra
  = Ok (active', extra') ->
  forall b,
    (b ∉ bonds -> active' !! b = active !! b /\ extra' !! b = extra !! b)
    /\ (b ∈ bonds ->
        exists d, mat_get delta_mode b = Ok d
        /\ (b ∈ active_bonds ->
              active' !! b = (if Qltb (Qabs d) (2 * cut_off)
                              then active !! b else Some d)
              /\ extra' !! b = extra !! b)
        /\ (b ∉ active_bonds ->
              extra' !! b = (if Qltb (Qabs d) cut_off
                             then extra !! b else Some d)
              /\ active' !! b = active !! b)).
Proof.
  revert active extra.
  induction bonds as [|b0 bonds IH]; intros active extra Hrun b; simpl in Hrun.
  - injection Hrun as <- <-. split; [done |]. by intros ?%elem_of_nil.
  - inv_bind Hrun. rename a into d0, Ha into Hd0.
    assert (Hstep : exists a1 e1,
      assign_involvement bonds active_bonds delta_mode cut_off a1 e1
      = Ok (active', extra')
      /\ (b0 ∈ active_bonds ->
            a1 = (if Qltb (Qabs d0) (2 * cut_off) then active
                  else <[b0 := d0]> active) /\ e1 = extra)
      /\ (b0 ∉ active_bonds ->
            e1 = (if Qltb (Qabs d0) cut_off then extra
                  else <[b0 := d0]> extra) /\ a1 = active)).
    { case_bool_decide as Hin.
      - destruct (Qltb (Qabs d0) (2 * cut_off)) eqn:E;
          eexists _, _; (split; [exact Hrun |]); split; intros ?; try done.
      - destruct (Qltb (Qabs d0) cut_off) eqn:E;
          eexists _, _; (split; [exact Hrun |]); split; intros ?; try done. }
    destruct Hstep as (a1 & e1 & Hrest & Hact & Hext).
    destruct (IH _ _ Hrest b) as [IHout IHin].
    assert (Hhere : b = b0 ->
      (b ∈ active_bonds ->
         a1 !! b = (if Qltb (Qabs d0) (2 * cut_off) then active !! b else Some d0)
         /\ e1 !! b = extra !! b)
      /\ (b ∉ active_bonds ->
         e1 !! b = (if Qltb (Qabs d0) cut_off then extra !! b else Some d0)
         /\ a1 !! b = active !! b)).
    { intros ->. split; intros Hb.
      - destruct (Hact Hb) as [-> ->]. split; [| done].
        destruct (Qltb (Qabs d0) (2 * cut_off)); [done | apply lookup_insert_eq].
      - destruct (Hext Hb) as [-> ->]. split; [| done].
        destruct (Qltb (Qabs d0) cut_off); [done | apply lookup_insert_eq]. }
    assert (Hother : b ≠ b0 -> a1 !! b = active !! b /\ e1 !! b = extra !! b).
    { intros Hne. destruct (decide (b0 ∈ active_bonds)) as [Hb|Hb].
      - destruct (Hact Hb) as [-> ->]. split; [| done].
        destruct (Qltb (Qabs d0) (2 * cut_off)); [done |].
        by rewrite lookup_insert_ne.
      - destruct (Hext Hb) as [-> ->]. split; [done |].
        destruct (Qltb (Qabs d0) cut_off); [done |].
        by rewrite lookup_insert_ne. }
    split.
    + intros Hnot. apply not_elem_of_cons in Hnot as [Hne Hnot].
      destruct (IHout Hnot) as [-> ->]. by apply Hother.
    + intros Hin. destruct (decide (b ∈ bonds)) as [Hb|Hb].
      * destruct (IHin Hb) as (d & Hd & Ha & He). exists d.
        split; [done |]. destruct (decide (b = b0)) as [Heq|Hne].
        -- destruct (Hhere Heq) as [Ha0 He0].
           assert (d = d0) as -> by (subst b; congruence).
           split; intros Hk.
           ++ destruct (Ha Hk) as [-> ->]. destruct (Ha0 Hk) as [-> ->].
              by destruct (Qltb (Qabs d0) (2 * cut_off)).
           ++ destruct (He Hk) as [-> ->]. destruct (He0 Hk) as [-> ->].
              by destruct (Qltb (Qabs d0) cut_off).
        -- destruct (Hother Hne) as [Ha0 He0].
           split; intros Hk.
           ++ destruct (Ha Hk) as [-> ->]. by rewrite Ha0, He0.
           ++ destruct (He Hk) as [-> ->]. by rewrite Ha0, He0.
      * apply elem_of_cons in Hin as [Heq|?]; [| done].
        destruct (IHout Hb) as [-> ->]. exists d0.
        split; [by subst b |]. apply (Hhere Heq).
Qed.

Lemma assign_involvement_classified `{!RuntimeSpec RT}
    (all_bonds active_bonds : gset bond) (delta_mode : matrix) (cut_off : Q)
    (active extra : gmap bond Q) :
  assign_involvement (set_iter all_bonds) active_bonds delta_mode cut_off ∅ ∅
  = Ok (active, extra) ->
  classified all_bonds active_bonds delta_mode cut_off active extra
  /\ (forall b, b ∉ all_bonds -> active !! b = None /\ extra !! b = None).
Proof.
  intros Hrun.
  assert (Hmem : forall b, b ∈ set_iter all_bonds <-> b ∈ all_bonds).
  { intros b. rewrite (set_iter_perm all_bonds). apply elem_of_elements. }
  split.
  - intros b Hb.
    destruct (assign_involvement_lookup _ _ _ _ _ _ _ _ Hrun b) as [_ Hin].
    destruct (Hin (proj2 (Hmem b) Hb)) as (d & Hd & Ha & He).
    exists d. split; [done |]. split; intros Hk.
    + destruct (Ha Hk) as [-> ->]. rewrite !lookup_empty.
      repeat split; try done.
      * intros Hle. apply Qltb_ge in Hle. by rewrite Hle.
      * intros Hlt. apply Qltb_lt in Hlt. by rewrite Hlt.
    + destruct (He Hk) as [-> ->]. rewrite !lookup_empty.
      repeat split; try done.
      * intros Hle. apply Qltb_ge in Hle. by rewrite Hle.
      * intros Hlt. apply Qltb_lt in Hlt. by rewrite Hlt.
  - intros b Hb.
    destruct (assign_involvement_lookup _ _ _ _ _ _ _ _ Hrun b) as [Hout _].
    rewrite <- Hmem in Hb. destruct (Hout Hb) as [-> ->].
    by rewrite !lookup_empty.
Qed.

Lemma extract_info_ts_file_inv (w : World) (ts_file path : string)
    (charge : Z) (cut_off : Q) (info : TsInfo) :
  extract_info_ts_file w ts_file path charge cut_off = Ok info ->
  exists reactant product ts_mol normal_mode frequency delta_mode,
    loaded w ts_file path charge reactant product ts_mol normal_mode frequency
    /\ compute_delta_mode reactant ts_mol normal_mode = Ok delta_mode
    /\ assign_involvement (set_iter (edge_set product ∪ edge_set reactant))
         ((edge_set product ∖ edge_set reactant)
          ∪ (edge_set reactant ∖ edge_set product)) delta_mode cut_off ∅ ∅
       = Ok (active_bonds_involved_in_mode info,
             extra_bonds_involved_in_mode info)
    /\ freq info = frequency
    /\ active_bonds_forming info = edge_set product ∖ edge_set reactant
    /\ active_bonds_breaking info = edge_set reactant ∖ edge_set product
    /\ reac_distances info
       = distance_matrix (coordinates reactant) (coordinates reactant)
    /\ prod_distances info
       = distance_matrix (coordinates product) (coordinates product)
    /\ ts_distances info
       = distance_matrix (coordinates ts_mol) (coordinates ts_mol).
Proof.
  unfold extract_info_ts_file. intros H.
  inv_bind H. destruct a as [reactant_file product_file].
  inv_bind H. destruct a as [[reactant product] ts_mol].
  inv_bind H. destruct a as [normal_mode frequency].
  inv_bind H. rename a into delta_mode.
  inv_bind H. destruct a as [active extra].
  injection H as <-. simpl.
  exists reactant, product, ts_mol, normal_mode, frequency, delta_mode.
  split; [by exists reactant_file, product_file |].
  repeat split; done.
Qed.

(** C6: when [extract_info_ts_file] succeeds, every bond of the union of
    the reactant and product edge sets has a delta-mode entry [d], and: a
    bond of forming ∪ breaking is in [active_bonds_involved_in_mode] iff
    [|d| >= 2 * cut_off] and is never in [extra_bonds_involved_in_mode]; any
    other bond is in [extra_bonds_involved_in_mode] iff [|d| >= cut_off] and
    is never in [active_bonds_involved_in_mode]; the value recorded is
    [d]. *)
Theorem extract_info_ts_file_classifies `{!RuntimeSpec RT} (w : World)
    (ts_file path : string) (charge : Z) (cut_off : Q) (info : TsInfo) :
  extract_info_ts_file w ts_file path charge cut_off = Ok info ->
  exists reactant product ts_mol normal_mode frequency delta_mode,
    loaded w ts_file path charge reactant product ts_mol normal_mode frequency
    /\ compute_delta_mode reactant ts_mol normal_mode = Ok delta_mode
    /\ active_bonds_forming info = edge_set product ∖ edge_set reactant
    /\ active_bonds_breaking info = edge_set reactant ∖ edge_set product
    /\ classified (edge_set reactant ∪ edge_set product)
         (active_bonds_forming info ∪ active_bonds_breaking info)
         delta_mode cut_off
         (active_bonds_involved_in_mode info)
         (extra_bonds_involved_in_mode info).
Proof.
  intros H. apply extract_info_ts_file_inv in H
    as (reactant & product & ts_mol & normal_mode & frequency & delta_mode
        & Hload & Hdelta & Hassign & _ & Hf & Hb & _).
  exists reactant, product, ts_mol, normal_mode, frequency, delta_mode.
  repeat (split; [done |]).
  rewrite Hf, Hb, (union_comm_L (edge_set reactant)).
  by apply assign_involvement_classified.
Qed.

(** The comprehension over the keys never misses a key. *)
Lemma values_at_displacements `{!RuntimeSpec RT} (active : gmap bond Q)
    (kind : gset bond) :
  values_at active (set_iter (dom active ∩ kind)) = Ok (displacements active kind).
Proof.
  unfold displacements.
  assert (Hin : Forall (fun b => is_Some (active !! b))
                  (set_iter (dom active ∩ kind))).
  { apply Forall_forall. intros b Hb.
    apply elem_of_dom.
    assert (Hb2 : b ∈ elements (dom active ∩ kind))
      by (by rewrite <- (set_iter_perm _)).
    apply elem_of_elements, elem_of_intersection in Hb2. tauto. }
  induction Hin as [|b l [v Hv] _ IH]; [done |].
  unfold values_at in *. simpl. rewrite Hv. simpl. by rewrite IH.
Qed.

Lemma mat_get_distance_matrix (x y : rows3) (b : bond) :
  fst b < length x -> snd b < length y ->
  is_Ok (mat_get (distance_matrix x y) b).
Proof.
  intros Hi Hj. unfold mat_get, distance_matrix.
  apply lookup_lt_is_Some_2 in Hi as [u Hu].
  apply lookup_lt_is_Some_2 in Hj as [v Hv].
  rewrite list_lookup_fmap, Hu. simpl.
  rewrite list_lookup_fmap, Hv. simpl.
  by eexists.
Qed.

(** Under the invariant of the data model the intermediacy check of a
    successful extraction returns. *)
Lemma intermediacy_decided_consistent `{!RuntimeSpec RT} (w : World)
    (ts_file path : string) (charge : Z) (cut_off factor : Q) (info : TsInfo)
    (reactant product ts_mol : Species) (normal_mode : rows3) (frequency : Q) :
  extract_info_ts_file w ts_file path charge cut_off = Ok info ->
  loaded w ts_file path charge reactant product ts_mol normal_mode frequency ->
  consistent_atoms reactant product ts_mol ->
  intermediacy_decided info factor.
Proof.
  intros Hinfo (rf & pf & Hxyz & Hmols & Hmode) (Hr & Hp & Hedges).
  apply extract_info_ts_file_inv in Hinfo
    as (reactant' & product' & ts_mol' & normal_mode' & frequency' & delta_mode
        & (rf' & pf' & Hxyz' & Hmols' & Hmode') & _ & _ & _
        & Hf & Hb & Hrd & Hpd & Htd).
  rewrite Hxyz in Hxyz'. injection Hxyz' as <- <-.
  rewrite Hmols in Hmols'. injection Hmols' as <- <- <-.
  unfold intermediacy_decided. rewrite Hf, Hb, Hrd, Hpd, Htd.
  assert (Hmem : forall (s : gset bond) b, b ∈ set_iter s -> b ∈ s).
  { intros s b Hin. apply elem_of_elements. by rewrite <- (set_iter_perm s). }
  assert (Hform : Forall (readable
            (distance_matrix (coordinates ts_mol) (coordinates ts_mol))
            (distance_matrix (coordinates product) (coordinates product)))
            (set_iter (edge_set product ∖ edge_set reactant))).
  { apply Forall_forall. intros b Hin%Hmem.
    apply elem_of_difference in Hin as [Hin _].
    destruct (Hedges b) as [Hi Hj]; [apply elem_of_union; by right |].
    split; apply mat_get_distance_matrix; lia. }
  assert (Hbreak : Forall (readable
            (distance_matrix (coordinates ts_mol) (coordinates ts_mol))
            (distance_matrix (coordinates reactant) (coordinates reactant)))
            (set_iter (edge_set reactant ∖ edge_set product))).
  { apply Forall_forall. intros b Hin%Hmem.
    apply elem_of_difference in Hin as [Hin _].
    destruct (Hedges b) as [Hi Hj]; [apply elem_of_union; by left |].
    split; apply mat_get_distance_matrix; lia. }
  unfold check_if_bond_lengths_intermediate.
  destruct (bonds_all_activated_total _ factor _ _ Hform) as [ok ->]. simpl.
  destruct ok; [| by eexists].
  apply (bonds_all_activated_total _ factor _ _ Hbreak).
Qed.


End extraction.

(** ** The worked reaction *)
Section worked_reaction.
Import ConfirmImagModes Spec Example.

#[local] Instance runtime_spec : RuntimeSpec runtime.
Proof. constructor. reflexivity. Qed.

#[local] Existing Instance runtime.

(** An instance of C10: a TS bond shorter than 1.05 times its length in
    the product is reported as unactivated, and the intermediacy check
    fails. *)
Lemma intermediate_iff_none_unactivated_witness :
  ConfirmImagModes.unactivated_bonds_of
    [[0; 1.50]; [1.50; 0]]%Q [[0; 3]; [3; 0]]%Q [[0; 1.50]; [1.50; 0]]%Q
    [(0, 1)] [] 1.05 = Ok [(0, 1)]
  /\ ConfirmImagModes.check_if_bond_lengths_intermediate
       [[0; 1.50]; [1.50; 0]]%Q [[0; 3]; [3; 0]]%Q [[0; 1.50]; [1.50; 0]]%Q
       [(0, 1)] [] 1.05 <> Ok true.
Proof.
  split; [reflexivity |].
  intros H.
  apply (proj1 intermediate_iff_none_unactivated) in H.
  discriminate H.
Defined.

(** An instance of C6: the classification of the worked reaction. *)
Lemma extract_info_ts_file_classifies_witness :
  exists info,
    extract_info_ts_file (world "0.50") "ts_guess_0.xyz" "/work/reaction_R1" 0 0.5
    = Ok info
    /\ exists reactant product ts_mol normal_mode frequency delta_mode,
        loaded (world "0.50") "ts_guess_0.xyz" "/work/reaction_R1" 0
          reactant product ts_mol normal_mode frequency
        /\ compute_delta_mode reactant ts_mol normal_mode = Ok delta_mode
        /\ active_bonds_forming info = edge_set product ∖ edge_set reactant
        /\ active_bonds_breaking info = edge_set reactant ∖ edge_set product
        /\ classified (edge_set reactant ∪ edge_set product)
             (active_bonds_forming info ∪ active_bonds_breaking info)
             delta_mode 0.5
             (active_bonds_involved_in_mode info)
             (extra_bonds_involved_in_mode info).
Proof.
  eexists. split; [vm_compute; reflexivity |].
  apply (extract_info_ts_file_classifies (world "0.50") "ts_guess_0.xyz"
           "/work/reaction_R1" 0 0.5).
  vm_compute. reflexivity.
Defined.


(** The worked reaction is accepted, and with the frequency cut-off raised
    above the frequency it is rejected. *)
Example validate_ts_guess_worked :
  validate_ts_guess (world "0.50") "ts_guess_0.xyz" "/work/reaction_R1"
    1.05 0.5 50 0 false = Ok true
  /\ validate_ts_guess (world "0.50") "ts_guess_0.xyz" "/work/reaction_R1"
       1.05 0.5 500 0 false = Ok false.
Proof. split; vm_compute; reflexivity. Qed.

(** C4 (the code against the claim): the delta-mode matrix is claimed to
    be the difference of the distance matrices of the candidate TS
    displaced by [+1] and by [-1] along the mode.  [extract_info_ts_file]
    displaces the TS forward but the reactant backward (line 230), against
    its own comment (line 237).  On the worked reaction with the mode
    (0.40, 0, 0) on atom 1, the entry of the bond (0,1) is 13/10 where the
    TS displaced both ways gives 4/5, below the threshold 2 * 0.5: the bond
    is recorded as active and the guess accepted. *)
Theorem compute_delta_mode_displaces_reactant :
  (forall (RT : Runtime) (reactant ts_mol : Species) (normal_mode : rows3),
      compute_delta_mode reactant ts_mol normal_mode =
      (f ← displaced_species_along_mode ts_mol normal_mode 1 99.9;
       b ← displaced_species_along_mode reactant normal_mode (-1) 99.9;
       mat_sub (distance_matrix (coordinates f) (coordinates f))
               (distance_matrix (coordinates b) (coordinates b))))
  /\ reduced <$> compute_delta_mode reactant ts_mol mode_040
     = Ok [[0; 13 # 10; 0]; [13 # 10; 0; -13 # 10]; [0; -13 # 10; 0]]%Q
  /\ reduced <$> delta_mode_of_ts ts_mol mode_040
     = Ok [[0; 4 # 5; 0]; [4 # 5; 0; -4 # 5]; [0; -4 # 5; 0]]%Q
  /\ read_first_normal_mode (world "0.40") "/work/reaction_R1/g98.out" false
     = Ok (mode_040, (-500.0000)%Q)
  /\ validate_ts_guess (world "0.40") "ts_guess_0.xyz" "/work/reaction_R1"
       1.05 0.5 50 0 false = Ok true.
Proof.
  split; [reflexivity |].
  repeat split; vm_compute; reflexivity.
Qed.

End worked_reaction.

(** ** The first normal mode *)
Section normal_mode.
Import ConfirmImagModes Spec.










End normal_mode.

(** ** The tolerance sweep *)
Section tolerance_sweep.
Import IrcSearch Spec.
Variable w : IrcSearch.World.

Lemma matches_as_given_iff (mols : Molecules) :
  matches_as_given mols = true \/ matches_swapped mols = true
  <-> orientation_matches mols.
Proof.
  unfold matches_as_given, matches_swapped, orientation_matches.
  rewrite !andb_true_iff, !bool_decide_eq_true. done.
Qed.

Lemma sweep_step (rel_tolerance : Q) (rest : list Q) (mols : Molecules) :
  sweep w (rel_tolerance :: rest) mols =
  if decide (orientation_matches (update_molecular_graphs w rel_tolerance mols))
  then (true, update_molecular_graphs w rel_tolerance mols)
  else sweep w rest (update_molecular_graphs w rel_tolerance mols).
Proof.
  simpl. set (mols' := update_molecular_graphs w rel_tolerance mols).
  destruct (decide (orientation_matches mols')) as [Hm|Hm].
  - apply matches_as_given_iff in Hm.
    destruct (matches_as_given mols'); [done |].
    destruct Hm as [? | ->]; done.
  - destruct (matches_as_given mols') eqn:E1.
    { exfalso. apply Hm, matches_as_given_iff. by left. }
    destruct (matches_swapped mols') eqn:E2; [| done].
    exfalso. apply Hm, matches_as_given_iff. by right.
Qed.

(** The sweep stops at the first tolerance at which an orientation
    matches. *)
Lemma sweep_first_match (tols : list Q) (mols : Molecules) (n : nat) :
  n < length tols ->
  (forall k, k < n -> ~ orientation_matches (graphs_after w (take (S k) tols) mols)) ->
  orientation_matches (graphs_after w (take (S n) tols) mols) ->
  sweep w tols mols = (true, graphs_after w (take (S n) tols) mols).
Proof.
  revert mols n. induction tols as [|tol tols IH]; intros mols n Hn Hno Hyes.
  - simpl in Hn. lia.
  - rewrite sweep_step. destruct n as [|n].
    + simpl in Hyes. rewrite ?take_0 in Hyes. simpl in Hyes.
      rewrite decide_True by done. by rewrite ?take_0.
    + rewrite decide_False.
      * apply (IH (update_molecular_graphs w tol mols) n).
        -- simpl in Hn. lia.
        -- intros k Hk. apply (Hno (S k)). lia.
        -- exact Hyes.
      * specialize (Hno 0 ltac:(lia)). simpl in Hno.
        by rewrite ?take_0 in Hno.
Qed.

(** The sweep fails when no tolerance of the sequence matches. *)
Lemma sweep_no_match (tols : list Q) (mols : Molecules) :
  (forall k, k < length tols ->
     ~ orientation_matches (graphs_after w (take (S k) tols) mols)) ->
  sweep w tols mols = (false, graphs_after w tols mols).
Proof.
  revert mols. induction tols as [|tol tols IH]; intros mols Hno; [done |].
  rewrite sweep_step, decide_False.
  - apply (IH (update_molecular_graphs w tol mols)).
    intros k Hk. apply (Hno (S k)). simpl. lia.
  - specialize (Hno 0 ltac:(simpl; lia)). simpl in Hno.
    by rewrite ?take_0 in Hno.
Qed.

(** A sweep that answers [True] stopped at a tolerance that matches, and
    none before it did. *)
Lemma sweep_true_inv (tols : list Q) (mols mols' : Molecules) :
  sweep w tols mols = (true, mols') ->
  exists n, n < length tols
    /\ mols' = graphs_after w (take (S n) tols) mols
    /\ orientation_matches mols'
    /\ forall k, k < n ->
         ~ orientation_matches (graphs_after w (take (S k) tols) mols).
Proof.
  revert mols. induction tols as [|tol tols IH]; intros mols Hrun; [done |].
  rewrite sweep_step in Hrun.
  destruct (decide (orientation_matches (update_molecular_graphs w tol mols)))
    as [Hm|Hm].
  - injection Hrun as <-. exists 0. simpl. rewrite ?take_0.
    repeat split; [lia | done |]. intros k Hk. lia.
  - destruct (IH _ Hrun) as (n & Hn & -> & Hyes & Hno).
    exists (S n). simpl. repeat split; [lia | done |].
    intros [|k] Hk; simpl.
    + by rewrite ?take_0.
    + apply Hno. lia.
Qed.

(** A sweep that answers [False] found no tolerance that matches. *)
Lemma sweep_false_inv (tols : list Q) (mols mols' : Molecules) :
  sweep w tols mols = (false, mols') ->
  forall k, k < length tols ->
    ~ orientation_matches (graphs_after w (take (S k) tols) mols).
Proof.
  revert mols. induction tols as [|tol tols IH]; intros mols Hrun k Hk.
  - simpl in Hk. lia.
  - rewrite sweep_step in Hrun.
    destruct (decide (orientation_matches (update_molecular_graphs w tol mols)))
      as [Hm|Hm]; [done |].
    destruct k as [|k]; simpl.
    + by rewrite ?take_0.
    + apply (IH _ Hrun). simpl in Hk. lia.
Qed.

(** C7: [compare_molecules_irc] sweeps the tolerances 0.30, 0.25, 0.20,
    0.15, 0.10 in this, descending, order, regraphs the four molecules at
    each, and answers [True] at the first tolerance at which the forward and
    reverse edge sets equal the reactant and product edge sets in either
    orientation, [False] when no tolerance of the sequence matches. *)
Theorem compare_molecules_irc_spec :
  tolerances = [3 # 10; 25 # 100; 20 # 100; 15 # 100; 10 # 100]%Q
  /\ StronglySorted (fun a b => (b < a)%Q) tolerances
  /\ (forall forward_xyz reverse_xyz reactant_xyz product_xyz charge
             multiplicity solvent b,
        compare_molecules_irc w forward_xyz reverse_xyz reactant_xyz
          product_xyz charge multiplicity solvent = Ok b <->
        exists mols,
          optimize_final_point_irc w forward_xyz charge multiplicity solvent
            = Ok ()
          /\ optimize_final_point_irc w reverse_xyz charge multiplicity solvent
            = Ok ()
          /\ ade_Molecule w (drop_last4 forward_xyz +:+ "_opt.xyz") "forward" charge
            = Ok (forward_mol mols)
          /\ ade_Molecule w (drop_last4 reverse_xyz +:+ "_opt.xyz") "reverse" charge
            = Ok (reverse_mol mols)
          /\ ade_Molecule w reactant_xyz "reactant" charge = Ok (reactant_mol mols)
          /\ ade_Molecule w product_xyz "product" charge = Ok (product_mol mols)
          /\ b = fst (sweep w tolerances mols))
  /\ (forall mols n,
        n < length tolerances ->
        (forall k, k < n ->
           ~ orientation_matches (graphs_after w (take (S k) tolerances) mols)) ->
        orientation_matches (graphs_after w (take (S n) tolerances) mols) ->
        sweep w tolerances mols
        = (true, graphs_after w (take (S n) tolerances) mols))
  /\ (forall mols,
        (forall k, k < length tolerances ->
           ~ orientation_matches (graphs_after w (take (S k) tolerances) mols)) ->
        sweep w tolerances mols = (false, graphs_after w tolerances mols))
  /\ (forall mols,
        fst (sweep w tolerances mols) = true <->
        exists n, n < length tolerances
          /\ orientation_matches (graphs_after w (take (S n) tolerances) mols)).
Proof.
  split; [reflexivity |]. split.
  { repeat constructor; reflexivity. }
  split.
  { intros *. unfold compare_molecules_irc. split.
    - intros H.
      inv_bind H. inv_bind H. inv_bind H. inv_bind H. inv_bind H. inv_bind H.
      injection H as <-. destruct a, a0.
      by eexists {| forward_mol := _; reverse_mol := _;
                    reactant_mol := _; product_mol := _ |}.
    - intros ([fm rm am pm] & -> & -> & Hf & Hr & Ha & Hp & ->).
      simpl in *. rewrite Hf. simpl. rewrite Hr. simpl.
      rewrite Ha. simpl. by rewrite Hp. }
  split; [intros; by apply sweep_first_match |].
  split; [intros; by apply sweep_no_match |].
  intros mols. split.
  - destruct (sweep w tolerances mols) as [b mols'] eqn:Hrun. simpl.
    intros ->. apply sweep_true_inv in Hrun as (n & Hn & -> & Hyes & _).
    by exists n.
  - intros (n & Hn & Hyes).
    destruct (sweep w tolerances mols) as [[|] mols'] eqn:Hrun; [done |].
    exfalso. exact (sweep_false_inv _ _ _ Hrun n Hn Hyes).
Qed.

End tolerance_sweep.

(** Two instances of C7 on end points of the worked reaction: the first
    matches the reactant at the second tolerance and not at the first, the
    second keeps both bonds at every tolerance. *)
Lemma compare_molecules_irc_spec_witness :
  IrcSearch.compare_molecules_irc (Example.irc_world [0; 1.22; 2.5]%Q)
    "irc_forward.xyz" "irc_reverse.xyz" "reactants_geometry.xyz"
    "products_geometry.xyz" 0 1 None = Ok true
  /\ IrcSearch.compare_molecules_irc (Example.irc_world [0; 1.05; 2.1]%Q)
       "irc_forward.xyz" "irc_reverse.xyz" "reactants_geometry.xyz"
       "products_geometry.xyz" 0 1 None = Ok false.
Proof.
  split.
  - set (w := Example.irc_world [0; 1.22; 2.5]%Q).
    set (mols := {| IrcSearch.forward_mol := Example.molecule "forward" [0; 1.22; 2.5]%Q [];
                    IrcSearch.reverse_mol := Example.molecule "reverse" [0; 2; 3]%Q [];
                    IrcSearch.reactant_mol := Example.molecule "reactant" [0; 1; 3]%Q [];
                    IrcSearch.product_mol := Example.molecule "product" [0; 2; 3]%Q [] |}).
    change (Ok (fst (IrcSearch.sweep w IrcSearch.tolerances mols)) = Ok true).
    rewrite (proj1 (proj2 (proj2 (proj2 (compare_molecules_irc_spec w)))) mols 1).
    + reflexivity.
    + simpl. lia.
    + intros k Hk. assert (k = 0) as -> by lia.
      vm_compute. intros [[H _]|[H _]]; discriminate H.
    + left. split; vm_compute; reflexivity.
  - set (w := Example.irc_world [0; 1.05; 2.1]%Q).
    set (mols := {| IrcSearch.forward_mol := Example.molecule "forward" [0; 1.05; 2.1]%Q [];
                    IrcSearch.reverse_mol := Example.molecule "reverse" [0; 2; 3]%Q [];
                    IrcSearch.reactant_mol := Example.molecule "reactant" [0; 1; 3]%Q [];
                    IrcSearch.product_mol := Example.molecule "product" [0; 2; 3]%Q [] |}).
    change (Ok (fst (IrcSearch.sweep w IrcSearch.tolerances mols)) = Ok false).
    rewrite (proj1 (proj2 (proj2 (proj2 (proj2 (compare_molecules_irc_spec w))))) mols).
    + reflexivity.
    + intros k Hk. simpl in Hk.
      do 5 (destruct k as [|k];
            [vm_compute; intros [[H _]|[H _]]; discriminate H |]).
      lia.
Defined.

(** ** The search of one reaction *)
Section search.
Import RunTsSearcherDft Spec.
Context {S : Type} (w : World S).

Lemma attempts_schedule (n : nat) (f : Q) (rest : list Q) :
  (forall s, search w rest s = run_schedule w (schedule rest) s) ->
  forall s,
    bind (attempts w n f)
      (fun returned =>
         match returned with
         | Some v => ret v
         | None => search w rest
         end) s
    = run_schedule w (replicate n f ++ schedule rest) s.
Proof.
  intros Hrest. induction n as [|n IH]; intros s.
  - apply Hrest.
  - specialize (IH). simpl. unfold bind, catch, ret in *. simpl.
    destruct (attempt w f s) as [[[|]|e] s'] eqn:Hattempt; simpl.
    + done.
    + apply IH.
    + apply IH.
Qed.

Lemma search_schedule (factors : list Q) (s : S) :
  search w factors s = run_schedule w (schedule factors) s.
Proof.
  revert s. induction factors as [|f rest IH]; intros s; [done |].
  change (search w (f :: rest) s) with
    (bind (attempts w 3 f)
       (fun returned => match returned with
                        | Some v => ret v
                        | None => search w rest
                        end) s).
  by rewrite (attempts_schedule 3 f rest IH).
Qed.

Lemma run_schedule_returns (sched : list Q) (s : S) :
  exists v s', run_schedule w sched s = (Ok v, s')
               /\ (v = PyNone \/ v = PyStr (rxn_id w s')).
Proof.
  revert s. induction sched as [|f rest IH]; intros s; simpl.
  - exists PyNone, s. split; [done | by left].
  - destruct (attempt w f s) as [[[|]|e] s']; [| apply IH | apply IH].
    eexists _, _. split; [done | by right].
Qed.

Lemma attempts_made_prefix (sched : list Q) (s : S) :
  map fst (attempts_made w sched s) `prefix_of` sched.
Proof.
  revert s. induction sched as [|f rest IH]; intros s; simpl; [done |].
  destruct (attempt w f s) as [[[|]|e] s']; simpl.
  - apply prefix_cons, prefix_nil.
  - apply prefix_cons, IH.
  - apply prefix_cons, IH.
Qed.

Lemma run_schedule_failed (sched : list Q) (s : S) :
  fst (run_schedule w sched s) = Ok PyNone
  <-> Forall failed_attempt (attempts_made w sched s).
Proof.
  revert s. induction sched as [|f rest IH]; intros s; simpl; [done |].
  destruct (attempt w f s) as [[[|]|e] s']; simpl.
  - split; [done |]. inversion 1 as [|? ? Hhead]; subst. by destruct Hhead.
  - rewrite IH. split.
    + intros H. by constructor.
    + by inversion 1.
  - rewrite IH. split.
    + intros H. by constructor.
    + by inversion 1.
Qed.

Lemma attempts_made_all (sched : list Q) (s : S) :
  Forall failed_attempt (attempts_made w sched s) ->
  map fst (attempts_made w sched s) = sched.
Proof.
  revert s. induction sched as [|f rest IH]; intros s; simpl; [done |].
  destruct (attempt w f s) as [[[|]|e] s']; simpl.
  - inversion 1 as [|? ? Hhead]; subst. by destruct Hhead.
  - inversion 1; subst. f_equal. by apply IH.
  - inversion 1; subst. f_equal. by apply IH.
Qed.

Lemma run_schedule_found (sched : list Q) (s : S) (id : string) :
  fst (run_schedule w sched s) = Ok (PyStr id) ->
  exists before f,
    attempts_made w sched s = before ++ [(f, Ok true)]
    /\ Forall failed_attempt before.
Proof.
  revert s. induction sched as [|f rest IH]; intros s; simpl; [done |].
  destruct (attempt w f s) as [[[|]|e] s']; simpl.
  - intros _. exists [], f. split; [done | constructor].
  - intros H. destruct (IH _ H) as (before & f' & -> & Hb).
    exists ((f, Ok false) :: before), f'. split; [done |].
    by constructor.
  - intros H. destruct (IH _ H) as (before & f' & -> & Hb).
    exists ((f, Raise e) :: before), f'. split; [done |].
    by constructor.
Qed.

Lemma run_schedule_all_raise (sched : list Q) (s : S) :
  (forall f s0, exists e, fst (attempt w f s0) = Raise e) ->
  fst (run_schedule w sched s) = Ok PyNone.
Proof.
  intros Hraise. revert s.
  induction sched as [|f rest IH]; intros s; simpl; [done |].
  destruct (Hraise f s) as [e He].
  destruct (attempt w f s) as [[[|]|e'] s']; simpl in *;
    first [done | apply IH].
Qed.

(** C8: once the reaction is classified (line 49, outside the [try]), the
    worker runs the attempts of the schedule (each factor value in its
    order, three times) one after the other, an exception raised by an
    attempt being caught and the next attempt taken; it returns the reaction
    identifier at the first attempt that ends with an accepted guess and
    [None] when the schedule is exhausted; no exception leaves it, and a
    reaction whose every attempt raises gets [None]. *)
Theorem optimize_individual_ts_spec (s0 s : S) (intramolecular : bool) :
  reaction_is_intramolecular w s0 = (Ok intramolecular, s) ->
  let sched := schedule (selected_factors w intramolecular s) in
  optimize_individual_ts w s0 = run_schedule w sched s
  /\ (exists v s', optimize_individual_ts w s0 = (Ok v, s')
                   /\ (v = PyNone \/ v = PyStr (rxn_id w s')))
  /\ map fst (attempts_made w sched s) `prefix_of` sched
  /\ (fst (optimize_individual_ts w s0) = Ok PyNone
      <-> Forall failed_attempt (attempts_made w sched s))
  /\ (Forall failed_attempt (attempts_made w sched s) ->
      map fst (attempts_made w sched s) = sched)
  /\ (forall id, fst (optimize_individual_ts w s0) = Ok (PyStr id) ->
      exists before f,
        attempts_made w sched s = before ++ [(f, Ok true)]
        /\ Forall failed_attempt before)
  /\ ((forall f s1, exists e, fst (attempt w f s1) = Raise e) ->
      fst (optimize_individual_ts w s0) = Ok PyNone).
Proof.
  intros Hkind sched.
  assert (Hrun : optimize_individual_ts w s0 = run_schedule w sched s).
  { unfold optimize_individual_ts, bind. rewrite Hkind. apply search_schedule. }
  rewrite Hrun. split; [done |].
  split; [apply run_schedule_returns |].
  split; [apply attempts_made_prefix |].
  split; [apply run_schedule_failed |].
  split; [apply attempts_made_all |].
  split; [apply run_schedule_found |].
  intros Hraise. by apply run_schedule_all_raise.
Qed.

End search.

(** An instance of C8: the guess of the fifth attempt, the second with the
    factor 1.3, is the first accepted; two of the attempts before it
    raised. *)
Lemma optimize_individual_ts_spec_witness :
  RunTsSearcherDft.optimize_individual_ts Example.search_world 0
  = (Ok (PyStr "R1"), 5)
  /\ Spec.attempts_made Example.search_world
       (Spec.schedule [1.2; 1.3; 1.8]%Q) 0
     = [ (1.2, Ok false); (1.2, Raise (RuntimeError "xtb")); (1.2, Ok false);
         (1.3, Raise (RuntimeError "xtb")); (1.3, Ok true) ]%Q.
Proof.
  split.
  - rewrite (proj1 (optimize_individual_ts_spec Example.search_world 0 0 true
                      eq_refl)).
    vm_compute. reflexivity.
  - vm_compute. reflexivity.
Defined.

(** C8 (the code against the claim): the claim has no exception ever leave
    the call for a reaction.  The classification of the reaction (line 49)
    is called before the loop, outside the [try]: when it raises, no
    attempt is made ([determine_ts] is not called, the counter of its calls
    stays at 0) and the exception leaves the worker. *)
Lemma optimize_individual_ts_classification_escapes :
  fst (RunTsSearcherDft.reaction_is_intramolecular Cases.unclassified 0)
  = Raise (RuntimeError "SMILES")
  /\ RunTsSearcherDft.optimize_individual_ts Cases.unclassified 0
     = (Raise (RuntimeError "SMILES"), 0).
Proof. split; reflexivity. Qed.

(** ** The batch of validations *)
Section validation.
Import DftValidation.

(** A worker never hands back [None]. *)
Lemma validate_individual_ts_not_None (w : World)
    (validation_args : TSOptimizer * string) (v : pyval) :
  validate_individual_ts w validation_args = Ok v -> v ≠ PyNone.
Proof.
  destruct validation_args as [ts_optimizer input_dir_path].
  unfold validate_individual_ts. intros H. inv_bind H.
  destruct a as [ts_optimizer' [|]]; injection H as <-; done.
Qed.

Lemma mapM_Ok_length {A B} (f : A -> result B) (l : list A) (k : list B) :
  mapM f l = Ok k -> length k = length l.
Proof.
  revert k. induction l as [|x l IH]; intros k; simpl.
  - by intros [= <-].
  - intros H. inv_bind H. inv_bind H. injection H as <-.
    simpl. f_equal. by apply IH.
Qed.

Lemma mapM_Ok_Forall {A B} (f : A -> result B) (P : B -> Prop)
    (l : list A) (k : list B) :
  (forall x y, f x = Ok y -> P y) -> mapM f l = Ok k -> Forall P k.
Proof.
  intros Hf. revert k. induction l as [|x l IH]; intros k; simpl.
  - intros [= <-]. constructor.
  - intros H. inv_bind H. inv_bind H. injection H as <-.
    constructor; [by eapply Hf | by apply IH].
Qed.

Lemma filter_all {A} (P : A -> Prop) `{forall x, Decision (P x)} (l : list A) :
  Forall P l -> filter P l = l.
Proof.
  induction 1 as [|x l Hx _ IH]; [done |].
  rewrite filter_cons_True by done. by rewrite IH.
Qed.

(** What a worker hands back: the identifier, or [False]. *)
Lemma validate_individual_ts_values (w : World)
    (validation_args : TSOptimizer * string) (v : pyval) :
  validate_individual_ts w validation_args = Ok v ->
  v = PyBool false \/ exists id, v = PyStr id.
Proof.
  destruct validation_args as [ts_optimizer input_dir_path].
  unfold validate_individual_ts. intros H. inv_bind H.
  destruct a as [ts_optimizer' [|]]; injection H as <-; eauto.
Qed.

(** C2 (the code against the claim): the list [validate_ts_guesses]
    returns is claimed to hold the identifiers of the validated reactions
    and nothing for a reaction that failed.  A worker returns [False] for
    such a reaction (line 72) and the orchestrator drops only [None]
    (line 109): of a batch of four reactions, one without its directory of
    guesses, one whose validation raises, one whose guess is rejected and
    one validated, the list is [[False, False, False, 'R4']]; in general
    the list has one element for every reaction of the batch. *)
Theorem validate_ts_guesses_keeps_False :
  validate_ts_guesses Example.validation_world "final_test" "validation_dir"
    Example.batch None
  = Ok [PyBool false; PyBool false; PyBool false; PyStr "R4"]
  /\ (forall (w : World) (input_dir output_dir : string)
             (reaction_list : list (string * string)) (solvent : option string),
        match validate_ts_guesses w input_dir output_dir reaction_list solvent with
        | Ok validated_reactions =>
            length validated_reactions = length reaction_list
        | Raise _ => True
        end).
Proof.
  split; [vm_compute; reflexivity |].
  intros. destruct (validate_ts_guesses _ _ _ _ _) as [l|e] eqn:H; [| done].
  unfold validate_ts_guesses in H.
  inv_bind H. inv_bind H. inv_bind H. inv_bind H. inv_bind H. inv_bind H.
  injection H as <-.
  rewrite filter_all.
  - apply mapM_Ok_length in Ha0, Ha3. congruence.
  - eapply mapM_Ok_Forall; [| exact Ha3].
    intros x y. apply validate_individual_ts_not_None.
Qed.

End validation.

(* ===================================================================== *)
(** * Part III: further properties of the code                            *)
(* ===================================================================== *)

(** ** The bond sets and dictionaries of the extraction *)
Section bond_sets.
Import ConfirmImagModes Spec.
Context {RT : Runtime}.

Lemma mat_get_Raise (m : matrix) (b : bond) (e : exn) :
  mat_get m b = Raise e -> e = IndexError.
Proof.
  unfold mat_get. destruct (m !! b.1) as [row|]; [| congruence].
  destruct (row !! b.2); congruence.
Qed.

(** The keys the loop adds to [active] are active bonds of the list, those
    it adds to [extra] are the other bonds of the list. *)
Lemma assign_involvement_keys (bonds : list bond) (active_bonds : gset bond)
    (delta_mode : matrix) (cut_off : Q) (active extra : gmap bond Q) :
  assign_involvement bonds active_bonds delta_mode cut_off ∅ ∅
  = Ok (active, extra) ->
  forall b,
    (is_Some (active !! b) -> b ∈ bonds /\ b ∈ active_bonds)
    /\ (is_Some (extra !! b) -> b ∈ bonds /\ b ∉ active_bonds).
Proof.
  intros Hrun b.
  destruct (assign_involvement_lookup _ _ _ _ _ _ _ _ Hrun b) as [Hout Hin].
  destruct (decide (b ∈ bonds)) as [Hb|Hb].
  - destruct (Hin Hb) as (d & _ & Ha & He).
    destruct (decide (b ∈ active_bonds)) as [Hk|Hk].
    + destruct (Ha Hk) as [_ Hx]. split; [done |].
      rewrite Hx, lookup_empty. by intros [? ?].
    + destruct (He Hk) as [_ Hx]. split; [| done].
      rewrite Hx, lookup_empty. by intros [? ?].
  - destruct (Hout Hb) as [-> ->]. rewrite !lookup_empty.
    split; by intros [? ?].
Qed.

(** X1: the bond sets and the two dictionaries of a successful extraction
    split the bonds: no bond is both forming and breaking; the keys of
    [active_bonds_involved_in_mode] are forming or breaking bonds; the keys
    of [extra_bonds_involved_in_mode] are bonds of both the reactant and the
    product graph; and no bond is a key of both dictionaries. *)
Theorem extract_info_ts_file_partition `{!RuntimeSpec RT} (w : World)
    (ts_file path : string) (charge : Z) (cut_off : Q) (info : TsInfo) :
  extract_info_ts_file w ts_file path charge cut_off = Ok info ->
  active_bonds_forming info ∩ active_bonds_breaking info = ∅
  /\ dom (active_bonds_involved_in_mode info)
     ⊆ active_bonds_forming info ∪ active_bonds_breaking info
  /\ dom (active_bonds_involved_in_mode info)
     ∩ dom (extra_bonds_involved_in_mode info) = ∅
  /\ exists reactant product ts_mol normal_mode frequency,
       loaded w ts_file path charge reactant product ts_mol normal_mode frequency
       /\ dom (extra_bonds_involved_in_mode info)
          ⊆ edge_set reactant ∩ edge_set product.
Proof.
  intros H. apply extract_info_ts_file_inv in H
    as (reactant & product & ts_mol & normal_mode & frequency & delta_mode
        & Hload & _ & Hassign & _ & Hf & Hb & _).
  pose proof (assign_involvement_keys _ _ _ _ _ _ Hassign) as Hkeys.
  assert (Hmem : forall b,
            b ∈ set_iter (edge_set product ∪ edge_set reactant)
            -> b ∈ edge_set product ∪ edge_set reactant).
  { intros b Hin. apply elem_of_elements. by rewrite <- (set_iter_perm _). }
  rewrite Hf, Hb. split; [| split; [| split]].
  - apply set_eq. intros b.
    rewrite elem_of_intersection, !elem_of_difference, elem_of_empty. tauto.
  - intros b Hdom. apply elem_of_dom in Hdom.
    by destruct (proj1 (Hkeys b) Hdom).
  - apply set_eq. intros b.
    rewrite elem_of_intersection, !elem_of_dom, elem_of_empty.
    split; [| done]. intros [Ha He].
    destruct (proj1 (Hkeys b) Ha) as [_ Hin].
    destruct (proj2 (Hkeys b) He) as [_ Hout]. done.
  - exists reactant, product, ts_mol, normal_mode, frequency.
    split; [done |]. intros b Hdom. apply elem_of_dom in Hdom.
    destruct (proj2 (Hkeys b) Hdom) as [Hin Hout].
    apply Hmem in Hin.
    rewrite elem_of_union, !elem_of_difference in Hout.
    rewrite elem_of_union in Hin. rewrite elem_of_intersection.
    destruct (decide (b ∈ edge_set reactant));
      destruct (decide (b ∈ edge_set product)); tauto.
Qed.

(** The two steps of the loop for two bonds can be taken in either order. *)
Lemma assign_involvement_swap (x y : bond) (bonds : list bond)
    (active_bonds : gset bond) (delta_mode : matrix) (cut_off : Q)
    (active extra : gmap bond Q) :
  assign_involvement (x :: y :: bonds) active_bonds delta_mode cut_off active extra
  = assign_involvement (y :: x :: bonds) active_bonds delta_mode cut_off active extra.
Proof.
  destruct (decide (x = y)) as [->|Hne]; [done |].
  simpl.
  destruct (mat_get delta_mode x) as [dx|ex] eqn:Hx;
    destruct (mat_get delta_mode y) as [dy|ey] eqn:Hy; simpl.
  - repeat case_bool_decide;
      destruct (Qltb (Qabs dx) (2 * cut_off));
      destruct (Qltb (Qabs dx) cut_off);
      destruct (Qltb (Qabs dy) (2 * cut_off));
      destruct (Qltb (Qabs dy) cut_off);
      try done; by rewrite insert_insert_ne.
  - repeat case_bool_decide;
      destruct (Qltb (Qabs dx) (2 * cut_off));
      destruct (Qltb (Qabs dx) cut_off); simpl; by rewrite ?Hy.
  - repeat case_match; done.
  - apply mat_get_Raise in Hx, Hy. by subst.
Qed.

(** The loop gives the same dictionaries in whatever order it visits the
    bonds. *)
Lemma assign_involvement_perm (l1 l2 : list bond) (active_bonds : gset bond)
    (delta_mode : matrix) (cut_off : Q) (active extra : gmap bond Q) :
  l1 ≡ₚ l2 ->
  assign_involvement l1 active_bonds delta_mode cut_off active extra
  = assign_involvement l2 active_bonds delta_mode cut_off active extra.
Proof.
  intros Hperm. revert active extra.
  induction Hperm as [|x l1 l2 _ IH|x y l|l1 l2 l3 _ IH1 _ IH2];
    intros active extra.
  - done.
  - simpl. destruct (mat_get delta_mode x); simpl; [| done].
    repeat case_match; apply IH.
  - symmetry. apply assign_involvement_swap.
  - by rewrite IH1.
Qed.

End bond_sets.

(** ** The order in which a set is iterated *)
Section iteration_order.
Import ConfirmImagModes Spec.

Lemma check_same_sign_Permutation (l1 l2 : list Q) :
  l1 ≡ₚ l2 -> check_same_sign l1 = check_same_sign l2.
Proof.
  intros Hperm.
  destruct (check_same_sign l1) eqn:H1; destruct (check_same_sign l2) eqn:H2;
    try done.
  - apply check_same_sign_spec in H1. rewrite Hperm in H1.
    apply check_same_sign_spec in H1. congruence.
  - apply check_same_sign_spec in H2. rewrite <- Hperm in H2.
    apply check_same_sign_spec in H2. congruence.
Qed.

Lemma check_same_sign_app (l1 l2 : list Q) :
  check_same_sign (l1 ++ l2) = true ->
  check_same_sign l1 = true /\ check_same_sign l2 = true.
Proof.
  rewrite !check_same_sign_spec, !Forall_app. tauto.
Qed.

(** X4: the verdict of [check_same_sign] does not depend on the order of
    the list, and a list that passes keeps passing when entries are taken
    away from either end. *)
Theorem check_same_sign_order :
  (forall l1 l2 : list Q, l1 ≡ₚ l2 -> check_same_sign l1 = check_same_sign l2)
  /\ (forall l1 l2 : list Q,
        check_same_sign (l1 ++ l2) = true ->
        check_same_sign l1 = true /\ check_same_sign l2 = true).
Proof.
  split; [apply check_same_sign_Permutation | apply check_same_sign_app].
Qed.

(** The extraction under two orders of iteration, the norm being the
    same. *)
Lemma extract_order_irrelevant (norm : vec3 -> Q)
    (iter1 iter2 : gset bond -> list bond) (w : World) (ts_file path : string)
    (charge : Z) (cut_off : Q) :
  (forall s, iter1 s ≡ₚ elements s) ->
  (forall s, iter2 s ≡ₚ elements s) ->
  extract_info_ts_file (RT := {| set_iter := iter1; vec_norm := norm |})
    w ts_file path charge cut_off
  = extract_info_ts_file (RT := {| set_iter := iter2; vec_norm := norm |})
      w ts_file path charge cut_off.
Proof.
  intros H1 H2. unfold extract_info_ts_file.
  destruct (get_xyzs w path) as [[reactant_file product_file]|e]; [| done].
  simpl.
  destruct (get_ade_molecules w reactant_file product_file ts_file charge)
    as [[[reactant product] ts_mol]|e]; [| done].
  simpl.
  destruct (read_first_normal_mode w (path_join path "g98.out") false)
    as [[normal_mode frequency]|e]; [| done].
  simpl.
  change (compute_delta_mode (RT := {| set_iter := iter1; vec_norm := norm |})
            reactant ts_mol normal_mode)
    with (compute_delta_mode (RT := {| set_iter := iter2; vec_norm := norm |})
            reactant ts_mol normal_mode).
  destruct (compute_delta_mode reactant ts_mol normal_mode) as [delta_mode|e];
    [| done].
  simpl.
  rewrite (assign_involvement_perm
             (iter1 (edge_set product ∪ edge_set reactant))
             (iter2 (edge_set product ∪ edge_set reactant)));
    [done |].
  by rewrite H1, H2.
Qed.

(** X2: [extract_info_ts_file] returns the same tuple, or raises the same
    exception, in whatever order the set of all bonds is iterated. *)
Theorem extract_info_ts_file_order (norm : vec3 -> Q)
    (iter1 iter2 : gset bond -> list bond) (w : World) (ts_file path : string)
    (charge : Z) (cut_off : Q) :
  (forall s, iter1 s ≡ₚ elements s) ->
  (forall s, iter2 s ≡ₚ elements s) ->
  extract_info_ts_file (RT := {| set_iter := iter1; vec_norm := norm |})
    w ts_file path charge cut_off
  = extract_info_ts_file (RT := {| set_iter := iter2; vec_norm := norm |})
      w ts_file path charge cut_off.
Proof. apply extract_order_irrelevant. Qed.

(** What [validate_ts_guess] computes once the extraction has succeeded. *)
Lemma validate_ts_guess_unfold {RT : Runtime} `{!RuntimeSpec RT} (w : World)
    (ts_file path : string) (factor disp_cut_off freq_cut_off : Q)
    (charge : Z) (final : bool) (info : TsInfo) :
  extract_info_ts_file w ts_file path charge disp_cut_off = Ok info ->
  validate_ts_guess w ts_file path factor disp_cut_off freq_cut_off charge final
  = (bond_lengths_intermediate ←
       check_if_bond_lengths_intermediate (ts_distances info)
         (reac_distances info) (prod_distances info)
         (set_iter (active_bonds_forming info))
         (set_iter (active_bonds_breaking info)) factor;
     if bool_decide (size (extra_bonds_involved_in_mode info) = 0)
        && negb (bool_decide (size (active_bonds_involved_in_mode info) = 0))
        && check_same_sign
             (displacements (active_bonds_involved_in_mode info)
                (active_bonds_forming info))
        && check_same_sign
             (displacements (active_bonds_involved_in_mode info)
                (active_bonds_breaking info))
        && bond_lengths_intermediate
        && Qltb (freq info) (- freq_cut_off)
     then _ ← (if final then move_final_guess_xyz w ts_file else Ok ()); Ok true
     else Ok false).
Proof.
  intros Hinfo. unfold validate_ts_guess. rewrite Hinfo. simpl.
  by rewrite !values_at_displacements.
Qed.

(** The guess is accepted iff the six conditions hold and, for a final
    guess, the copy does not raise. *)
Lemma validate_ts_guess_true {RT : Runtime} `{!RuntimeSpec RT} (w : World)
    (ts_file path : string) (factor disp_cut_off freq_cut_off : Q)
    (charge : Z) (final : bool) (info : TsInfo) :
  extract_info_ts_file w ts_file path charge disp_cut_off = Ok info ->
  validate_ts_guess w ts_file path factor disp_cut_off freq_cut_off charge final
  = Ok true
  <-> accepted info factor freq_cut_off
      /\ (final = true -> move_final_guess_xyz w ts_file = Ok ()).
Proof.
  intros Hinfo. rewrite (validate_ts_guess_unfold _ _ _ _ _ _ _ _ _ Hinfo).
  unfold accepted. split.
  - intros H. inv_bind H. rename a into bli.
    match type of H with (if ?c then _ else _) = _ => destruct c eqn:Hc end;
      [| done].
    apply andb_true_iff in Hc as [Hc Hq]. apply Qltb_lt in Hq.
    apply andb_true_iff in Hc as [Hc ->].
    apply andb_true_iff in Hc as [Hc Hb].
    apply andb_true_iff in Hc as [Hc Hf].
    apply andb_true_iff in Hc as [He Hact].
    apply bool_decide_eq_true_1 in He.
    apply negb_true_iff in Hact. apply bool_decide_eq_false_1 in Hact.
    rewrite map_size_empty_iff in He, Hact.
    split; [repeat split; done |].
    intros ->. by destruct (move_final_guess_xyz w ts_file) as [[]|].
  - intros [(He & Hact & Hf & Hb & Hi & Hq) Hmove].
    rewrite Hi. simpl. rewrite Hf, Hb. apply Qltb_lt in Hq. rewrite Hq.
    rewrite (bool_decide_eq_true_2 _ (proj2 (map_size_empty_iff _) He)).
    rewrite bool_decide_eq_false_2 by (by rewrite map_size_empty_iff).
    simpl. destruct final; [by rewrite Hmove |]; done.
Qed.

(** X3: whether [validate_ts_guess] accepts a guess does not depend on the
    order in which the sets of bonds are iterated. *)
Theorem validate_ts_guess_order (norm : vec3 -> Q)
    (iter1 iter2 : gset bond -> list bond) (w : World) (ts_file path : string)
    (factor disp_cut_off freq_cut_off : Q) (charge : Z) (final : bool) :
  (forall s, iter1 s ≡ₚ elements s) ->
  (forall s, iter2 s ≡ₚ elements s) ->
  validate_ts_guess (RT := {| set_iter := iter1; vec_norm := norm |})
    w ts_file path factor disp_cut_off freq_cut_off charge final = Ok true
  <-> validate_ts_guess (RT := {| set_iter := iter2; vec_norm := norm |})
        w ts_file path factor disp_cut_off freq_cut_off charge final = Ok true.
Proof.
  intros H1 H2.
  set (RT1 := {| set_iter := iter1; vec_norm := norm |}).
  set (RT2 := {| set_iter := iter2; vec_norm := norm |}).
  assert (S1 : RuntimeSpec RT1) by (by constructor).
  assert (S2 : RuntimeSpec RT2) by (by constructor).
  pose proof (extract_order_irrelevant norm iter1 iter2 w ts_file path charge
                disp_cut_off H1 H2) as Hsame.
  fold RT1 RT2 in Hsame.
  destruct (extract_info_ts_file (RT := RT1) w ts_file path charge disp_cut_off)
    as [info|e] eqn:Hinfo1.
  - symmetry in Hsame.
    rewrite (validate_ts_guess_true (RT := RT1) _ _ _ _ _ _ _ _ _ Hinfo1).
    rewrite (validate_ts_guess_true (RT := RT2) _ _ _ _ _ _ _ _ _ Hsame).
    assert (Hacc : accepted (RT := RT1) info factor freq_cut_off
                   <-> accepted (RT := RT2) info factor freq_cut_off).
    { unfold accepted, displacements. simpl.
      rewrite !check_if_bond_lengths_intermediate_true.
      assert (Hp : forall s, iter1 s ≡ₚ iter2 s) by (intros; by rewrite H1, H2).
      rewrite (check_same_sign_Permutation
                 (omap _ (iter1 (dom (active_bonds_involved_in_mode info)
                                 ∩ active_bonds_forming info)))
                 (omap _ (iter2 (dom (active_bonds_involved_in_mode info)
                                 ∩ active_bonds_forming info))))
        by (by rewrite (Hp _)).
      rewrite (check_same_sign_Permutation
                 (omap _ (iter1 (dom (active_bonds_involved_in_mode info)
                                 ∩ active_bonds_breaking info)))
                 (omap _ (iter2 (dom (active_bonds_involved_in_mode info)
                                 ∩ active_bonds_breaking info))))
        by (by rewrite (Hp _)).
      by rewrite (Hp (active_bonds_forming info)),
                 (Hp (active_bonds_breaking info)). }
    by rewrite Hacc.
  - unfold validate_ts_guess. rewrite Hinfo1, <- Hsame. done.
Qed.

End iteration_order.

(** ** The intermediacy margin and reactions without active bonds *)
Section margins.
Import ConfirmImagModes Spec.

Lemma activated_factor (ts_distances target : matrix) (factor factor' : Q)
    (b : bond) :
  (factor <= factor')%Q ->
  (forall d, mat_get target b = Ok d -> (0 <= d)%Q) ->
  activated ts_distances target factor' b ->
  activated ts_distances target factor b.
Proof.
  intros Hle Hpos (t & d & Ht & Hd & Hbound). exists t, d.
  repeat split; try done.
  eapply Qle_trans; [| exact Hbound].
  apply Qmult_le_compat_r; [done | by apply Hpos].
Qed.

(** X5: at fixed geometries with non-negative target distances, lowering
    [factor] never turns a passing intermediacy check into a failing one:
    a check that returns [True] at a factor returns [True] at every smaller
    one. *)
Theorem check_if_bond_lengths_intermediate_factor
    (ts_distances reac_distances prod_distances : matrix)
    (forming breaking : list bond) (factor factor' : Q) :
  (factor <= factor')%Q ->
  (forall b d, b ∈ forming -> mat_get prod_distances b = Ok d -> (0 <= d)%Q) ->
  (forall b d, b ∈ breaking -> mat_get reac_distances b = Ok d -> (0 <= d)%Q) ->
  check_if_bond_lengths_intermediate ts_distances reac_distances prod_distances
    forming breaking factor' = Ok true ->
  check_if_bond_lengths_intermediate ts_distances reac_distances prod_distances
    forming breaking factor = Ok true.
Proof.
  intros Hle Hf Hb. rewrite !check_if_bond_lengths_intermediate_true.
  rewrite !Forall_forall. intros [H1 H2]. split; intros b Hin.
  - eapply activated_factor; [done | by eauto | by apply H1].
  - eapply activated_factor; [done | by eauto | by apply H2].
Qed.

(** X6: a reaction whose reactant and product have the same bond graph has
    no forming and no breaking bond, and [validate_ts_guess] returns [False]
    for every candidate TS whose extraction succeeds. *)
Theorem validate_ts_guess_same_graphs {RT : Runtime} `{!RuntimeSpec RT}
    (w : World) (ts_file path : string)
    (factor disp_cut_off freq_cut_off : Q) (charge : Z) (final : bool)
    (info : TsInfo) (reactant product ts_mol : Species)
    (normal_mode : rows3) (frequency : Q) :
  extract_info_ts_file w ts_file path charge disp_cut_off = Ok info ->
  loaded w ts_file path charge reactant product ts_mol normal_mode frequency ->
  edge_set reactant = edge_set product ->
  validate_ts_guess w ts_file path factor disp_cut_off freq_cut_off charge final
  = Ok false.
Proof.
  intros Hinfo (rf & pf & Hxyz & Hmols & Hmode) Hsame.
  rewrite (validate_ts_guess_unfold _ _ _ _ _ _ _ _ _ Hinfo).
  apply extract_info_ts_file_inv in Hinfo
    as (reactant' & product' & ts_mol' & normal_mode' & frequency' & delta_mode
        & (rf' & pf' & Hxyz' & Hmols' & Hmode') & _ & Hassign & _
        & Hf & Hb & _).
  rewrite Hxyz in Hxyz'. injection Hxyz' as <- <-.
  rewrite Hmols in Hmols'. injection Hmols' as <- <- <-.
  rewrite Hsame in Hf, Hb, Hassign.
  rewrite difference_diag_L in Hf, Hb, Hassign.
  assert (Hnil : set_iter (∅ : gset bond) = []).
  { apply Permutation_nil_r. by rewrite (set_iter_perm ∅), elements_empty. }
  rewrite Hf, Hb, Hnil. simpl.
  assert (Hactive : active_bonds_involved_in_mode info = ∅).
  { apply map_empty. intros b.
    destruct (active_bonds_involved_in_mode info !! b) eqn:Hlook; [| done].
    destruct (proj1 (assign_involvement_keys _ _ _ _ _ _ Hassign b))
      as [_ Hin]; [by eexists |].
    rewrite elem_of_union, elem_of_empty in Hin. tauto. }
  rewrite Hactive, map_size_empty.
  rewrite (bool_decide_eq_true_2 (0 = 0)) by done.
  by rewrite andb_false_r.
Qed.

End margins.

(** ** The displacement along the mode *)
Section displacement.
Import ConfirmImagModes.
Context {RT : Runtime}.

Lemma zip_result_Ok {A B C} (g : A -> B -> C) (xs : list A) (ys : list B) :
  zip_result (fun x y => Ok (g x y)) xs ys = Ok (zip_with g xs ys).
Proof.
  revert ys. induction xs as [|x xs IH]; intros [|y ys]; simpl; try done.
  by rewrite IH.
Qed.

Lemma rows_op_same_length (f : Q -> Q -> Q) (a b : rows3) :
  length a = length b ->
  rows_op f a b = Ok (zip_with (vec_map2 f) a b).
Proof.
  intros Hlen. unfold rows_op, broadcast.
  rewrite bool_decide_eq_true_2 by done. apply zip_result_Ok.
Qed.

Lemma mode_op_same_length (f : Q -> Q -> Q) (a mode : rows3) :
  length a = length mode -> mode <> [] ->
  mode_op f a mode = Ok (zip_with (vec_map2 f) a mode).
Proof.
  intros Hlen Hne. unfold mode_op. destruct mode; [done |].
  by apply rows_op_same_length.
Qed.

Lemma np_max_elem (l : list Q) (m : Q) : np_max l = Ok m -> m ∈ l.
Proof.
  destruct l as [|x l]; [done |]. simpl. intros [= <-].
  assert (H : forall acc, fold_left (fun a b => if Qltb a b then b else a) l acc
                          ∈ acc :: l).
  { induction l as [|y l IH]; intros acc; simpl; [apply list_elem_of_here |].
    specialize (IH (if Qltb acc y then y else acc)).
    apply elem_of_cons in IH as [IH|IH].
    - rewrite IH. destruct (Qltb acc y).
      + apply list_elem_of_further, list_elem_of_here.
      + apply list_elem_of_here.
    - by do 2 apply list_elem_of_further. }
  apply H.
Qed.

Lemma bind_Ok_l {A B} (a : A) (f : A -> result B) : Ok a ≫= f = f a.
Proof. reflexivity. Qed.

Lemma shrink_displacement_S (fuel : nat) (coords normal_mode : rows3)
    (disp_factor max_atom_disp : Q) (disp_coords : rows3) :
  shrink_displacement (S fuel) coords normal_mode disp_factor max_atom_disp
    disp_coords
  = (diff ← rows_op Qminus coords disp_coords;
     largest ← np_max (map vec_norm diff);
     if Qltb largest max_atom_disp then Ok disp_coords
     else
       disp_coords ←
         mode_isub disp_coords (map (vec_scale (disp_factor / 20)) normal_mode);
       shrink_displacement fuel coords normal_mode disp_factor max_atom_disp
         disp_coords).
Proof. reflexivity. Qed.

Lemma shrink_displacement_shape (fuel : nat) (coords normal_mode : rows3)
    (disp_factor max_atom_disp : Q) (disp_coords : rows3) :
  length normal_mode = length coords -> coords <> [] ->
  length disp_coords = length coords ->
  exists r,
    shrink_displacement fuel coords normal_mode disp_factor max_atom_disp
      disp_coords = Ok r
    /\ length r = length coords.
Proof.
  intros Hmode Hne. revert disp_coords.
  induction fuel as [|fuel IH]; intros disp_coords Hlen; simpl; [by eexists |].
  rewrite rows_op_same_length by done. simpl.
  destruct (np_max _) as [largest|e] eqn:Hmax; simpl.
  - destruct (Qltb largest max_atom_disp); [by eexists |].
    unfold mode_isub. rewrite mode_op_same_length.
    + simpl. rewrite length_zip_with, length_map.
      rewrite bool_decide_eq_true_2 by lia.
      apply IH. rewrite length_zip_with, length_map. lia.
    + rewrite length_map. lia.
    + destruct normal_mode; [| done]. by destruct coords.
  - exfalso. destruct coords as [|c coords]; [done |].
    destruct disp_coords as [|d disp_coords]; [done |]. done.
Qed.

(** X7: [displaced_species_along_mode] raises [ValueError] for a mode
    without rows; for a mode with one row per atom of a species that has
    atoms it returns a species with as many rows of coordinates and the
    same atoms, charge and multiplicity, named after the species; and when
    no atom is displaced by [max_atom_disp] or more, the coordinates are
    those of the species plus [disp_factor] times the mode, unshrunk. *)
Theorem displaced_species_along_mode_shape (species : Species)
    (normal_mode : rows3) (disp_factor max_atom_disp : Q) :
  (normal_mode = [] ->
   displaced_species_along_mode species normal_mode disp_factor max_atom_disp
   = Raise ValueError)
  /\ (length normal_mode = length (coordinates species) ->
      coordinates species <> [] ->
      exists displaced,
        displaced_species_along_mode species normal_mode disp_factor
          max_atom_disp = Ok displaced
        /\ length (coordinates displaced) = length (coordinates species)
        /\ atoms displaced = atoms species
        /\ charge displaced = charge species
        /\ mult displaced = mult species
        /\ name displaced = name species +:+ "_disp"
        /\ (Forall (fun row => (vec_norm row < max_atom_disp)%Q)
              (zip_with (vec_map2 Qminus) (coordinates species)
                 (zip_with (vec_map2 Qplus) (coordinates species)
                    (map (vec_scale disp_factor) normal_mode))) ->
            coordinates displaced
            = zip_with (vec_map2 Qplus) (coordinates species)
                (map (vec_scale disp_factor) normal_mode))).
Proof.
  split.
  - intros ->. reflexivity.
  - intros Hlen Hne. unfold displaced_species_along_mode.
    assert (Hmode : normal_mode <> []).
    { destruct normal_mode; [| done]. by destruct (coordinates species). }
    rewrite mode_op_same_length;
      [| by rewrite length_map | by destruct normal_mode].
    rewrite bind_Ok_l.
    set (full := zip_with (vec_map2 Qplus) (coordinates species)
                   (map (vec_scale disp_factor) normal_mode)).
    assert (Hfull : length full = length (coordinates species)).
    { unfold full. rewrite length_zip_with, length_map. lia. }
    destruct (shrink_displacement_shape 20 (coordinates species) normal_mode
                disp_factor max_atom_disp full Hlen Hne Hfull)
      as (r & Hr & Hrlen).
    rewrite Hr, bind_Ok_l. eexists. split; [done |]. simpl.
    repeat split; try done.
    intros Hsmall. rewrite shrink_displacement_S in Hr.
    rewrite rows_op_same_length, bind_Ok_l in Hr by done.
    destruct (np_max _) as [largest|e] eqn:Hmax; simpl in Hr; [| done].
    apply np_max_elem in Hmax.
    apply list_elem_of_fmap in Hmax as (row & -> & Hrow).
    rewrite Forall_forall in Hsmall. specialize (Hsmall row Hrow).
    apply Qltb_lt in Hsmall. rewrite Hsmall in Hr. by injection Hr as <-.
Qed.

End displacement.

(** ** Reading the file of normal modes *)
Section reading.
Import ConfirmImagModes More.

Lemma truncate_from_drop_until (lines : list string) (ts_found : option nat)
    (idx : nat) :
  truncate_from lines ts_found idx
  = non_empty
      (drop_until (str_contains "Harmonic frequencies (cm**-1)")
         (match ts_found with
          | Some _ => lines
          | None => drop_until (str_contains "-- Stationary point found.") lines
          end)).
Proof.
  revert ts_found idx. induction lines as [|line lines IH];
    intros ts_found idx; simpl.
  - by destruct ts_found.
  - destruct ts_found as [k|]; simpl;
      destruct (str_contains "-- Stationary point found." line); simpl;
      destruct (str_contains "Harmonic frequencies (cm**-1)" line); simpl;
      try done; by rewrite IH.
Qed.

(** X8: [truncate_line_list_log_file] returns the lines from the first line
    holding [Harmonic frequencies (cm**-1)] that comes at or after the first
    line holding [-- Stationary point found.], and [None] when there is no
    such line. *)
Theorem truncate_line_list_log_file_first (lines : list string) :
  truncate_line_list_log_file lines
  = non_empty
      (drop_until (str_contains "Harmonic frequencies (cm**-1)")
         (drop_until (str_contains "-- Stationary point found.") lines)).
Proof. apply truncate_from_drop_until. Qed.

(** *** The rows the pattern matches always convert *)
















(** X10: [get_xyzs] looks for the two geometry files among the entries of
    the current directory, not of [path]: it returns their names joined to
    [path] iff both are listed, and raises [IndexError] otherwise. *)
Theorem get_xyzs_spec (w : World) (path : string) :
  ("conformer_reactant_init_optimised_xtb.xyz" ∈ listdir_cwd w
   /\ "conformer_product_init_optimised_xtb.xyz" ∈ listdir_cwd w ->
   get_xyzs w path
   = Ok (path_join path "conformer_reactant_init_optimised_xtb.xyz",
         path_join path "conformer_product_init_optimised_xtb.xyz"))
  /\ (~ ("conformer_reactant_init_optimised_xtb.xyz" ∈ listdir_cwd w
         /\ "conformer_product_init_optimised_xtb.xyz" ∈ listdir_cwd w) ->
      get_xyzs w path = Raise IndexError).
Proof.
  assert (Hget : forall (nm : string) (l : list string),
            list_get (filter (fun f => f = nm) l) 0
            = if decide (nm ∈ l) then Ok nm else Raise IndexError).
  { intros nm l. unfold list_get.
    destruct (decide (nm ∈ l)) as [Hin|Hout].
    - assert (Hf : nm ∈ filter (fun f => f = nm) l)
        by (by apply list_elem_of_filter).
      destruct (filter (fun f => f = nm) l) as [|f fs] eqn:Hfil;
        [by apply elem_of_nil in Hf |].
      simpl. f_equal.
      assert (Hhead : f ∈ filter (fun f => f = nm) l)
        by (rewrite Hfil; apply list_elem_of_here).
      by apply list_elem_of_filter in Hhead as [-> _].
    - destruct (filter (fun f => f = nm) l) as [|f fs] eqn:Hfil; [done |].
      exfalso. apply Hout.
      assert (Hhead : f ∈ filter (fun f => f = nm) l)
        by (rewrite Hfil; apply list_elem_of_here).
      by apply list_elem_of_filter in Hhead as [-> ?]. }
  unfold get_xyzs. rewrite !Hget. split.
  - intros [Hr Hp]. by rewrite !decide_True.
  - intros Hno.
    destruct (decide ("conformer_reactant_init_optimised_xtb.xyz" ∈ listdir_cwd w));
      [| done].
    simpl. rewrite decide_False; [done |]. tauto.
Qed.

End reading.

(** ** The worker of the validation *)
Section validation_worker.
Import DftValidation More.
Variable w : DftValidation.World.

Lemma scan_guess_dir_last (ts_optimizer : TSOptimizer) (guess_dir_path : string)
    (files : list string) (ts_guess_file : option string) :
  fst (scan_guess_dir w ts_optimizer guess_dir_path files ts_guess_file)
  = match last (filter (fun f => is_guess f = true)
                  (take_until (copy_raises w ts_optimizer guess_dir_path) files)) with
    | Some file => Some (ConfirmImagModes.path_join guess_dir_path file)
    | None => ts_guess_file
    end.
Proof.
  revert ts_guess_file.
  induction files as [|file files IH]; intros ts_guess_file; simpl; [done |].
  unfold copy_raises at 1. fold (is_guess file).
  destruct (is_guess file) eqn:Hguess; simpl.
  - rewrite IH. rewrite filter_cons_True by done.
    destruct (filter _ (take_until _ files)) as [|f fs] eqn:Hrest; simpl.
    + done.
    + rewrite last_cons. by destruct (last fs).
  - case_bool_decide as Hr; simpl.
    + destruct (shutil_copy w _ _); simpl; [| done].
      rewrite IH. by rewrite filter_cons_False by (by rewrite Hguess).
    + case_bool_decide as Hp; simpl.
      * destruct (shutil_copy w _ _); simpl; [| done].
        rewrite IH. by rewrite filter_cons_False by (by rewrite Hguess).
      * rewrite IH. by rewrite filter_cons_False by (by rewrite Hguess).
Qed.

(** X12: of the entries of the directory of guesses, the guess file the
    loop retains is the last one whose name holds [ts_guess] and ends in
    [.xyz], among the entries listed before the first copy that raises; the
    entries after a copy that raises are not looked at. *)
Theorem scan_guess_dir_retains_last (ts_optimizer : TSOptimizer)
    (guess_dir_path : string) (files : list string) :
  fst (scan_guess_dir w ts_optimizer guess_dir_path files None)
  = (ConfirmImagModes.path_join guess_dir_path)
      <$> last (filter (fun f => is_guess f = true)
                  (take_until (copy_raises w ts_optimizer guess_dir_path) files)).
Proof.
  rewrite scan_guess_dir_last. by destruct (last _).
Qed.

Lemma validate_individual_ts_unfold (ts_optimizer : TSOptimizer)
    (input_dir_path : string) :
  validate_individual_ts w (ts_optimizer, input_dir_path)
  = match guess_found w ts_optimizer input_dir_path with
    | Some file =>
        match modify_ts_guess_list w [file] (prepared ts_optimizer input_dir_path) with
        | Ok modified =>
            match determine_ts w modified with
            | Ok true => Ok (PyStr (rxn_id modified))
            | _ => Ok (PyBool false)
            end
        | Raise e => Raise e
        end
    | None => Ok (PyBool false)
    end.
Proof.
  unfold validate_individual_ts, guess_found, prepared, guess_dir.
  destruct (os_listdir w _) as [files|e]; simpl.
  - destruct (scan_guess_dir w _ _ files None).1 as [file|]; simpl; [| done].
    destruct (modify_ts_guess_list w [file] _) as [modified|e]; simpl; [| done].
    by destruct (determine_ts w modified) as [[|]|e].
  - done.
Qed.

(** X11: the worker of the validation returns the reaction identifier iff
    a guess file was found, [modify_ts_guess_list] returned and
    [determine_ts] returned [True]; it raises iff a guess file was found
    and [modify_ts_guess_list] raised; whatever [os.listdir], [shutil.copy]
    and [determine_ts] raise is swallowed, and the worker returns
    [False]. *)
Theorem validate_individual_ts_outcomes (ts_optimizer : TSOptimizer)
    (input_dir_path : string) :
  (forall id,
     validate_individual_ts w (ts_optimizer, input_dir_path) = Ok (PyStr id)
     <-> exists file modified,
           guess_found w ts_optimizer input_dir_path = Some file
           /\ modify_ts_guess_list w [file] (prepared ts_optimizer input_dir_path)
              = Ok modified
           /\ determine_ts w modified = Ok true
           /\ id = rxn_id modified)
  /\ (forall e,
        validate_individual_ts w (ts_optimizer, input_dir_path) = Raise e
        <-> exists file,
              guess_found w ts_optimizer input_dir_path = Some file
              /\ modify_ts_guess_list w [file]
                   (prepared ts_optimizer input_dir_path) = Raise e)
  /\ (forall v,
        validate_individual_ts w (ts_optimizer, input_dir_path) = Ok v ->
        v = PyBool false \/ is_id v).
Proof.
  rewrite validate_individual_ts_unfold. unfold is_id.
  destruct (guess_found w ts_optimizer input_dir_path) as [file|] eqn:Hfound.
  2: { split; [| split].
       - intros id. split; [done |]. by intros (f & m & Hf & _).
       - intros e. split; [done |]. by intros (f & Hf & _).
       - intros v [= <-]. by left. }
  destruct (modify_ts_guess_list w [file] _) as [modified|e0] eqn:Hmodify.
  2: { split; [| split].
       - intros id. split; [done |].
         intros (f & m & [= <-] & Hm & _). congruence.
       - intros e. split.
         + intros [= <-]. by exists file.
         + intros (f & [= <-] & Hm). congruence.
       - by intros v ?. }
  assert (Hraise : forall e (r : result pyval),
            (exists f, Some file = Some f
               /\ modify_ts_guess_list w [f] (prepared ts_optimizer input_dir_path)
                  = Raise e) -> r = Raise e).
  { intros e r (f & [= <-] & Hm). congruence. }
  destruct (determine_ts w modified) as [[|]|e1] eqn:Hverdict;
    (split; [| split]).
  - intros id. split.
    + intros [= <-]. by exists file, modified.
    + intros (f & m & [= <-] & Hm & _ & ->). congruence.
  - intros e. split; [done | apply Hraise].
  - intros v [= <-]. right. by eexists.
  - intros id. split; [done |].
    intros (f & m & [= <-] & Hm & Hd & _). congruence.
  - intros e. split; [done | apply Hraise].
  - intros v [= <-]. by left.
  - intros id. split; [done |].
    intros (f & m & [= <-] & Hm & Hd & _). congruence.
  - intros e. split; [done | apply Hraise].
  - intros v [= <-]. by left.
Qed.

Lemma mapM_total {A B} (f : A -> result B) (l : list A) :
  (forall x, x ∈ l -> is_Ok (f x)) -> is_Ok (mapM f l).
Proof.
  induction l as [|x l IH]; intros Hf; simpl; [by eexists |].
  destruct (Hf x (list_elem_of_here _ _)) as [y ->]. simpl.
  destruct IH as [k ->].
  - intros z Hz. by apply Hf, list_elem_of_further.
  - simpl. by eexists.
Qed.

(** X13: on a host with fewer than two processors [validate_ts_guesses]
    never returns: the pool of [int(cpu_count / 2)] workers cannot be made,
    and when the changes of directory and the constructors succeed the
    exception is the [ValueError] of the pool. *)
Theorem validate_ts_guesses_single_processor (input_dir output_dir : string)
    (reaction_list : list (string * string)) (solvent : option string) :
  cpu_count w < 2 ->
  (exists e, validate_ts_guesses w input_dir output_dir reaction_list solvent
             = Raise e)
  /\ ((forall d, os_chdir w d = Ok ()) ->
      (forall id smiles, is_Ok (new_TSOptimizer w id smiles solvent)) ->
      validate_ts_guesses w input_dir output_dir reaction_list solvent
      = Raise ValueError).
Proof.
  intros Hcpu.
  assert (Hpool : bool_decide (cpu_count w / 2 = 0) = true).
  { apply bool_decide_eq_true_2. apply Nat.div_small. lia. }
  split.
  - unfold validate_ts_guesses. cbv zeta. rewrite Hpool.
    destruct (os_chdir w output_dir); simpl; [| by eexists].
    destruct (mapM _ reaction_list); simpl; [| by eexists].
    destruct (os_chdir w (getcwd w)); simpl; by eexists.
  - intros Hchdir Hnew. unfold validate_ts_guesses. cbv zeta.
    rewrite Hpool, !Hchdir. simpl.
    destruct (mapM_total
                (fun '(rxn_idx, rxn_smiles) =>
                   ts_optimizer ← new_TSOptimizer w rxn_idx rxn_smiles solvent;
                   Ok (ts_optimizer, ConfirmImagModes.path_join (getcwd w) input_dir))
                reaction_list) as [opts ->].
    + intros [id smiles] _. destruct (Hnew id smiles) as [o ->]. by eexists.
    + done.
Qed.

End validation_worker.

(** ** The searches and their batch *)
Section search_batch.
Import RunTsSearcherDft More.
Context {S : Type} (workers : RunTsSearcherDft.World S).

Lemma optimize_individual_ts_run (s0 : S) :
  optimize_individual_ts workers s0
  = match reaction_is_intramolecular workers s0 with
    | (Ok intramolecular, s) =>
        Spec.run_schedule workers
          (Spec.schedule (Spec.selected_factors workers intramolecular s)) s
    | (Raise e, s) => (Raise e, s)
    end.
Proof.
  unfold optimize_individual_ts, bind.
  destruct (reaction_is_intramolecular workers s0) as [[b|e] s]; [| done].
  apply search_schedule.
Qed.

Lemma optimize_individual_ts_values (s0 : S) (v : pyval) :
  fst (optimize_individual_ts workers s0) = Ok v -> v = PyNone \/ is_id v.
Proof.
  rewrite optimize_individual_ts_run.
  destruct (reaction_is_intramolecular workers s0) as [[b|e] s]; [| done].
  destruct (run_schedule_returns workers
              (Spec.schedule (Spec.selected_factors workers b s)) s)
    as (v' & s' & -> & Hv).
  simpl. intros [= <-]. destruct Hv as [-> | ->]; [by left |].
  right. by eexists.
Qed.

(** X16: the only exception that leaves the worker of the search is the one
    the classification of the reaction raises before the loop; whatever
    the attempts raise is caught. *)
Theorem optimize_individual_ts_raises (s0 : S) (e : exn) :
  fst (optimize_individual_ts workers s0) = Raise e
  <-> fst (reaction_is_intramolecular workers s0) = Raise e.
Proof.
  rewrite optimize_individual_ts_run.
  destruct (reaction_is_intramolecular workers s0) as [[b|e'] s];
    [| simpl; split; congruence].
  destruct (run_schedule_returns workers
              (Spec.schedule (Spec.selected_factors workers b s)) s)
    as (v' & s' & -> & _).
  done.
Qed.

(** X15: the clean-up of the working directory is inside the [try]: when
    [remove_files_in_directory] raises at every call, the worker reports no
    reaction, whatever [determine_ts] answered. *)
Theorem optimize_individual_ts_cleanup_raises (s0 : S) :
  (forall s, exists e, fst (remove_files_in_directory workers s) = Raise e) ->
  forall id, fst (optimize_individual_ts workers s0) <> Ok (PyStr id).
Proof.
  intros Hclean id. rewrite optimize_individual_ts_run.
  destruct (reaction_is_intramolecular workers s0) as [[b|e] s]; [| done].
  rewrite run_schedule_all_raise; [done |].
  intros f s1. unfold attempt, bind, ret.
  destruct (set_ts_guess_list workers f s1) as [[[]|e1] s2]; [| by eexists].
  destruct (determine_ts workers s2) as [[found|e2] s3]; [| by eexists].
  destruct (Hclean s3) as [e3 He3].
  destruct (remove_files_in_directory workers s3) as [[[]|e4] s4];
    simpl in *; [done | by eexists].
Qed.

(** X14: the list [obtain_transition_states] returns holds reaction
    identifiers only, at most one for each reaction of the batch: the [None]
    of a reaction without transition state is dropped. *)
Theorem obtain_transition_states_ids (w : SearchBatch.World S)
    (target_dir : string) (reaction_list : list (string * string))
    (xtb_external_path : string) (solvent : option string)
    (inter intra : list Q) (freq_cut_off : Z) (mem : string) (proc : Z)
    (successful_reactions : list pyval) :
  SearchBatch.obtain_transition_states workers w target_dir reaction_list
    xtb_external_path solvent inter intra freq_cut_off mem proc
  = Ok successful_reactions ->
  Forall is_id successful_reactions
  /\ length successful_reactions <= length reaction_list.
Proof.
  unfold SearchBatch.obtain_transition_states. intros H.
  inv_bind H. inv_bind H. inv_bind H. inv_bind H. inv_bind H. inv_bind H.
  injection H as <-.
  assert (Hvalues : Forall (fun v => v = PyNone \/ is_id v) a2).
  { eapply mapM_Ok_Forall; [| exact Ha2].
    intros s0 v. apply optimize_individual_ts_values. }
  split.
  - apply Forall_forall. intros v Hv.
    apply list_elem_of_filter in Hv as [Hnone Hin].
    rewrite Forall_forall in Hvalues. by destruct (Hvalues v Hin).
  - apply mapM_Ok_length in Ha0, Ha2.
    etrans; [apply length_filter |]. lia.
Qed.

End search_batch.

(** ** The sweep with the roles exchanged *)
Section sweep_symmetry.
Import IrcSearch More.
Variable w : IrcSearch.World.

Lemma update_molecular_graphs_swap_sides (rel_tolerance : Q) (mols : Molecules) :
  update_molecular_graphs w rel_tolerance (swap_sides mols)
  = swap_sides (update_molecular_graphs w rel_tolerance mols).
Proof. done. Qed.

Lemma update_molecular_graphs_swap_ends (rel_tolerance : Q) (mols : Molecules) :
  update_molecular_graphs w rel_tolerance (swap_ends mols)
  = swap_ends (update_molecular_graphs w rel_tolerance mols).
Proof. done. Qed.

Lemma matches_swap_sides (mols : Molecules) :
  matches_as_given (swap_sides mols) = matches_swapped mols
  /\ matches_swapped (swap_sides mols) = matches_as_given mols.
Proof. done. Qed.

Lemma matches_swap_ends (mols : Molecules) :
  matches_as_given (swap_ends mols) = matches_swapped mols
  /\ matches_swapped (swap_ends mols) = matches_as_given mols.
Proof.
  unfold matches_as_given, matches_swapped. simpl.
  split; apply andb_comm.
Qed.

Lemma sweep_swap (swap : Molecules -> Molecules) (tols : list Q) :
  (forall t m, update_molecular_graphs w t (swap m)
               = swap (update_molecular_graphs w t m)) ->
  (forall m, matches_as_given (swap m) = matches_swapped m
             /\ matches_swapped (swap m) = matches_as_given m) ->
  forall mols,
    sweep w tols (swap mols)
    = (fst (sweep w tols mols), swap (snd (sweep w tols mols))).
Proof.
  intros Hupdate Hmatch. induction tols as [|t rest IH]; intros mols; [done |].
  simpl. rewrite Hupdate.
  destruct (Hmatch (update_molecular_graphs w t mols)) as [-> ->].
  destruct (matches_as_given _), (matches_swapped _); first [done | apply IH].
Qed.

(** X17: the verdict of the sweep over the tolerances does not depend on
    which end point of the IRC is called forward, nor on which of the two
    given geometries is called the reactant: with either pair exchanged the
    sweep stops at the same tolerance, with the same verdict and the same
    graphs. *)
Theorem sweep_roles_exchanged (tols : list Q) (mols : Molecules) :
  sweep w tols (swap_ends mols)
  = (fst (sweep w tols mols), swap_ends (snd (sweep w tols mols)))
  /\ sweep w tols (swap_sides mols)
     = (fst (sweep w tols mols), swap_sides (snd (sweep w tols mols))).
Proof.
  split.
  - apply sweep_swap;
      [apply update_molecular_graphs_swap_ends | apply matches_swap_ends].
  - apply sweep_swap;
      [apply update_molecular_graphs_swap_sides | apply matches_swap_sides].
Qed.

End sweep_symmetry.

(** ** Paths *)
Section paths.
Import ConfirmImagModes.

Lemma chars_app (a b : string) : chars (a +:+ b) = chars a ++ chars b.
Proof.
  unfold chars. induction a as [|c a IH]; simpl; [done |]. by rewrite IH.
Qed.

Lemma string_of_chars_app (a b : list ascii) :
  string_of_list_ascii (a ++ b)
  = string_of_list_ascii a +:+ string_of_list_ascii b.
Proof. induction a as [|c a IH]; simpl; [done |]. by rewrite IH. Qed.

Lemma string_app_assoc (a b c : string) : (a +:+ b) +:+ c = a +:+ b +:+ c.
Proof.
  induction a as [|x a IH]; [done |].
  change (String x ((a +:+ b) +:+ c) = String x (a +:+ b +:+ c)).
  by rewrite IH.
Qed.

Lemma string_of_chars (s : string) : string_of_list_ascii (chars s) = s.
Proof. apply string_of_list_ascii_of_string. Qed.

(** A piece without the separator is not split. *)
Lemma split_chars_no_slash (name cur : list ascii) :
  "/"%char ∉ name ->
  split_chars ["/"%char] name 0 cur = [rev cur ++ name].
Proof.
  revert cur. induction name as [|c name IH]; intros cur Hno; simpl.
  - by rewrite app_nil_r.
  - apply not_elem_of_cons in Hno as [Hc Hno].
    unfold is_char. rewrite bool_decide_eq_false_2 by done. simpl.
    rewrite IH by done. simpl. by rewrite <- app_assoc.
Qed.

(** The last separator cuts the last piece off. *)
Lemma split_chars_last (s name cur : list ascii) :
  "/"%char ∉ name ->
  split_chars ["/"%char] (s ++ "/"%char :: name) 0 cur
  = split_chars ["/"%char] s 0 cur ++ [name].
Proof.
  intros Hno. revert cur. induction s as [|c s IH]; intros cur; simpl.
  - by rewrite split_chars_no_slash.
  - destruct (is_char "/" c); simpl.
    + by rewrite IH.
    + apply IH.
Qed.

Lemma str_join_cons (sep : string) (p q : list ascii) (ps : list (list ascii)) :
  str_join sep (p :: q :: ps)
  = string_of_list_ascii p +:+ sep +:+ str_join sep (q :: ps).
Proof.
  unfold str_join. simpl.
  generalize (string_of_list_ascii q). generalize (string_of_list_ascii p).
  induction ps as [|x ps IH]; intros a b; simpl; [done |].
  rewrite !string_app_assoc. apply IH.
Qed.

Lemma split_chars_non_empty (sep s : list ascii) (skip : nat) (cur : list ascii) :
  split_chars sep s skip cur <> [].
Proof.
  revert skip cur. induction s as [|c s IH]; intros skip cur; simpl; [done |].
  destruct skip; [| apply IH].
  destruct (is_prefix sep (c :: s)); [done | apply IH].
Qed.

(** Joining the pieces with the separator gives the text back. *)
Lemma str_join_split_chars (s cur : list ascii) :
  str_join "/" (split_chars ["/"%char] s 0 cur)
  = string_of_list_ascii (rev cur ++ s).
Proof.
  revert cur. induction s as [|c s IH]; intros cur.
  - simpl. by rewrite app_nil_r.
  - simpl. unfold is_char. destruct (bool_decide_reflect ("/"%char = c)) as [<- |Hc];
      cbn [andb].
    + destruct (split_chars ["/"%char] s 0 []) as [|q qs] eqn:Hsplit.
      { by apply split_chars_non_empty in Hsplit. }
      rewrite str_join_cons, <- Hsplit, IH. simpl.
      by rewrite string_of_chars_app.
    + rewrite IH. simpl. by rewrite <- app_assoc.
Qed.

Lemma str_split_parent (parent name : string) :
  "/"%char ∉ chars name ->
  str_split (parent +:+ "/" +:+ name) "/"
  = str_split parent "/" ++ [chars name].
Proof.
  intros Hno. unfold str_split. rewrite !chars_app.
  by apply split_chars_last.
Qed.

(** X18: called in the directory [parent/reaction], [move_final_guess_xyz]
    copies the guess [dir/file] to [final_ts_guesses] beside the directory of
    the reaction and renames the copy after the reaction:
    [parent/final_ts_guesses/reaction_final_ts_guess.xyz]; the rename is not
    tried when the copy raises. *)
Theorem move_final_guess_xyz_destination (w : World)
    (parent reaction dir file : string) :
  getcwd w = parent +:+ "/" +:+ reaction ->
  "/"%char ∉ chars reaction ->
  "/"%char ∉ chars file ->
  let final_dir := path_join parent "final_ts_guesses" in
  move_final_guess_xyz w (dir +:+ "/" +:+ file)
  = (_ ← shutil_copy w (dir +:+ "/" +:+ file) final_dir;
     os_rename w (path_join final_dir file)
       (path_join final_dir (reaction +:+ "_final_ts_guess.xyz"))).
Proof.
  intros Hcwd Hreaction Hfile final_dir.
  unfold move_final_guess_xyz, last_piece. rewrite Hcwd.
  rewrite !str_split_parent by done.
  rewrite removelast_last, !last_last, !string_of_chars.
  unfold str_split. rewrite str_join_split_chars. simpl.
  by rewrite string_of_chars.
Qed.

End paths.

(** ** The Gaussian input of a guess *)
Section gaussian_input.
Import ConfirmImagModes Utils Text.

Lemma string_app_nil_r (a : string) : a +:+ "" = a.
Proof.
  induction a as [|x a IH]; [done |].
  change (String x (a +:+ "") = String x a). by rewrite IH.
Qed.

Lemma text_of_app (l1 l2 : list string) :
  text_of (l1 ++ l2) = text_of l1 +:+ text_of l2.
Proof.
  induction l1 as [|a l1 IH]; [done |].
  change (a +:+ text_of (l1 ++ l2) = (a +:+ text_of l1) +:+ text_of l2).
  by rewrite IH, string_app_assoc.
Qed.

Lemma str_join_four (e x y z : list ascii) :
  str_join " " [e; x; y; z]
  = string_of_list_ascii e +:+ " " +:+ string_of_list_ascii x +:+ " "
    +:+ string_of_list_ascii y +:+ " " +:+ string_of_list_ascii z.
Proof. by rewrite !str_join_cons. Qed.

(** The loop over atom lines of four fields or more. *)
Lemma write_atoms_good (good rest : list string) (written : string) :
  Forall (fun line => 4 <= length (fields line)) good ->
  write_atoms (good ++ rest) written
  = write_atoms rest (written +:+ text_of (map atom_text good)).
Proof.
  intros Hgood. revert written.
  induction Hgood as [|line good Hline _ IH]; intros written.
  - simpl. by rewrite string_app_nil_r.
  - change (text_of (map atom_text (line :: good)))
      with (atom_text line +:+ text_of (map atom_text good)).
    rewrite <- string_app_assoc, <- IH. simpl.
    unfold atom_text. unfold fields in *.
    destruct (split_blank (chars line) []) as [|e [|x [|y [|z more]]]];
      simpl in Hline; try lia.
    change (take 3 (drop 1 (e :: x :: y :: z :: more))) with [x; y; z].
    change (take 4 (e :: x :: y :: z :: more)) with [e; x; y; z].
    by rewrite str_join_four, !string_app_assoc.
Qed.

(** The loop at an atom line of fewer than four fields. *)
Lemma write_atoms_short (bad : string) (rest : list string) (written : string) :
  length (fields bad) < 4 ->
  write_atoms (bad :: rest) written
  = (written, Raise match fields bad with
                    | [] => IndexError
                    | _ => ValueError
                    end).
Proof.
  unfold fields. simpl.
  destruct (split_blank (chars bad) []) as [|e [|x [|y [|z more]]]]; simpl;
    intros; first [done | lia].
Qed.

Lemma split_blank_tokens (s cur : list ascii) :
  Forall (fun c => is_space c = false) cur ->
  Forall token (split_blank s cur).
Proof.
  revert cur. induction s as [|c s IH]; intros cur Hcur; simpl.
  - destruct cur as [|a cur]; [constructor |].
    constructor; [| constructor]. split.
    + simpl. by destruct (rev cur).
    + by apply Forall_rev.
  - destruct (is_space c) eqn:Hc.
    + destruct cur as [|a cur]; [by apply IH |].
      constructor; [| by apply IH]. split.
      * simpl. by destruct (rev cur).
      * by apply Forall_rev.
    + apply IH. by constructor.
Qed.

Lemma split_blank_token_first (t s cur : list ascii) (c : ascii) :
  Forall (fun c => is_space c = false) t ->
  is_space c = true ->
  rev cur ++ t <> [] ->
  split_blank (t ++ c :: s) cur = (rev cur ++ t) :: split_blank s [].
Proof.
  intros Ht Hc. revert cur.
  induction Ht as [|a t Ha _ IH]; intros cur Hne; simpl.
  - rewrite Hc, app_nil_r in *. destruct cur; [done |]. done.
  - rewrite Ha, IH; simpl.
    + by rewrite <- app_assoc.
    + rewrite <- app_assoc. by destruct (rev cur).
Qed.

(** The fields of a line of fields joined by one space are these fields. *)
Lemma fields_join (ts : list (list ascii)) :
  Forall token ts ->
  fields (str_join " " ts +:+ nl) = ts.
Proof.
  unfold fields.
  induction 1 as [|t ts [Hne Ht] Hts IH]; [done |].
  destruct ts as [|q ps].
  - unfold str_join. simpl. rewrite chars_app.
    unfold chars at 1. rewrite list_ascii_of_string_of_list_ascii.
    change (chars nl) with ["010"%char].
    by rewrite (split_blank_token_first t [] [] "010"%char).
  - rewrite str_join_cons, !string_app_assoc, !chars_app.
    unfold chars at 1. rewrite list_ascii_of_string_of_list_ascii.
    change (chars " " ++ ?r) with (" "%char :: r).
    rewrite (split_blank_token_first t _ [] " "%char) by done.
    rewrite <- chars_app. by rewrite IH.
Qed.

Lemma fields_atom_text (line : string) :
  fields (atom_text line) = take 4 (fields line).
Proof.
  apply fields_join, Forall_take. by apply split_blank_tokens.
Qed.

(** X19: when every atom line of the xyz file has four fields or more,
    [xyz_to_gaussian_input] writes the header, one line for each atom line
    and an empty line; the fields of a line written are the first four
    fields of the atom line, whatever blanks separated them and whatever
    followed them. *)
Theorem xyz_to_gaussian_input_text (w : World)
    (xyz_file output_file method basis_set extra_commands : string)
    (lines : list string) :
  readlines w xyz_file = Ok lines ->
  open_w w output_file = Ok () ->
  Forall (fun line => 4 <= length (fields line)) (drop 2 lines) ->
  xyz_to_gaussian_input w xyz_file output_file method basis_set extra_commands
  = (Some (header xyz_file method basis_set extra_commands
           +:+ text_of (map atom_text (drop 2 lines)) +:+ nl), Ok ())
  /\ Forall2 (fun written line => fields written = take 4 (fields line))
       (map atom_text (drop 2 lines)) (drop 2 lines).
Proof.
  intros Hread Hopen Hlines. split.
  - unfold xyz_to_gaussian_input. rewrite Hread, Hopen.
    rewrite <- (app_nil_r (drop 2 lines)) at 1.
    rewrite write_atoms_good by done. simpl.
    by rewrite string_app_assoc.
  - apply Forall2_fmap_l, Forall_Forall2_diag, Forall_forall.
    intros line _. apply fields_atom_text.
Qed.

(** X20: at the first atom line of fewer than four fields
    [xyz_to_gaussian_input] raises, [IndexError] when the line is blank and
    [ValueError] otherwise, and leaves the output file with the header and
    the lines of the atoms before. *)
Theorem xyz_to_gaussian_input_short_line (w : World)
    (xyz_file output_file method basis_set extra_commands : string)
    (lines good rest : list string) (bad : string) :
  readlines w xyz_file = Ok lines ->
  open_w w output_file = Ok () ->
  drop 2 lines = good ++ bad :: rest ->
  Forall (fun line => 4 <= length (fields line)) good ->
  length (fields bad) < 4 ->
  xyz_to_gaussian_input w xyz_file output_file method basis_set extra_commands
  = (Some (header xyz_file method basis_set extra_commands
           +:+ text_of (map atom_text good)),
     Raise match fields bad with
           | [] => IndexError
           | _ => ValueError
           end).
Proof.
  intros Hread Hopen Hlines Hgood Hbad.
  unfold xyz_to_gaussian_input. rewrite Hread, Hopen, Hlines.
  rewrite write_atoms_good by done.
  by rewrite write_atoms_short.
Qed.

End gaussian_input.

(** ** The files of an IRC calculation *)
Section irc_files.
Import ConfirmImagModes Utils IrcFiles Text.
Variable w : IrcFiles.World.

(** X21: [generate_gaussian_irc_input] writes two inputs of one form, the
    forward one before the reverse one; they differ in the direction, and
    in one more place: with a solvent and a method that is not an external
    one, the forward input carries the charge 0 and the multiplicity 1
    whatever charge and multiplicity were given. *)
Theorem generate_gaussian_irc_input_contents
    (xyz_file output_prefix method mem : string) (proc : Z)
    (solvent : option string) (charge multiplicity : Z) :
  generate_gaussian_irc_input w xyz_file output_prefix method mem proc solvent
    charge multiplicity
  = (lines ← readlines w xyz_file;
     let external := str_contains "external" method in
     let stem := IrcSearch.drop_last4 (last_piece (str_split xyz_file "/")) in
     let coords := text_of (drop 2 lines) in
     let forward_name :=
       path_join (dirname xyz_file) (output_prefix +:+ "_forward.com") in
     let reverse_name :=
       path_join (dirname xyz_file) (output_prefix +:+ "_reverse.com") in
     let forward_charge :=
       if negb external && bool_decide (is_Some solvent) then 0%Z else charge in
     let forward_multiplicity :=
       if negb external && bool_decide (is_Some solvent) then 1%Z
       else multiplicity in
     _ ← write_text w forward_name
           (irc_input "Forward" stem external (pretty proc) mem method solvent
              (pretty forward_charge) (pretty forward_multiplicity) coords);
     _ ← write_text w reverse_name
           (irc_input "Reverse" stem external (pretty proc) mem method solvent
              (pretty charge) (pretty multiplicity) coords);
     Ok (forward_name, reverse_name)).
Proof.
  unfold generate_gaussian_irc_input.
  destruct (readlines w xyz_file) as [lines|e]; [| done].
  rewrite !bind_Ok_l. cbv zeta. unfold irc_input, text_of.
  destruct (str_contains "external" method), solvent as [solvent|];
    cbn [negb andb]; rewrite ?bool_decide_eq_true_2 by (by eexists);
    rewrite ?bool_decide_eq_false_2 by (by intros [? ?]);
    rewrite ?string_app_assoc; reflexivity.
Qed.

(** The lines before the one that announces the final structure are
    passed over. *)
Lemma scan_coordinates_before (before rest : list string)
    (coordinates : list (string * Q * Q * Q)) :
  Forall (fun line => is_marker line = false) before ->
  scan_coordinates (before ++ rest) false coordinates
  = scan_coordinates rest false coordinates.
Proof.
  induction 1 as [|line before Hline _ IH]; [done |].
  simpl. by rewrite Hline.
Qed.

Lemma scan_coordinates_found (line : string) (rest : list string)
    (coordinates : list (string * Q * Q * Q)) :
  is_marker line = false ->
  is_blank line = false ->
  scan_coordinates (line :: rest) true coordinates
  = match fields line with
    | [element; x; y; z] =>
        x ← py_float x;
        y ← py_float y;
        z ← py_float z;
        scan_coordinates rest true
          (coordinates ++ [(string_of_list_ascii element, x, y, z)])
    | _ => scan_coordinates rest true coordinates
    end.
Proof.
  intros Hmarker Hblank.
  change (scan_coordinates (line :: rest) true coordinates)
    with (if is_marker line then scan_coordinates rest true coordinates
          else if true && is_blank line then Ok coordinates
          else match fields line with
               | [element; x; y; z] =>
                   x ← py_float x;
                   y ← py_float y;
                   z ← py_float z;
                   scan_coordinates rest true
                     (coordinates ++ [(string_of_list_ascii element, x, y, z)])
               | _ => scan_coordinates rest true coordinates
               end).
  by rewrite Hmarker, Hblank.
Qed.

Lemma is_row_fields (line : string) :
  is_row line = true
  <-> is_marker line = false /\ length (fields line) = 4.
Proof.
  unfold is_row.
  rewrite andb_true_iff, negb_true_iff, bool_decide_eq_true. done.
Qed.

(** The rows of the block, up to the blank line or the end of the file. *)
Lemma scan_coordinates_rows (block tail : list string)
    (coordinates : list (string * Q * Q * Q)) :
  Forall (fun line => is_marker line = true \/ is_blank line = false) block ->
  tail = []
  \/ (exists blank rest, tail = blank :: rest
        /\ is_marker blank = false /\ is_blank blank = true) ->
  scan_coordinates (block ++ tail) true coordinates
  = (rows ← mapM parse_row (filter (fun line => is_row line = true) block);
     Ok (coordinates ++ rows)).
Proof.
  intros Hblock Htail. revert coordinates.
  induction Hblock as [|line block Hline _ IH]; intros coordinates.
  - simpl. rewrite app_nil_r.
    destruct Htail as [-> | (blank & rest & -> & Hmarker & Hblank)]; [done |].
    simpl. by rewrite Hmarker, Hblank.
  - rewrite <- app_comm_cons.
    destruct (is_marker line) eqn:Hmarker.
    { rewrite filter_cons_False
        by (rewrite is_row_fields; intros [? _]; congruence).
      simpl. rewrite Hmarker. apply IH. }
    destruct Hline as [? | Hblank]; [done |].
    rewrite scan_coordinates_found by done.
    destruct (decide (length (fields line) = 4)) as [Hfour|Hfour].
    + rewrite filter_cons_True by (by apply is_row_fields).
      change (mapM parse_row (line :: ?l))
        with (y ← parse_row line; k ← mapM parse_row l; Ok (y :: k)).
      set (later := mapM parse_row _) in *. unfold parse_row.
      destruct (fields line) as [|e [|x [|y [|z [|more]]]]]; try done.
      destruct (py_float x) as [x'|?]; [| done].
      destruct (py_float y) as [y'|?]; [| done].
      destruct (py_float z) as [z'|?]; [| done].
      rewrite !bind_Ok_l, IH.
      destruct later as [rows|?]; [| done].
      rewrite !bind_Ok_l. by rewrite <- app_assoc.
    + rewrite filter_cons_False
        by (rewrite is_row_fields; intros [_ ?]; congruence).
      destruct (fields line) as [|e [|x [|y [|z [|more]]]]]; try apply IH.
      done.
Qed.

(** X22: of an output of [xtb], [extract_coordinates] reads the block that
    follows the first line announcing the final structure, up to the first
    blank line: the lines before the announcement and after the blank line
    are not read, a line of the block that is not of four fields is passed
    over, and the rows go to [write_coordinates_to_xyz] in their order,
    unless a number of a row cannot be read. *)
Theorem extract_coordinates_block (file_path : string)
    (before block rest : list string) (marker blank : string) :
  readlines w file_path = Ok (before ++ marker :: block ++ blank :: rest) ->
  Forall (fun line => is_marker line = false) before ->
  is_marker marker = true ->
  Forall (fun line => is_marker line = true \/ is_blank line = false) block ->
  is_marker blank = false ->
  is_blank blank = true ->
  extract_coordinates w file_path
  = (rows ← mapM parse_row (filter (fun line => is_row line = true) block);
     write_coordinates_to_xyz w rows
       (IrcSearch.drop_last4 file_path +:+ "_opt.xyz")).
Proof.
  intros Hread Hbefore Hmarker Hblock Hnot Hblank.
  unfold extract_coordinates. rewrite Hread, bind_Ok_l.
  rewrite scan_coordinates_before by done.
  simpl scan_coordinates at 1. rewrite Hmarker.
  rewrite (scan_coordinates_rows block (blank :: rest)) by eauto 7.
  by destruct (mapM parse_row _).
Qed.

(** X23: when no line of the output announces the final structure,
    [extract_coordinates] raises nothing of its own: it hands the empty list
    to [write_coordinates_to_xyz]. *)
Theorem extract_coordinates_no_structure (file_path : string)
    (lines : list string) :
  readlines w file_path = Ok lines ->
  Forall (fun line => is_marker line = false) lines ->
  extract_coordinates w file_path
  = write_coordinates_to_xyz w [] (IrcSearch.drop_last4 file_path +:+ "_opt.xyz").
Proof.
  intros Hread Hlines. unfold extract_coordinates. rewrite Hread, bind_Ok_l.
  rewrite <- (app_nil_r lines), scan_coordinates_before by done.
  done.
Qed.

(** *** The command of the optimisation *)

Lemma split_blank_app_space (s1 s2 cur : list ascii) (c : ascii) :
  is_space c = true ->
  split_blank (s1 ++ c :: s2) cur = split_blank s1 cur ++ split_blank s2 [].
Proof.
  intros Hc. revert cur. induction s1 as [|a s1 IH]; intros cur; simpl.
  - rewrite Hc. by destruct cur.
  - destruct (is_space a); [| apply IH].
    destruct cur; by rewrite IH.
Qed.

Lemma split_blank_token (t cur : list ascii) :
  Forall (fun c => is_space c = false) t ->
  rev cur ++ t <> [] ->
  split_blank t cur = [rev cur ++ t].
Proof.
  intros Ht. revert cur. induction Ht as [|a t Ha _ IH]; intros cur Hne; simpl.
  - rewrite app_nil_r in *. by destruct cur.
  - rewrite Ha, IH; simpl.
    + by rewrite <- app_assoc.
    + rewrite <- app_assoc. by destruct (rev cur).
Qed.

Lemma pretty_N_char_not_space (x : N) : is_space (pretty_N_char x) = false.
Proof.
  destruct x as [|p]; [done |].
  do 4 (try destruct p as [p|p|]); done.
Qed.

Lemma pretty_N_go_token (x : N) (s : string) :
  token (chars s) -> token (chars (pretty_N_go x s)).
Proof.
  revert s. induction (N.lt_wf_0 x) as [x _ IH]; intros s Hs.
  destruct (decide (x = 0%N)) as [-> |Hx]; [by rewrite pretty_N_go_0 |].
  rewrite pretty_N_go_step by lia. apply IH.
  - apply N.div_lt; lia.
  - destruct Hs as [_ Hs]. split; [done |].
    constructor; [apply pretty_N_char_not_space | done].
Qed.

Lemma pretty_N_token (x : N) : token (chars (pretty x)).
Proof.
  unfold pretty, pretty_N. destruct (decide (x = 0%N)) as [|Hx].
  - split; [done | by repeat constructor].
  - rewrite pretty_N_go_step by lia. apply pretty_N_go_token.
    split; [done |]. constructor; [apply pretty_N_char_not_space | constructor].
Qed.

(** The decimal text of an integer is one field. *)
Lemma pretty_Z_token (x : Z) : token (chars (pretty x)).
Proof.
  destruct x as [|p|p].
  - split; [done | by repeat constructor].
  - apply (pretty_N_token (Npos p)).
  - destruct (pretty_N_token (Npos p)) as [_ Hp].
    change (pretty (Z.neg p)) with ("-" +:+ pretty (Npos p)).
    split; [done |]. by constructor.
Qed.

Lemma fields_token (s : string) : token (chars s) -> fields s = [chars s].
Proof. intros [Hne Hs]. by apply (split_blank_token (chars s) []). Qed.

Lemma fields_space (a b : string) :
  fields (a +:+ " " +:+ b) = fields a ++ fields b.
Proof.
  unfold fields. rewrite !chars_app.
  by apply (split_blank_app_space (chars a) (chars b) [] " "%char).
Qed.

(** X24: the arguments [optimize_final_point_irc] runs [xtb] with.  The
    command is cut at blanks: a path or a solvent with a blank in it
    reaches [xtb] as several arguments.  Only the multiplicity 2 adds
    [--uhf 1]; every other multiplicity runs as the multiplicity 1 does. *)
Theorem optimize_final_point_irc_command (xyz_file : string)
    (charge multiplicity : Z) (solvent : option string) :
  optimize_final_point_irc w xyz_file charge multiplicity solvent
  = (inp_path ← write_xtb_input_file w xyz_file;
     _ ← run w
           ([chars "xtb"; chars "--input"] ++ fields inp_path
            ++ fields xyz_file
            ++ [chars "--opt"; chars "--cma"; chars "--charge";
                chars (pretty charge)]
            ++ (if bool_decide (multiplicity = 2%Z)
                then [chars "--uhf"; chars "1"] else [])
            ++ match solvent with
               | Some solvent => chars "--alpb" :: fields solvent
               | None => []
               end)
           (IrcSearch.drop_last4 xyz_file +:+ ".out");
     extract_coordinates w (IrcSearch.drop_last4 xyz_file +:+ ".out")).
Proof.
  unfold optimize_final_point_irc.
  destruct (write_xtb_input_file w xyz_file) as [inp_path|e]; [| done].
  rewrite !bind_Ok_l. cbv zeta. f_equal. f_equal.
  pose proof (pretty_Z_token charge) as Hcharge.
  destruct Hcharge as [Hne Hchars].
  assert (Hfields : forall tail cur,
            split_blank (chars (pretty charge) ++ " "%char :: tail) cur
            = (rev cur ++ chars (pretty charge)) :: split_blank tail []).
  { intros tail cur. apply split_blank_token_first; [done | done |].
    destruct (chars (pretty charge)); [done |]. by destruct (rev cur). }
  unfold fields in *.
  assert (Hend : forall s, split_blank (chars s ++ [" "%char]) []
                           = split_blank (chars s) []).
  { intros s. rewrite (split_blank_app_space (chars s) [] [] " "%char) by done.
    apply app_nil_r. }
  generalize dependent (pretty charge). intros number _ _ Hfields.
  destruct (bool_decide (multiplicity = 1%Z)) eqn:Hone,
           (bool_decide (multiplicity = 2%Z)) eqn:Htwo, solvent as [solvent|];
    try (apply bool_decide_eq_true in Hone, Htwo; lia);
    rewrite ?string_app_assoc, !chars_app; simpl;
    rewrite (split_blank_app_space (chars inp_path)) by done;
    rewrite (split_blank_app_space (chars xyz_file)) by done; simpl;
    rewrite Hfields; simpl; rewrite ?Hend; reflexivity.
Qed.

End irc_files.

(** ** The further properties on worked cases *)
Section further_cases.
Import ConfirmImagModes Spec More Text Example Cases.

#[local] Instance runtime_laws : RuntimeSpec runtime.
Proof. constructor. reflexivity. Qed.

#[local] Existing Instance runtime.

(** An instance of X1: the bond sets of the worked reaction. *)
Lemma extract_info_ts_file_partition_witness :
  exists info,
    extract_info_ts_file (world "0.50") "ts_guess_0.xyz" "/work/reaction_R1" 0 0.5
    = Ok info
    /\ active_bonds_forming info ∩ active_bonds_breaking info = ∅
    /\ dom (active_bonds_involved_in_mode info)
       ⊆ active_bonds_forming info ∪ active_bonds_breaking info
    /\ dom (active_bonds_involved_in_mode info)
       ∩ dom (extra_bonds_involved_in_mode info) = ∅
    /\ exists reactant product ts_mol normal_mode frequency,
         loaded (world "0.50") "ts_guess_0.xyz" "/work/reaction_R1" 0
           reactant product ts_mol normal_mode frequency
         /\ dom (extra_bonds_involved_in_mode info)
            ⊆ edge_set reactant ∩ edge_set product.
Proof.
  eexists. split; [vm_compute; reflexivity |].
  apply (extract_info_ts_file_partition (world "0.50") "ts_guess_0.xyz"
           "/work/reaction_R1" 0 0.5).
  vm_compute. reflexivity.
Defined.

Lemma backwards_laws (s : gset bond) : backwards s ≡ₚ elements s.
Proof. apply reverse_Permutation. Qed.

(** An instance of X2: the worked reaction with its sets iterated
    backwards. *)
Lemma extract_info_ts_file_order_witness :
  extract_info_ts_file (RT := {| set_iter := elements; vec_norm := euclid |})
    (world "0.50") "ts_guess_0.xyz" "/work/reaction_R1" 0 0.5
  = extract_info_ts_file (RT := {| set_iter := backwards; vec_norm := euclid |})
      (world "0.50") "ts_guess_0.xyz" "/work/reaction_R1" 0 0.5.
Proof.
  apply (extract_info_ts_file_order euclid elements backwards).
  - intros s. reflexivity.
  - apply backwards_laws.
Defined.

(** An instance of X3: the verdict on the worked reaction with its sets
    iterated backwards. *)
Lemma validate_ts_guess_order_witness :
  validate_ts_guess (RT := {| set_iter := elements; vec_norm := euclid |})
    (world "0.50") "ts_guess_0.xyz" "/work/reaction_R1" 1.05 0.5 50 0 false
  = Ok true
  <-> validate_ts_guess (RT := {| set_iter := backwards; vec_norm := euclid |})
        (world "0.50") "ts_guess_0.xyz" "/work/reaction_R1" 1.05 0.5 50 0 false
      = Ok true.
Proof.
  apply (validate_ts_guess_order euclid elements backwards).
  - intros s. reflexivity.
  - apply backwards_laws.
Defined.

(** An instance of X5: a check that passes at the factor 1.05 passes at
    the factor 1. *)
Lemma check_if_bond_lengths_intermediate_factor_witness :
  check_if_bond_lengths_intermediate
    [[0; 1.50]; [1.50; 0]]%Q [[0; 1]; [1; 0]]%Q [[0; 1]; [1; 0]]%Q
    [(0, 1)] [(0, 1)] 1.05 = Ok true
  /\ check_if_bond_lengths_intermediate
       [[0; 1.50]; [1.50; 0]]%Q [[0; 1]; [1; 0]]%Q [[0; 1]; [1; 0]]%Q
       [(0, 1)] [(0, 1)] 1 = Ok true.
Proof.
  split; [reflexivity |].
  apply (check_if_bond_lengths_intermediate_factor
           [[0; 1.50]; [1.50; 0]]%Q [[0; 1]; [1; 0]]%Q [[0; 1]; [1; 0]]%Q
           [(0, 1)] [(0, 1)] 1 1.05).
  - discriminate.
  - intros b d Hb. apply list_elem_of_singleton in Hb. subst b.
    intros [= <-]. discriminate.
  - intros b d Hb. apply list_elem_of_singleton in Hb. subst b.
    intros [= <-]. discriminate.
  - reflexivity.
Defined.

(** An instance of X6: the worked reaction with a product of the graph of
    the reactant is rejected. *)
Lemma validate_ts_guess_same_graphs_witness :
  edge_set reactant = edge_set unchanged_product
  /\ validate_ts_guess unchanged_world "ts_guess_0.xyz" "/work/reaction_R1"
       1.05 0.5 50 0 false = Ok false.
Proof.
  split; [reflexivity |].
  eapply (validate_ts_guess_same_graphs unchanged_world "ts_guess_0.xyz"
            "/work/reaction_R1" 1.05 0.5 50 0 false _
            reactant unchanged_product ts_mol).
  - vm_compute. reflexivity.
  - eexists _, _. repeat split; vm_compute; reflexivity.
  - reflexivity.
Defined.


(** An instance of X13: the batch of the worked validation on a host with
    one processor. *)
Lemma validate_ts_guesses_single_processor_witness :
  DftValidation.cpu_count single_processor < 2
  /\ DftValidation.validate_ts_guesses single_processor "final_test"
       "validation_dir" batch None = Raise ValueError.
Proof.
  split; [simpl; lia |].
  apply (validate_ts_guesses_single_processor single_processor "final_test"
           "validation_dir" batch None).
  - simpl. lia.
  - reflexivity.
  - intros id smiles. by eexists.
Defined.

(** An instance of X14: of a batch of three searches, the one that finds
    its transition state. *)
Lemma obtain_transition_states_ids_witness :
  SearchBatch.obtain_transition_states search_world search_batch "work_dir_dft"
    [("R1", "CC=O.CC=O>>CC(O)CC=O"); ("R2", "C=C.C=CC=C>>C1CCC=CC1");
     ("R3", "CCl.[OH-]>>CO.[Cl-]")]
    "xtb_external.py" None [2.5; 1.8; 2.8; 1.3]%Q [1.2; 1.3; 1.8]%Q 150 "16GB" 8
  = Ok [PyStr "R1"]
  /\ Forall is_id [PyStr "R1"]
  /\ length [PyStr "R1"] <= 3.
Proof.
  split; [vm_compute; reflexivity |].
  apply (obtain_transition_states_ids search_world search_batch "work_dir_dft"
           [("R1", "CC=O.CC=O>>CC(O)CC=O"); ("R2", "C=C.C=CC=C>>C1CCC=CC1");
            ("R3", "CCl.[OH-]>>CO.[Cl-]")]
           "xtb_external.py" None [2.5; 1.8; 2.8; 1.3]%Q [1.2; 1.3; 1.8]%Q
           150 "16GB" 8 [PyStr "R1"]).
  vm_compute. reflexivity.
Defined.

(** An instance of X15: every guess is accepted and no reaction is
    reported, the clean-up raising at every call. *)
Lemma optimize_individual_ts_cleanup_raises_witness :
  fst (RunTsSearcherDft.determine_ts stuck_cleanup 0) = Ok true
  /\ fst (RunTsSearcherDft.optimize_individual_ts stuck_cleanup 0)
     <> Ok (PyStr "R1").
Proof.
  split; [reflexivity |].
  apply (optimize_individual_ts_cleanup_raises stuck_cleanup 0).
  intros s. by exists OSError.
Defined.

(** An instance of X18: the final guess of the worked reaction. *)
Lemma move_final_guess_xyz_destination_witness :
  getcwd (world "0.50") = "/work" +:+ "/" +:+ "reaction_R1"
  /\ move_final_guess_xyz (world "0.50") ("g16_dir" +:+ "/" +:+ "ts_guess_0.xyz")
     = (_ ← shutil_copy (world "0.50") ("g16_dir" +:+ "/" +:+ "ts_guess_0.xyz")
            (path_join "/work" "final_ts_guesses");
        os_rename (world "0.50")
          (path_join (path_join "/work" "final_ts_guesses") "ts_guess_0.xyz")
          (path_join (path_join "/work" "final_ts_guesses")
             ("reaction_R1" +:+ "_final_ts_guess.xyz"))).
Proof.
  split; [reflexivity |].
  apply (move_final_guess_xyz_destination (world "0.50") "/work" "reaction_R1"
           "g16_dir" "ts_guess_0.xyz").
  - reflexivity.
  - apply (bool_decide_unpack _). vm_compute. exact I.
  - apply (bool_decide_unpack _). vm_compute. exact I.
Defined.

(** An instance of X19: a guess of two atoms, the second line with a fifth
    field. *)
Lemma xyz_to_gaussian_input_text_witness :
  Utils.xyz_to_gaussian_input xyz_files "guesses/ts_guess_0.xyz" "ts_guess_0.com"
    "UB3LYP" "6-31G(d,p)" "opt=(calcfc,ts, noeigen) freq=noraman"
  = (Some (Utils.header "guesses/ts_guess_0.xyz" "UB3LYP" "6-31G(d,p)"
             "opt=(calcfc,ts, noeigen) freq=noraman"
           +:+ text_of (map atom_text (drop 2 guess_xyz)) +:+ Utils.nl), Ok ())
  /\ Forall2 (fun written line => fields written = take 4 (fields line))
       (map atom_text (drop 2 guess_xyz)) (drop 2 guess_xyz).
Proof.
  apply (xyz_to_gaussian_input_text xyz_files "guesses/ts_guess_0.xyz"
           "ts_guess_0.com" "UB3LYP" "6-31G(d,p)"
           "opt=(calcfc,ts, noeigen) freq=noraman" guess_xyz).
  - reflexivity.
  - reflexivity.
  - apply (bool_decide_unpack _). vm_compute. exact I.
Defined.

(** An instance of X20: the same guess with a blank line at its end. *)
Lemma xyz_to_gaussian_input_short_line_witness :
  Utils.xyz_to_gaussian_input xyz_files "guesses/ts_guess_1.xyz" "ts_guess_1.com"
    "UB3LYP" "6-31G(d,p)" "opt=(calcfc,ts, noeigen) freq=noraman"
  = (Some (Utils.header "guesses/ts_guess_1.xyz" "UB3LYP" "6-31G(d,p)"
             "opt=(calcfc,ts, noeigen) freq=noraman"
           +:+ text_of (map atom_text (drop 2 guess_xyz))),
     Raise IndexError).
Proof.
  apply (xyz_to_gaussian_input_short_line xyz_files "guesses/ts_guess_1.xyz"
           "ts_guess_1.com" "UB3LYP" "6-31G(d,p)"
           "opt=(calcfc,ts, noeigen) freq=noraman"
           (guess_xyz ++ [Utils.nl]) (drop 2 guess_xyz) [] Utils.nl).
  - reflexivity.
  - reflexivity.
  - reflexivity.
  - apply (bool_decide_unpack _). vm_compute. exact I.
  - vm_compute. lia.
Defined.

(** An instance of X22: the final structure of an output of [xtb]. *)
Lemma extract_coordinates_block_witness :
  IrcFiles.readlines xtb_files "irc_forward.out" = Ok xtb_out
  /\ IrcFiles.extract_coordinates xtb_files "irc_forward.out"
     = (rows ← mapM parse_row
                (filter (fun line => is_row line = true)
                   (take 5 (drop 4 xtb_out)));
        IrcFiles.write_coordinates_to_xyz xtb_files rows
          (IrcSearch.drop_last4 "irc_forward.out" +:+ "_opt.xyz"))
  /\ mapM parse_row
       (filter (fun line => is_row line = true) (take 5 (drop 4 xtb_out)))
     = Ok [("H", 0.000, 0.000, 0.010); ("Cl", 0.000, 0.000, 1.285)]%Q.
Proof.
  split; [reflexivity |]. split; [| vm_compute; reflexivity].
  apply (extract_coordinates_block xtb_files "irc_forward.out"
           (take 3 xtb_out) (take 5 (drop 4 xtb_out)) (drop 10 xtb_out)
           (" final structure:" +:+ Utils.nl) Utils.nl).
  - reflexivity.
  - apply (bool_decide_unpack _). vm_compute. exact I.
  - reflexivity.
  - apply (bool_decide_unpack _). vm_compute. exact I.
  - reflexivity.
  - reflexivity.
Defined.

(** An instance of X23: an output of [xtb] cut before its final
    structure. *)
Lemma extract_coordinates_no_structure_witness :
  IrcFiles.readlines xtb_files "irc_reverse.out" = Ok (take 3 xtb_out)
  /\ IrcFiles.extract_coordinates xtb_files "irc_reverse.out"
     = IrcFiles.write_coordinates_to_xyz xtb_files []
         (IrcSearch.drop_last4 "irc_reverse.out" +:+ "_opt.xyz").
Proof.
  split; [reflexivity |].
  apply (extract_coordinates_no_structure xtb_files "irc_reverse.out"
           (take 3 xtb_out)).
  - reflexivity.
  - apply (bool_decide_unpack _). vm_compute. exact I.
Defined.

End further_cases.
